(** * DotHack frontend: route guard, hackathon lifecycle, judging workflow

    A shallow embedding of the decision logic of the DotHack frontend
    (TypeScript) and the properties its specification states about it.

    The program, module by module as in the sources:
    - [JsString], [Regex]: the string methods and the regular-expression
      literals the sources use; the expressions are run by a derivative
      matcher, proved below to decide their language.
    - [RouteProtection]: lib/auth/route-protection.ts.
    - [Middleware]: middleware.ts.
    - [EmbeddingsNamespace]: lib/embeddings-namespace.ts.
    - [Effects]: async functions as finite trees of calls to collaborators,
      run against any world of collaborators with a log of the exchanges.
    - [HackathonLifecycle]: lib/workflows/hackathon-lifecycle.ts.
    - [ZeroDB], [Rubrics], [UseRubrics], [Submissions], [Scores]: the
      database client's interface and lib/api/rubrics.ts,
      hooks/use-rubrics.ts, lib/api/submissions.ts, lib/api/scores.ts.
    - [Judging]: lib/workflows/judging.ts.
    - [Rows], [ZeroDBClient]: the rows of the other tables and the client's
      interface for them.
    - [Participants], [SubmissionsQueries], [JudgingQueries],
      [ScoresQueries]: lib/api/participants.ts and the queries of
      lib/api/submissions.ts, lib/workflows/judging.ts and lib/api/scores.ts.
    - [CheckRole], [UseHasRole], [ProtectedRoute]: lib/auth/check-role.ts,
      hooks/use-has-role.ts and components/ProtectedRoute.tsx, the role
      checks of the client.
    - [Pagination], [UseParticipants], [QueryProvider]: lib/pagination.ts,
      the infinite query of hooks/use-participants.ts and the retry options
      of the query client.

    Strings are [string], one [ascii] per code unit (code units above 255
    are outside the model).  Numbers are IEEE 754 binary64, Rocq's primitive
    [float]; the limits, offsets, page sizes, counts and status codes, which
    are integers that binary64 holds exactly, are in [Z].  An object used as
    a record of named entries is the list of its entries in the order
    JavaScript enumerates them; where the sources read such an object by a
    computed key, the properties it inherits from [Object.prototype] are
    modelled too.  [JSON.parse] and [JSON.stringify] are
    parameters of the functions that call them. *)

From Stdlib Require Import String Ascii List ZArith Bool Lia Permutation.
From Stdlib Require Floats.
Import ListNotations.

Set Warnings "-inexact-float".

Set Implicit Arguments.

Open Scope string_scope.

(** * The program *)

(** ** JavaScript string methods *)

Module JsString.

(** [s.startsWith(pre)] *)
Fixpoint startsWith (s pre : string) {struct pre} : bool :=
  match pre with
  | EmptyString => true
  | String c pre' =>
      match s with
      | EmptyString => false
      | String d s' => Ascii.eqb d c && startsWith s' pre'
      end
  end.

(** [s.includes(sub)] *)
Fixpoint includes (s sub : string) {struct s} : bool :=
  startsWith s sub ||
  match s with
  | EmptyString => false
  | String _ s' => includes s' sub
  end.

(** [s.indexOf(sub)]: the first position at which [sub] occurs, or -1. *)
Fixpoint indexOf (s sub : string) {struct s} : Z :=
  if startsWith s sub then 0%Z
  else match s with
       | EmptyString => (-1)%Z
       | String _ s' =>
           let i := indexOf s' sub in
           if (i <? 0)%Z then (-1)%Z else (i + 1)%Z
       end.

(** Characters from position [n] on, and the first [n] characters. *)
Fixpoint skipn (n : nat) (s : string) : string :=
  match n, s with
  | O, _ => s
  | S _, EmptyString => EmptyString
  | S n', String _ s' => skipn n' s'
  end.

Fixpoint firstn (n : nat) (s : string) : string :=
  match n, s with
  | O, _ => EmptyString
  | S _, EmptyString => EmptyString
  | S n', String c s' => String c (firstn n' s')
  end.

(** An index argument of [substring]: negative values count as 0, values past
    the end as the length. *)
Definition clamp (s : string) (i : Z) : nat :=
  Nat.min (Z.to_nat i) (String.length s).

(** [s.substring(start, end)]: the arguments are clamped and swapped when
    [start > end]. *)
Definition substring (s : string) (i j : Z) : string :=
  let a := clamp s i in
  let b := clamp s j in
  let lo := Nat.min a b in
  let hi := Nat.max a b in
  firstn (hi - lo) (skipn lo s).

(** [s.substring(start)] *)
Definition substringFrom (s : string) (i : Z) : string :=
  skipn (clamp s i) s.

(** [s.split(sep)] for a one-character separator: never empty, the pieces
    between the occurrences of [sep]. *)
Fixpoint split (s : string) (sep : ascii) : list string :=
  match s with
  | EmptyString => [EmptyString]
  | String c s' =>
      if Ascii.eqb c sep then EmptyString :: split s' sep
      else match split s' sep with
           | [] => [String c EmptyString]
           | p :: ps => String c p :: ps
           end
  end.

(** White space of [trim] among the 8-bit code units: TAB, LF, VT, FF, CR,
    space and the no-break space. *)
Definition isWhiteSpace (c : ascii) : bool :=
  let n := nat_of_ascii c in
  (Nat.leb 9 n && Nat.leb n 13) || Nat.eqb n 32 || Nat.eqb n 160.

Fixpoint trimStart (s : string) : string :=
  match s with
  | EmptyString => EmptyString
  | String c s' => if isWhiteSpace c then trimStart s' else s
  end.

Fixpoint trimEnd (s : string) : string :=
  match s with
  | EmptyString => EmptyString
  | String c s' =>
      match trimEnd s' with
      | EmptyString => if isWhiteSpace c then EmptyString else String c EmptyString
      | t => String c t
      end
  end.

(** [s.trim()] *)
Definition trim (s : string) : string := trimEnd (trimStart s).

(** [s.replace(pat, repl)] with a string pattern and a replacement free of
    [$]: the first occurrence only. *)
Fixpoint replace (s pat repl : string) {struct s} : string :=
  if startsWith s pat then repl ++ skipn (String.length pat) s
  else match s with
       | EmptyString => EmptyString
       | String c s' => String c (replace s' pat repl)
       end.

(** Truthiness of a string: [!s] holds exactly for the empty string. *)
Definition truthy (s : string) : bool :=
  match s with EmptyString => false | _ => true end.

(** [xs.join(sep)] *)
Fixpoint join (xs : list string) (sep : string) : string :=
  match xs with
  | [] => EmptyString
  | [x] => x
  | x :: rest => x ++ sep ++ join rest sep
  end.

(** [c] does not occur in [s]. *)
Fixpoint lacks (c : ascii) (s : string) : bool :=
  match s with
  | EmptyString => true
  | String d s' => negb (Ascii.eqb d c) && lacks c s'
  end.

End JsString.

(** ** Regular expressions *)

Module Regex.

(** The fragment of JavaScript's regular expressions the sources use:
    literals, character classes, concatenation and repetition. [Void] and
    [Alt] arise as derivatives. *)
Inductive regex : Type :=
| Void
| Eps
| Class (p : ascii -> bool)
| Cat (r1 r2 : regex)
| Alt (r1 r2 : regex)
| Star (r : regex).

Definition Chr (c : ascii) : regex := Class (fun d => Ascii.eqb d c).

Fixpoint Lit (s : string) : regex :=
  match s with
  | EmptyString => Eps
  | String c s' => Cat (Chr c) (Lit s')
  end.

(** [r+] and [r{n}] *)
Definition Plus (r : regex) : regex := Cat r (Star r).

Fixpoint Repeat (n : nat) (r : regex) : regex :=
  match n with
  | O => Eps
  | S n' => Cat r (Repeat n' r)
  end.

Fixpoint nullable (r : regex) : bool :=
  match r with
  | Void => false
  | Eps => true
  | Class _ => false
  | Cat r1 r2 => nullable r1 && nullable r2
  | Alt r1 r2 => nullable r1 || nullable r2
  | Star _ => true
  end.

Fixpoint deriv (c : ascii) (r : regex) : regex :=
  match r with
  | Void => Void
  | Eps => Void
  | Class p => if p c then Eps else Void
  | Cat r1 r2 =>
      if nullable r1 then Alt (Cat (deriv c r1) r2) (deriv c r2)
      else Cat (deriv c r1) r2
  | Alt r1 r2 => Alt (deriv c r1) (deriv c r2)
  | Star r1 => Cat (deriv c r1) (Star r1)
  end.

(** [/^r$/.test(s)]: the whole of [s] matches [r]. *)
Fixpoint matches (r : regex) (s : string) : bool :=
  match s with
  | EmptyString => nullable r
  | String c s' => matches (deriv c r) s'
  end.

(** [/^r/.test(s)], and the truthiness of [s.match(/^r/)]: some prefix of [s]
    matches [r]. *)
Fixpoint matches_prefix (r : regex) (s : string) : bool :=
  nullable r ||
  match s with
  | EmptyString => false
  | String c s' => matches_prefix (deriv c r) s'
  end.

(** The language of a regular expression. *)
Inductive lang : regex -> string -> Prop :=
| L_Eps : lang Eps ""
| L_Class (p : ascii -> bool) (c : ascii) :
    p c = true -> lang (Class p) (String c "")
| L_Cat (r1 r2 : regex) (s1 s2 : string) :
    lang r1 s1 -> lang r2 s2 -> lang (Cat r1 r2) (s1 ++ s2)
| L_AltL (r1 r2 : regex) (s : string) : lang r1 s -> lang (Alt r1 r2) s
| L_AltR (r1 r2 : regex) (s : string) : lang r2 s -> lang (Alt r1 r2) s
| L_Star0 (r : regex) : lang (Star r) ""
| L_StarS (r : regex) (s1 s2 : string) :
    lang r s1 -> lang (Star r) s2 -> lang (Star r) (s1 ++ s2).

(** All characters of [s] satisfy [p]. *)
Fixpoint all (p : ascii -> bool) (s : string) : bool :=
  match s with
  | EmptyString => true
  | String c s' => p c && all p s'
  end.

(** The longest prefix of [s] whose characters are of the class [p]: what a
    greedy group [([p]+)] captures when nothing follows it in the
    expression. *)
Fixpoint longest (p : ascii -> bool) (s : string) : string :=
  match s with
  | EmptyString => EmptyString
  | String c s' => if p c then String c (longest p s') else EmptyString
  end.

End Regex.

(** ** lib/auth/route-protection.ts *)

Module RouteProtection.
Import JsString Regex.

Inductive UserRole : Type := BUILDER | ORGANIZER | JUDGE | MENTOR.

Definition UserRole_eqb (a b : UserRole) : bool :=
  match a, b with
  | BUILDER, BUILDER | ORGANIZER, ORGANIZER | JUDGE, JUDGE | MENTOR, MENTOR => true
  | _, _ => false
  end.

(** The class [[^/]]. *)
Definition notSlash (c : ascii) : bool := negb (Ascii.eqb c "/").

(** The literal [/^\/hackathons\/[^/]+\/segment/]. *)
Definition hackathonRoute (segment : string) : regex :=
  Cat (Lit "/hackathons/") (Cat (Plus (Class notSlash)) (Lit ("/" ++ segment))).

Definition publicRoutes : list string :=
  ["/"; "/login"; "/signup"; "/features"; "/pricing"; "/docs"; "/contact";
   "/privacy"; "/terms"; "/public-hackathons"].

Definition isPublicRoute (pathname : string) : bool :=
  existsb (fun route =>
             if String.eqb route "/" then String.eqb pathname "/"
             else startsWith pathname route)
          publicRoutes.

Definition protectedRoutes : list string :=
  ["/hackathons"; "/profile"; "/settings"].

Definition isProtectedRoute (pathname : string) : bool :=
  existsb (fun route => startsWith pathname route) protectedRoutes.

Definition getRequiredRoles (pathname : string) : option (list UserRole) :=
  if matches_prefix (hackathonRoute "setup") pathname
     || matches_prefix (hackathonRoute "participants") pathname
     || matches_prefix (hackathonRoute "prizes") pathname
     || startsWith pathname "/api-settings"
  then Some [ORGANIZER]
  else if matches_prefix (hackathonRoute "judging") pathname
  then Some [JUDGE]
  else if matches_prefix (hackathonRoute "teams") pathname
          || matches_prefix (hackathonRoute "projects") pathname
          || matches_prefix (hackathonRoute "submissions") pathname
  then Some [BUILDER; ORGANIZER]
  else None.

Definition hasAccess (userRole : UserRole) (pathname : string) : bool :=
  match getRequiredRoles pathname with
  | None => true
  | Some requiredRoles => existsb (UserRole_eqb userRole) requiredRoles
  end.

(** [pathname.match(/^\/hackathons\/([^/]+)/)]: null when the expression
    does not match, else its group 1, the characters other than [/] that
    follow the literal. *)
Definition extractHackathonId (pathname : string) : option string :=
  if matches_prefix (Cat (Lit "/hackathons/") (Plus (Class notSlash))) pathname
  then Some (longest notSlash (skipn (String.length "/hackathons/") pathname))
  else None.

(** What the route matrix means by [/hackathons/{id}/segment]: the prefix
    [/hackathons/], a non-empty identifier free of [/], then [/segment];
    anything may follow. *)
Definition route_pattern (segment pathname : string) : Prop :=
  exists id rest,
    pathname = "/hackathons/" ++ id ++ "/" ++ segment ++ rest
    /\ id <> "" /\ lacks "/" id = true.

(** The seven role-gated hackathon sections. *)
Definition role_gated (pathname : string) : Prop :=
  exists segment,
    In segment ["setup"; "participants"; "prizes"; "judging";
                "teams"; "projects"; "submissions"]
    /\ route_pattern segment pathname.

End RouteProtection.

(** ** middleware.ts *)

Module Middleware.
Import JsString Regex.

(** What the middleware reads of a request: the path of its URL, the value of
    the [auth_token] cookie and the [authorization] header, each absent or a
    string. *)
Record NextRequest : Type := {
  pathname : string;
  cookie_auth_token : option string;
  header_authorization : option string
}.

(** [NextResponse.next()], or [NextResponse.redirect(url)] with the path and
    the query parameters of [url]. *)
Inductive NextResponse : Type :=
| next
| redirect (path : string) (searchParams : list (string * string)).

Definition PUBLIC_ROUTES : list string :=
  ["/"; "/login"; "/signup"; "/features"; "/pricing"; "/docs"; "/contact";
   "/privacy"; "/terms"; "/public-hackathons"].

Definition PROTECTED_ROUTES : list string :=
  ["/hackathons"; "/profile"; "/settings"].

Definition ORGANIZER_ROUTES : list string := ["/api-settings"].

Definition isPublicRoute (pathname : string) : bool :=
  existsb (fun route =>
             if String.eqb route "/" then String.eqb pathname "/"
             else startsWith pathname route)
          PUBLIC_ROUTES.

Definition isProtectedRoute (pathname : string) : bool :=
  existsb (fun route => startsWith pathname route) PROTECTED_ROUTES.

Definition requiresOrganizer (pathname : string) : bool :=
  existsb (fun route => startsWith pathname route) ORGANIZER_ROUTES.

Definition requiresJudge (pathname : string) : bool :=
  matches_prefix (RouteProtection.hackathonRoute "judging") pathname.

Definition organizerPatterns : list regex :=
  [RouteProtection.hackathonRoute "setup";
   RouteProtection.hackathonRoute "participants";
   RouteProtection.hackathonRoute "prizes"].

Definition requiresOrganizerForHackathon (pathname : string) : bool :=
  existsb (fun pattern => matches_prefix pattern pathname) organizerPatterns.

(** [request.cookies.get('auth_token')?.value ||
     request.headers.get('authorization')?.replace('Bearer ', '')]:
    the cookie when it is a non-empty string, else the header without its
    first [Bearer ], else undefined. *)
Definition token (request : NextRequest) : option string :=
  let fromHeader :=
    option_map (fun h => replace h "Bearer " "") (header_authorization request) in
  match cookie_auth_token request with
  | Some v => if truthy v then Some v else fromHeader
  | None => fromHeader
  end.

(** [!token] *)
Definition noToken (t : option string) : bool :=
  match t with
  | None => true
  | Some v => negb (truthy v)
  end.

Definition middleware (request : NextRequest) : NextResponse :=
  let pathname := pathname request in
  if startsWith pathname "/_next"
     || startsWith pathname "/api"
     || startsWith pathname "/static"
     || includes pathname "."
  then next
  else
    let token := token request in
    if isPublicRoute pathname then next
    else if noToken token
            && (isProtectedRoute pathname || requiresOrganizer pathname
                || requiresJudge pathname
                || requiresOrganizerForHackathon pathname)
    then redirect "/login" [("redirect", pathname)]
    else next.

End Middleware.

(** ** Functions that may throw *)

(** A call either returns a value or throws. *)
Inductive result (E A : Type) : Type :=
| Ok (a : A)
| Err (e : E).

Arguments Ok {E A} a.
Arguments Err {E A} e.

Definition bind {E A B : Type} (m : result E A) (k : A -> result E B) : result E B :=
  match m with
  | Ok a => k a
  | Err e => Err e
  end.

(** ** lib/embeddings-namespace.ts *)

Module EmbeddingsNamespace.
Import JsString Regex.

(** Modelled from the spec: lib/error-handling is not among the sources; a
    ValidationError is an error raised for bad input, made with
    [new ValidationError(message)]. *)
Record ValidationError : Type := { message : string }.

Definition throw {A : Type} (msg : string) : result ValidationError A :=
  Err {| message := msg |}.

(** The class [[lo-hi]]. *)
Definition inRange (lo hi c : ascii) : bool :=
  Nat.leb (nat_of_ascii lo) (nat_of_ascii c)
  && Nat.leb (nat_of_ascii c) (nat_of_ascii hi).

(** The class [[0-9a-f]] under the flag [i]. *)
Definition hexDigit (c : ascii) : bool :=
  inRange "0" "9" c || inRange "a" "f" c || inRange "A" "F" c.

(** [/^[0-9a-f]{8}-[0-9a-f]{4}-[0-9a-f]{4}-[0-9a-f]{4}-[0-9a-f]{12}$/i] *)
Definition UUID_REGEX : regex :=
  Cat (Repeat 8 (Class hexDigit))
 (Cat (Chr "-")
 (Cat (Repeat 4 (Class hexDigit))
 (Cat (Chr "-")
 (Cat (Repeat 4 (Class hexDigit))
 (Cat (Chr "-")
 (Cat (Repeat 4 (Class hexDigit))
 (Cat (Chr "-")
      (Repeat 12 (Class hexDigit))))))))).

Definition validateUUIDInternal (value fieldName : string)
  : result ValidationError unit :=
  if negb (truthy value) then
    throw (fieldName ++ " must be a non-empty string")
  else if negb (matches UUID_REGEX value) then
    throw (fieldName ++ " must be a valid UUID")
  else Ok tt.

Module EmbeddingNamespace.

Definition submissions (hackathonId : string) : result ValidationError string :=
  bind (validateUUIDInternal hackathonId "hackathonId")
       (fun _ => Ok ("hackathons/" ++ hackathonId ++ "/submissions")).

Definition projects (hackathonId : string) : result ValidationError string :=
  bind (validateUUIDInternal hackathonId "hackathonId")
       (fun _ => Ok ("hackathons/" ++ hackathonId ++ "/projects")).

Definition judging (hackathonId : string) : result ValidationError string :=
  bind (validateUUIDInternal hackathonId "hackathonId")
       (fun _ => Ok ("hackathons/" ++ hackathonId ++ "/judging")).

End EmbeddingNamespace.

Module DocumentId.

Definition submission (submissionId : string) : result ValidationError string :=
  bind (validateUUIDInternal submissionId "submissionId")
       (fun _ => Ok ("submission:" ++ submissionId)).

Definition project (projectId : string) : result ValidationError string :=
  bind (validateUUIDInternal projectId "projectId")
       (fun _ => Ok ("project:" ++ projectId)).

End DocumentId.

(** [parts[i]]; every use below is guarded by a check of the length. *)
Definition at_index (parts : list string) (i : nat) : string :=
  nth i parts "".

Definition dquote : string := String "034"%char "".

Definition validTypes : list string := ["submissions"; "projects"; "judging"].

Definition validateNamespace (namespace : string) : result ValidationError unit :=
  if negb (truthy namespace) then
    throw "Namespace must be a non-empty string"
  else if negb (startsWith namespace "hackathons/") then
    throw ("Namespace must start with " ++ dquote ++ "hackathons/" ++ dquote)
  else
    let parts := split namespace "/" in
    if negb (Nat.eqb (List.length parts) 3) then
      throw "Namespace must follow format: hackathons/{hackathon_id}/{type}"
    else
      let hackathonId := at_index parts 1 in
      if negb (matches UUID_REGEX hackathonId) then
        throw ("Invalid hackathon ID in namespace: " ++ hackathonId)
      else
        let type := at_index parts 2 in
        if negb (existsb (String.eqb type) validTypes) then
          throw ("Invalid namespace type: " ++ type ++ ". Must be one of: "
                 ++ join validTypes ", ")
        else Ok tt.

Definition validPrefixes : list string := ["submission:"; "project:"].

Definition validateDocumentId (docId : string) : result ValidationError unit :=
  if negb (truthy docId) then
    throw "Document ID must be a non-empty string"
  else
    let hasValidPrefix := existsb (fun prefix => startsWith docId prefix) validPrefixes in
    if negb hasValidPrefix then
      throw ("Document ID must start with one of: " ++ join validPrefixes ", ")
    else
      let prefix := at_index (split docId ":") 0 in
      let id := substringFrom docId (Z.of_nat (String.length prefix) + 1) in
      if negb (matches UUID_REGEX id) then
        throw ("Invalid UUID in document ID: " ++ id)
      else Ok tt.

Definition validateUUID (value fieldName : string) : result ValidationError unit :=
  validateUUIDInternal value fieldName.

Record ParsedNamespace : Type := {
  ns_hackathonId : string;
  ns_type : string
}.

Definition parseNamespace (namespace : string)
  : result ValidationError ParsedNamespace :=
  bind (validateNamespace namespace) (fun _ =>
    let parts := split namespace "/" in
    Ok {| ns_hackathonId := at_index parts 1; ns_type := at_index parts 2 |}).

Record ParsedDocumentId : Type := {
  doc_type : string;
  doc_id : string
}.

Definition parseDocumentId (docId : string)
  : result ValidationError ParsedDocumentId :=
  bind (validateDocumentId docId) (fun _ =>
    let colonIndex := indexOf docId ":" in
    let type := substring docId 0 colonIndex in
    let id := substringFrom docId (colonIndex + 1) in
    Ok {| doc_type := type; doc_id := id |}).

End EmbeddingsNamespace.

(** ** Asynchronous code: programs over an interface of external calls *)

(** The workflows and API wrappers are async functions that await calls to
    collaborators outside them (the database client, modules of the
    application that are imported).  Such a function is a finite tree: it
    returns, or performs a call of the interface [C] and continues with the
    answer.  A call whose promise can reject answers with a [result]. *)

Module Effects.

Inductive Prog (C : Type -> Type) (A : Type) : Type :=
| Ret (a : A)
| Call (X : Type) (c : C X) (k : X -> Prog C A).

Arguments Ret {C A} a.
Arguments Call {C A X} c k.

Fixpoint pbind {C : Type -> Type} {A B : Type}
  (p : Prog C A) (k : A -> Prog C B) : Prog C B :=
  match p with
  | Ret a => k a
  | Call c k' => Call c (fun x => pbind (k' x) k)
  end.

(** [await c] *)
Definition await {C : Type -> Type} {X : Type} (c : C X) : Prog C X :=
  Call c Ret.

(** [try { a = body } catch (e) { handler } ; rest] where [handler] throws
    or returns the value of the whole. *)
Definition tryCatch {C : Type -> Type} {E E' A B : Type}
  (body : Prog C (result E A))
  (handler : E -> Prog C (result E' B))
  (rest : A -> Prog C (result E' B)) : Prog C (result E' B) :=
  pbind body (fun r => match r with
                       | Ok a => rest a
                       | Err e => handler e
                       end).

(** Sequencing of code that may throw: an exception ends the function. *)
Definition andThen {C : Type -> Type} {E A B : Type}
  (p : Prog C (result E A)) (k : A -> Prog C (result E B))
  : Prog C (result E B) :=
  tryCatch p (fun e => Ret (Err e)) k.

(** A call as the world saw it: the request and the answer it got. *)
Record Exchange (C : Type -> Type) : Type := exchange {
  answer_type : Type;
  request : C answer_type;
  answer : answer_type
}.

Arguments exchange {C answer_type} request answer.

(** The collaborators behind the interface: any state [W], and for each call
    the answer and the next state. *)
Definition World (C : Type -> Type) (W : Type) : Type :=
  forall X : Type, C X -> W -> X * W.

(** Running a program against a world: the value, the final state of the
    world and the exchanges in the order they happened. *)
Fixpoint run {C : Type -> Type} {A W : Type}
  (world : World C W) (p : Prog C A) (w : W) : A * W * list (Exchange C) :=
  match p with
  | Ret a => (a, w, [])
  | Call c k =>
      let (x, w1) := world _ c w in
      let '(a, w2, log) := run world (k x) w1 in
      (a, w2, exchange c x :: log)
  end.

(** Linking: the calls of [C] are themselves programs over [D]. *)
Fixpoint link {C D : Type -> Type} {A : Type}
  (impl : forall X : Type, C X -> Prog D X) (p : Prog C A) : Prog D A :=
  match p with
  | Ret a => Ret a
  | Call c k => pbind (impl _ c) (fun x => link impl (k x))
  end.

(** What a promise rejects with, seen through [catch (error)]: an [Error]
    with its message, or some other value. *)
Inductive Thrown : Type :=
| ThrownError (message : string)
| ThrownOther.

(** [error instanceof Error ? error.message : 'Unknown error'] *)
Definition messageOf (error : Thrown) : string :=
  match error with
  | ThrownError message => message
  | ThrownOther => "Unknown error"
  end.

End Effects.

(** ** lib/types.ts *)

Module Types.

(** Modelled from the spec: the declarations of lib/types are not among the
    sources.  A rubric belongs to one hackathon and holds its criteria; the
    row that lib/api/rubrics.ts writes has the fields below, the criteria as
    JSON text. *)
Record Rubric : Type := {
  rubric_id : string;
  r_hackathon_id : string;
  r_title : string;
  criteria_json : string
}.

End Types.

(** ** lib/workflows/hackathon-lifecycle.ts *)

Module HackathonLifecycle.
Import JsString Effects Types.

Inductive Status : Type := DRAFT | LIVE | CLOSED.

Definition Status_eqb (a b : Status) : bool :=
  match a, b with
  | DRAFT, DRAFT | LIVE, LIVE | CLOSED, CLOSED => true
  | _, _ => false
  end.

(** The status as the string it is in the source. *)
Definition statusName (s : Status) : string :=
  match s with
  | DRAFT => "DRAFT"
  | LIVE => "LIVE"
  | CLOSED => "CLOSED"
  end.

(** Modelled from the spec: the declarations of lib/api/hackathons are not
    among the sources; a hackathon has an identity, a name, a description, a
    status and start and end timestamps.  The name of the input may be
    absent, as the workflow's [name?.trim()] provides for. *)
Record CreateHackathonInput : Type := {
  chi_name : option string;
  chi_description : string;
  chi_start_at : string;
  chi_end_at : string
}.

(** Modelled from the spec: the hackathon as lib/api/hackathons returns it,
    with the identity the workflow reads. *)
Record Hackathon : Type := {
  hackathon_id : string;
  h_name : string;
  h_status : Status;
  h_start_at : string;
  h_end_at : string
}.

(** Modelled from the spec: the declarations of lib/api/tracks are not among
    the sources; a track belongs to one hackathon and has a name and a
    description. *)
Record CreateTrackInput : Type := {
  cti_name : string;
  cti_description : string
}.

(** Modelled from the spec: the track as lib/api/tracks returns it. *)
Record Track : Type := {
  track_id : string;
  t_hackathon_id : string;
  t_name : string;
  t_description : string
}.

(** The rubric part of the input, as the workflow uses it: it reads the
    property [criteria_json], which is absent or a string, and passes the
    object on. *)
Record RubricInput : Type := {
  ri_title : option string;
  ri_criteria_json : option string
}.

(** The functions the workflow imports.  [createHackathon input status]
    stands for the call with [{...input, status}], [createTrack input id]
    and [createRubric input id] for the calls with
    [{...input, hackathon_id: id}], [updateHackathon id status] for the call
    with [{hackathon_id: id, status}]. *)
Inductive Api : Type -> Type :=
| createHackathon (input : CreateHackathonInput) (status : Status)
  : Api (result Thrown Hackathon)
| updateHackathon (hackathon_id : string) (status : Status)
  : Api (result Thrown Hackathon)
| createTrack (input : CreateTrackInput) (hackathon_id : string)
  : Api (result Thrown Track)
| createRubric (input : RubricInput) (hackathon_id : string)
  : Api (result Thrown Rubric).

Record HackathonLifecycleInput : Type := {
  hackathon : CreateHackathonInput;
  tracks : list CreateTrackInput;
  rubric : RubricInput
}.

Record HackathonLifecycleResult : Type := {
  res_hackathon : Hackathon;
  res_tracks : list Track;
  res_rubric : Rubric
}.

Inductive Phase : Type :=
| validation
| hackathon_create
| tracks_create
| rubric_create.

(** An [Error] named HackathonLifecycleError. *)
Record HackathonLifecycleError : Type := {
  phase : Phase;
  message : string;
  canRetry : bool;
  hackathonId : option string;
  createdTracks : option (list Track)
}.

Definition createLifecycleError (phase : Phase) (message : string)
  (canRetry : bool) (hackathonId : option string)
  (createdTracks : option (list Track)) : HackathonLifecycleError :=
  {| phase := phase; message := message; canRetry := canRetry;
     hackathonId := hackathonId; createdTracks := createdTracks |}.

(** The class [APIError] of lib/error-handling, as
    [new APIError(message, statusCode)] makes it: the message of the error
    and its status code ([originalError] is left undefined). *)
Record APIError : Type := {
  api_message : string;
  statusCode : Z
}.

Definition VALID_STATUS_TRANSITIONS : list (Status * list Status) :=
  [(DRAFT, [LIVE]); (LIVE, [CLOSED]); (CLOSED, [])].

(** [VALID_STATUS_TRANSITIONS[status]] *)
Fixpoint lookup (table : list (Status * list Status)) (status : Status)
  : option (list Status) :=
  match table with
  | [] => None
  | (s, ts) :: rest => if Status_eqb s status then Some ts else lookup rest status
  end.

Definition throw {C : Type -> Type} {E A : Type} (e : E) : Prog C (result E A) :=
  Ret (Err e).

(** Truthiness of a value that is undefined or a string. *)
Definition truthyOpt (v : option string) : bool :=
  match v with
  | None => false
  | Some s => truthy s
  end.

(** The loop over [tracksInput]: each track is created in turn and pushed on
    [createdTracks]; a rejection leaves the loop with the tracks pushed so
    far. *)
Fixpoint createTracks (hackathon_id : string) (tracksInput : list CreateTrackInput)
  (createdTracks : list Track)
  : Prog Api (result (Thrown * list Track) (list Track)) :=
  match tracksInput with
  | [] => Ret (Ok createdTracks)
  | trackInput :: rest =>
      Call (createTrack trackInput hackathon_id)
           (fun r => match r with
                     | Ok track =>
                         createTracks hackathon_id rest (createdTracks ++ [track])%list
                     | Err error => Ret (Err (error, createdTracks))
                     end)
  end.

Definition createHackathonWithSetup (input : HackathonLifecycleInput)
  : Prog Api (result HackathonLifecycleError HackathonLifecycleResult) :=
  let hackathonInput := hackathon input in
  let tracksInput := tracks input in
  let rubricInput := rubric input in
  if negb (truthyOpt (option_map trim (chi_name hackathonInput))) then
    throw (createLifecycleError validation "Hackathon name is required" false None None)
  else if Nat.eqb (List.length tracksInput) 0 then
    throw (createLifecycleError validation "At least one track is required" false None None)
  else if negb (truthyOpt (ri_criteria_json rubricInput)) then
    throw (createLifecycleError validation "Rubric criteria are required" false None None)
  else
    tryCatch (await (createHackathon hackathonInput DRAFT))
      (fun error =>
         throw (createLifecycleError hackathon_create
                  ("Failed to create hackathon: " ++ messageOf error)
                  true None None))
      (fun hackathon =>
         tryCatch (createTracks (hackathon_id hackathon) tracksInput [])
           (fun '(error, createdTracks) =>
              throw (createLifecycleError tracks_create
                       ("Failed to create tracks: " ++ messageOf error)
                       true (Some (hackathon_id hackathon)) (Some createdTracks)))
           (fun createdTracks =>
              tryCatch (await (createRubric rubricInput (hackathon_id hackathon)))
                (fun error =>
                   throw (createLifecycleError rubric_create
                            ("Failed to create rubric: " ++ messageOf error)
                            true (Some (hackathon_id hackathon))
                            (Some createdTracks)))
                (fun rubric =>
                   Ret (Ok {| res_hackathon := hackathon;
                              res_tracks := createdTracks;
                              res_rubric := rubric |})))).

(** The arrow of the error message, U+2192, written by the bytes of its
    UTF-8 encoding. *)
Definition arrow : string := "→".

(** [validTransitions?.join(', ') || 'none'] *)
Definition validTransitionsText (validTransitions : option (list Status)) : string :=
  match option_map (fun ts => join (map statusName ts) ", ") validTransitions with
  | Some joined => if truthy joined then joined else "none"
  | None => "none"
  end.

Definition includesStatus (ts : list Status) (s : Status) : bool :=
  existsb (Status_eqb s) ts.

Definition transitionHackathonStatus (hackathonId : string)
  (currentStatus newStatus : Status) : Prog Api (result APIError Hackathon) :=
  let validTransitions := lookup VALID_STATUS_TRANSITIONS currentStatus in
  if match validTransitions with
     | None => true
     | Some ts => negb (includesStatus ts newStatus)
     end
  then
    throw {| api_message :=
               "Invalid status transition: " ++ statusName currentStatus
               ++ " " ++ arrow ++ " " ++ statusName newStatus
               ++ ". Valid transitions: " ++ validTransitionsText validTransitions;
             statusCode := 400 |}
  else
    tryCatch (await (updateHackathon hackathonId newStatus))
      (fun error =>
         throw {| api_message :=
                    "Failed to transition hackathon status: " ++ messageOf error;
                  statusCode := 500 |})
      (fun updated => Ret (Ok updated)).

Definition canTransitionStatus (currentStatus newStatus : Status) : bool :=
  match lookup VALID_STATUS_TRANSITIONS currentStatus with
  | Some validTransitions => includesStatus validTransitions newStatus
  | None => false
  end.

Definition getValidTransitions (status : Status) : list Status :=
  match lookup VALID_STATUS_TRANSITIONS status with
  | Some validTransitions => validTransitions
  | None => []
  end.

End HackathonLifecycle.

(** ** The database client and the platform *)

Module ZeroDB.
Import Effects.

(** Modelled from the spec: the client lib/zerodb is not among the sources;
    its contract is that of the external store:
    [queryRows(table, {filter?, limit?, offset?})]. *)
Record QueryOptions : Type := {
  filter : option (list (string * string));
  limit : Z;
  offset : Z
}.

(** Modelled from the spec: the answer of the store,
    [{success, rows?, error?}]. *)
Record Response (T : Type) : Type := {
  success : bool;
  rows : option (list T);
  error : option string
}.

Arguments success {T} r.
Arguments rows {T} r.
Arguments error {T} r.

(** Modelled from the spec: what the API wrappers call outside the
    application, with the signatures of the external store:
    [zeroDBClient.insertRows<T>(table, rows)],
    [zeroDBClient.queryRows<Rubric>(table, options)], whose rows are rubrics
    as the type argument asserts, [crypto.randomUUID()] and
    [new Date().toISOString()]. *)
Inductive Db : Type -> Type :=
| insertRows (T : Type) (table : string) (rows : list T)
  : Db (result Thrown (Response T))
| queryRows (table : string) (options : QueryOptions)
  : Db (result Thrown (Response Types.Rubric))
| randomUUID : Db string
| Date_toISOString : Db string.

Arguments insertRows {T} table rows.

(** [response.error || fallback] *)
Definition errorOr (error : option string) (fallback : string) : string :=
  match error with
  | Some e => if JsString.truthy e then e else fallback
  | None => fallback
  end.

(** [n || fallback] for an optional number. *)
Definition numberOr (n : option Z) (fallback : Z) : Z :=
  match n with
  | Some v => if Z.eqb v 0 then fallback else v
  | None => fallback
  end.

Definition throw {C : Type -> Type} {E A : Type} (e : E) : Prog C (result E A) :=
  Ret (Err e).

End ZeroDB.

(** ** lib/api/rubrics.ts *)

Module Rubrics.
Import JsString Effects ZeroDB Types.
Import Floats.

Record RubricCriterion : Type := {
  criterion_id : string;
  name : string;
  description : string;
  weight : float;
  max_score : float
}.

Record CreateRubricInput : Type := {
  cri_hackathon_id : string;
  cri_title : string;
  cri_criteria : list RubricCriterion
}.

Record ListRubricsParams : Type := {
  lrp_hackathon_id : option string;
  lrp_limit : option Z;
  lrp_offset : option Z
}.

Section WithJSON.

(** [JSON.stringify] on an array of criteria. *)
Variable JSON_stringify : list RubricCriterion -> string.

Definition createRubric (input : CreateRubricInput)
  : Prog Db (result Thrown Rubric) :=
  Call randomUUID (fun uuid =>
    let rubric := {| rubric_id := uuid;
                     r_hackathon_id := cri_hackathon_id input;
                     r_title := cri_title input;
                     criteria_json := JSON_stringify (cri_criteria input) |} in
    andThen (await (insertRows "rubrics" [rubric])) (fun response =>
      if negb (success response) then
        throw (ThrownError (errorOr (error response) "Failed to create rubric"))
      else Ret (Ok rubric))).

End WithJSON.

Definition listRubrics (params : ListRubricsParams)
  : Prog Db (result Thrown (list Rubric)) :=
  let filter :=
    match lrp_hackathon_id params with
    | Some id => if truthy id then [("hackathon_id", id)] else []
    | None => []
    end in
  andThen
    (await (queryRows "rubrics"
              {| filter := if Nat.ltb 0 (List.length filter) then Some filter else None;
                 limit := numberOr (lrp_limit params) 100;
                 offset := numberOr (lrp_offset params) 0 |}))
    (fun response =>
       if negb (success response) then
         throw (ThrownError (errorOr (error response) "Failed to list rubrics"))
       else Ret (Ok (match rows response with
                     | Some rs => rs
                     | None => []
                     end))).

Definition getRubricByHackathon (hackathonId : string)
  : Prog Db (result Thrown (option Rubric)) :=
  andThen
    (listRubrics {| lrp_hackathon_id := Some hackathonId;
                    lrp_limit := Some 1%Z;
                    lrp_offset := None |})
    (fun rubrics =>
       Ret (Ok (match rubrics with
                | rubric :: _ => Some rubric
                | [] => None
                end))).

(** The loop of [validateCriteria] over the criteria. *)
Fixpoint validateEach (criteria : list RubricCriterion) : option string :=
  match criteria with
  | [] => None
  | criterion :: rest =>
      if negb (truthy (name criterion))
         || Nat.eqb (String.length (trim (name criterion))) 0
      then Some "All criteria must have a name"
      else if (weight criterion <=? 0)%float || (1 <? weight criterion)%float
      then Some "Criterion weights must be between 0 and 1"
      else if (max_score criterion <=? 0)%float
      then Some "Max score must be greater than 0"
      else validateEach rest
  end.

(** [validateCriteria]: the message of the first violated rule, or null. *)
Definition validateCriteria (criteria : list RubricCriterion) : option string :=
  if Nat.eqb (List.length criteria) 0 then
    Some "At least one criterion is required"
  else
    let totalWeight := fold_left (fun sum c => (sum + weight c)%float) criteria 0%float in
    if (0.01 <? abs (totalWeight - 1))%float then
      Some "Criterion weights must sum to 1.0"
    else validateEach criteria.

End Rubrics.

(** ** hooks/use-rubrics.ts *)

Module UseRubrics.
Import JsString Effects ZeroDB Types Rubrics.

Section WithJSON.

Variable JSON_stringify : list RubricCriterion -> string.

(** The [mutationFn] of [useCreateRubric]. *)
Definition mutationFn (input : CreateRubricInput)
  : Prog Db (result Thrown Rubric) :=
  match validateCriteria (cri_criteria input) with
  | Some validationError =>
      if truthy validationError then throw (ThrownError validationError)
      else createRubric JSON_stringify input
  | None => createRubric JSON_stringify input
  end.

End WithJSON.

End UseRubrics.

(** ** lib/api/submissions.ts *)

Module Submissions.
Import JsString Effects ZeroDB.

Record ArtifactLink : Type := {
  url : string;
  type : string;
  label : option string
}.

Record CreateSubmissionInput : Type := {
  csi_project_id : string;
  csi_hackathon_id : string;
  csi_submission_text : string;
  csi_artifact_links : list ArtifactLink
}.

(** The row written: [Partial<SubmissionWithMetadata>] with these fields. *)
Record SubmissionWithMetadata : Type := {
  submission_id : string;
  project_id : string;
  submitted_at : string;
  submission_text : string;
  artifact_links_json : string;
  namespace : string
}.

Definition generateSubmissionNamespace (hackathonId : string) : string :=
  "hackathons/" ++ hackathonId ++ "/submissions".

Section WithJSON.

Variable JSON_stringify : list ArtifactLink -> string.

Definition createSubmission (input : CreateSubmissionInput)
  : Prog Db (result Thrown SubmissionWithMetadata) :=
  let namespace := generateSubmissionNamespace (csi_hackathon_id input) in
  Call randomUUID (fun uuid =>
  Call Date_toISOString (fun now =>
    let submission := {| submission_id := uuid;
                         project_id := csi_project_id input;
                         submitted_at := now;
                         submission_text := csi_submission_text input;
                         artifact_links_json := JSON_stringify (csi_artifact_links input);
                         namespace := namespace |} in
    andThen (await (insertRows "submissions" [submission])) (fun response =>
      if negb (success response) then
        throw (ThrownError (errorOr (error response) "Failed to create submission"))
      else Ret (Ok submission)))).

End WithJSON.

End Submissions.

(** ** lib/api/scores.ts *)

Module Scores.
Import JsString Effects ZeroDB.
Import Floats.

Record CriterionScore : Type := {
  criterion_id : string;
  score : float
}.

(** The values that the properties of the objects passed to [createScore]
    hold: undefined, a string, a number, or an array of criterion scores. *)
Inductive JsValue : Type :=
| JsUndefined
| JsString (s : string)
| JsNumber (x : float)
| JsCriterionScores (scores : list CriterionScore).

(** An object: its properties in the order they were written. *)
Definition JsObject : Type := list (string * JsValue).

(** [object.property]: undefined when the object has no such property. *)
Fixpoint prop (object : JsObject) (property : string) : JsValue :=
  match object with
  | [] => JsUndefined
  | (p, v) :: rest => if String.eqb p property then v else prop rest property
  end.

(** The messages of the TypeErrors of [value.reduce(...)] on a value that is
    undefined, and on one that has no method [reduce], as V8 words them. *)
Definition reduceOfUndefined : string :=
  "Cannot read properties of undefined (reading 'reduce')".

Definition reduceNotAFunction : string :=
  "criterionScores.reduce is not a function".

(** [criterionScores.reduce((sum, cs) => sum + cs.score, 0)] *)
Definition calculateTotalScore (criterionScores : JsValue) : result Thrown float :=
  match criterionScores with
  | JsCriterionScores scores =>
      Ok (fold_left (fun sum cs => (sum + score cs)%float) scores 0%float)
  | JsUndefined => Err (ThrownError reduceOfUndefined)
  | JsString _ | JsNumber _ => Err (ThrownError reduceNotAFunction)
  end.

Section WithJSON.

(** [JSON.stringify] on the value of a property (undefined for undefined). *)
Variable JSON_stringify : JsValue -> JsValue.

(** [createScore(input)], on the object it is called with: it reads the
    properties [submission_id], [judge_participant_id], [criterion_scores]
    and [feedback]. *)
Definition createScore (input : JsObject) : Prog Db (result Thrown JsObject) :=
  match calculateTotalScore (prop input "criterion_scores") with
  | Err e => throw e
  | Ok totalScore =>
      Call randomUUID (fun uuid =>
        let score : JsObject :=
          [("score_id", JsString uuid);
           ("submission_id", prop input "submission_id");
           ("judge_participant_id", prop input "judge_participant_id");
           ("score_json", JSON_stringify (prop input "criterion_scores"));
           ("total_score", JsNumber totalScore);
           ("feedback", prop input "feedback")] in
        andThen (await (insertRows "scores" [score])) (fun response =>
          if negb (success response) then
            throw (ThrownError (errorOr (error response) "Failed to create score"))
          else Ret (Ok score)))
  end.

End WithJSON.

End Scores.

(** ** lib/workflows/judging.ts *)

Module Judging.
Import JsString Effects Types.
Import Floats.

(** [Record<string, number>]: the own properties of the object, in the order
    [Object.entries] and [Object.keys] list them.  The prototype of the
    object is [Object.prototype], as for every object literal and every
    object that [JSON.parse] makes. *)
Definition CriteriaScores : Type := list (string * float).

Record Criterion : Type := {
  weight : float;
  max_score : float
}.

(** [Record<string, {weight, max_score}>] *)
Definition Criteria : Type := list (string * Criterion).

(** The own property of the record under a key, if there is one. *)
Fixpoint get {V : Type} (record : list (string * V)) (key : string) : option V :=
  match record with
  | [] => None
  | (k, v) :: rest => if String.eqb k key then Some v else get rest key
  end.

(** The record has an own property under the key. *)
Definition has {V : Type} (key : string) (record : list (string * V)) : bool :=
  match get record key with
  | Some _ => true
  | None => false
  end.

(** [Object.getOwnPropertyNames(Object.prototype)]: the names under which
    every object finds a property of its prototype. *)
Definition OBJECT_PROTOTYPE : list string :=
  ["constructor"; "__defineGetter__"; "__defineSetter__"; "hasOwnProperty";
   "__lookupGetter__"; "__lookupSetter__"; "isPrototypeOf";
   "propertyIsEnumerable"; "toString"; "valueOf"; "__proto__";
   "toLocaleString"].

Definition inherited (key : string) : bool :=
  existsb (String.eqb key) OBJECT_PROTOTYPE.

(** What [record[key]] yields: the own property; failing that, for a name of
    [Object.prototype], the property inherited from it, which is a function
    (for [__proto__] the prototype itself), so neither a number nor an
    object with a weight or a maximum; undefined otherwise. *)
Inductive Property (V : Type) : Type :=
| Own (value : V)
| Inherited
| Undefined.

Arguments Inherited {V}.
Arguments Undefined {V}.

(** [record[key]] *)
Definition lookup {V : Type} (record : list (string * V)) (key : string)
  : Property V :=
  match get record key with
  | Some value => Own value
  | None => if inherited key then Inherited else Undefined
  end.

(** [key in record] *)
Definition inRecord {V : Type} (key : string) (record : list (string * V)) : bool :=
  match lookup record key with
  | Own _ | Inherited => true
  | Undefined => false
  end.

(** The number that arithmetic and comparisons take a value for: a function,
    an object and undefined convert to NaN. *)
Definition toNumber (value : Property float) : float :=
  match value with
  | Own x => x
  | Inherited | Undefined => nan
  end.

(** [criterion.max_score] and [criterion.weight] as numbers, for what
    [criteria[criterionName]] yielded: a function and the prototype have no
    such property, and undefined converts to NaN. *)
Definition maxScoreOf (criterion : Property Criterion) : float :=
  match criterion with
  | Own c => max_score c
  | Inherited | Undefined => nan
  end.

Definition weightOfProperty (criterion : Property Criterion) : float :=
  match criterion with
  | Own c => weight c
  | Inherited | Undefined => nan
  end.

(** [if (value)]: an object or a function is truthy, undefined is not. *)
Definition defined {V : Type} (value : Property V) : bool :=
  match value with
  | Own _ | Inherited => true
  | Undefined => false
  end.

Definition keys {V : Type} (record : list (string * V)) : list string :=
  map fst record.

Record JudgingInput : Type := {
  hackathonId : string;
  submissionId : string;
  judgeId : string;
  criteriaScores : CriteriaScores;
  feedback : option string
}.

Record JudgingResult : Type := {
  res_score : Scores.JsObject;
  totalScore : float
}.

Inductive Phase : Type :=
| validation
| rubric_fetch
| score_create.

(** A template literal: its text and the numbers interpolated into it, which
    JavaScript renders by its number-to-string conversion. *)
Inductive Part : Type :=
| Text (s : string)
| Num (x : float).

(** An [Error] named JudgingError. *)
Record JudgingError : Type := {
  phase : Phase;
  message : list Part;
  canRetry : bool;
  err_submissionId : option string
}.

Definition createJudgingError (phase : Phase) (message : list Part)
  (canRetry : bool) (submissionId : option string) : JudgingError :=
  {| phase := phase; message := message; canRetry := canRetry;
     err_submissionId := submissionId |}.

(** The functions the workflow imports from lib/api/rubrics and
    lib/api/scores. *)
Inductive Api : Type -> Type :=
| listRubrics (params : Rubrics.ListRubricsParams)
  : Api (result Thrown (list Rubric))
| createScore (input : Scores.JsObject)
  : Api (result Thrown Scores.JsObject).

Definition throw {C : Type -> Type} {E A : Type} (e : E) : Prog C (result E A) :=
  Ret (Err e).

(** The loop body of [calculateTotalScore] for one entry of the scores. *)
Definition accumulate (criteria : Criteria) (acc : float * float)
  (entry : string * float) : float * float :=
  let (weightedSum, totalWeight) := acc in
  let (criterionName, criterionScore) := entry in
  let criterion := lookup criteria criterionName in
  if defined criterion then
    let normalizedScore := (criterionScore / maxScoreOf criterion)%float in
    ((weightedSum + normalizedScore * weightOfProperty criterion)%float,
     (totalWeight + weightOfProperty criterion)%float)
  else acc.

Definition calculateTotalScore (criteriaScores : CriteriaScores)
  (criteria : Criteria) : float :=
  let (weightedSum, totalWeight) :=
    fold_left (accumulate criteria) criteriaScores (0%float, 0%float) in
  if (totalWeight =? 0)%float then 0%float
  else (weightedSum / totalWeight * 100)%float.

(** The loop over [Object.keys(criteria)]: the error of the first criterion
    that the scores do not hold ([in], so own or inherited) or whose score
    is below 0 or above the maximum. *)
Fixpoint checkCriteria (criteriaScores : CriteriaScores) (submissionId : string)
  (criteria : Criteria) : option JudgingError :=
  match criteria with
  | [] => None
  | (criterionName, criterion) :: rest =>
      if negb (inRecord criterionName criteriaScores) then
        Some (createJudgingError validation
                [Text "Missing score for criterion: "; Text criterionName]
                false (Some submissionId))
      else
        let score := toNumber (lookup criteriaScores criterionName) in
        let maxScore := max_score criterion in
        if (score <? 0)%float || (maxScore <? score)%float then
          Some (createJudgingError validation
                  [Text "Score for "; Text criterionName;
                   Text " must be between 0 and "; Num maxScore]
                  false (Some submissionId))
        else checkCriteria criteriaScores submissionId rest
  end.

Definition feedbackValue (feedback : option string) : Scores.JsValue :=
  match feedback with
  | Some text => Scores.JsString text
  | None => Scores.JsUndefined
  end.

Section WithJSON.

(** [JSON.parse] on the criteria of a rubric: the criteria, or nothing when
    it throws.  [JSON.stringify] on the scores. *)
Variable JSON_parse : string -> option Criteria.
Variable JSON_stringify : CriteriaScores -> string.

(** The object [createScore] is called with. *)
Definition scoreRecord (input : JudgingInput) (totalScore : float)
  : Scores.JsObject :=
  [("submission_id", Scores.JsString (submissionId input));
   ("judge_id", Scores.JsString (judgeId input));
   ("score_json", Scores.JsString (JSON_stringify (criteriaScores input)));
   ("total_score", Scores.JsNumber totalScore);
   ("feedback", feedbackValue (feedback input))].

Definition scoreSubmission (input : JudgingInput)
  : Prog Api (result JudgingError JudgingResult) :=
  if negb (truthy (trim (submissionId input))) then
    throw (createJudgingError validation [Text "Submission ID is required"] false None)
  else if negb (truthy (trim (judgeId input))) then
    throw (createJudgingError validation [Text "Judge ID is required"] false None)
  else if Nat.eqb (List.length (keys (criteriaScores input))) 0 then
    throw (createJudgingError validation
             [Text "At least one criterion score is required"] false None)
  else
    tryCatch
      (andThen
         (await (listRubrics {| Rubrics.lrp_hackathon_id := Some (hackathonId input);
                                Rubrics.lrp_limit := Some 1%Z;
                                Rubrics.lrp_offset := None |}))
         (fun rubrics =>
            match rubrics with
            | [] => throw (ThrownError "No rubric found for this hackathon")
            | rubric :: _ => Ret (Ok rubric)
            end))
      (fun error =>
         throw (createJudgingError rubric_fetch
                  [Text "Failed to fetch rubric: "; Text (messageOf error)]
                  true None))
      (fun rubric =>
         match JSON_parse (criteria_json rubric) with
         | None =>
             throw (createJudgingError validation
                      [Text "Invalid rubric criteria format"] false
                      (Some (submissionId input)))
         | Some criteria =>
             match checkCriteria (criteriaScores input) (submissionId input) criteria with
             | Some e => throw e
             | None =>
                 let totalScore := calculateTotalScore (criteriaScores input) criteria in
                 tryCatch (await (createScore (scoreRecord input totalScore)))
                   (fun error =>
                      throw (createJudgingError score_create
                               [Text "Failed to create score: ";
                                Text (messageOf error)]
                               true (Some (submissionId input))))
                   (fun score =>
                      Ret (Ok {| res_score := score; totalScore := totalScore |}))
             end
         end).

End WithJSON.

Definition validateAllCriteriaScored (criteriaScores : CriteriaScores)
  (criteria : Criteria) : bool :=
  forallb (fun name => existsb (String.eqb name) (keys criteriaScores)) (keys criteria).

End Judging.

(** ** The other tables of the store *)

Module Rows.
Import Floats.

(** Modelled from the spec: the declarations of lib/types are not among the
    sources.  A participant has an identity, a name, an email and an
    optional organization. *)
Record Participant : Type := {
  participant_id : string;
  name : string;
  email : string;
  org : option string
}.

(** Modelled from the spec: a role assignment ties a participant to a
    hackathon with a role, held in the store as the name of the role. *)
Record HackathonParticipant : Type := {
  hp_hackathon_id : string;
  hp_participant_id : string;
  hp_role : string
}.

(** Modelled from the spec: a submission belongs to one project and holds a
    text and artifact links; the fields are those that lib/api/submissions.ts
    writes. *)
Record Submission : Type := {
  submission_id : string;
  project_id : string;
  submitted_at : string;
  submission_text : string;
  artifact_links_json : string
}.

(** Modelled from the spec: a score belongs to one submission and one judge
    and holds the scores by criterion as JSON text, a total and an optional
    feedback; the fields are those that lib/api/scores.ts writes. *)
Record Score : Type := {
  score_id : string;
  sc_submission_id : string;
  judge_participant_id : string;
  score_json : string;
  total_score : float;
  feedback : option string
}.

End Rows.

Module ZeroDBClient.
Import JsString Effects Rows.

(** The tables that the wrappers below read. *)
Inductive Table : Type :=
| participants
| hackathon_participants
| submissions
| scores.

(** The type of the rows that the callers assert for each table. *)
Definition Row (table : Table) : Type :=
  match table with
  | participants => Participant
  | hackathon_participants => HackathonParticipant
  | submissions => Submission
  | scores => Score
  end.

(** Modelled from the spec: the options of a query,
    [{filter?, limit?, offset?}], each of which may be left out. *)
Record QueryOptions : Type := {
  filter : option (list (string * string));
  limit : option Z;
  offset : option Z
}.

(** Modelled from the spec: the calls of the client lib/zerodb, which is not
    among the sources, with the signatures of the external store:
    [zeroDBClient.insertRows<T>(table, rows)] and
    [zeroDBClient.queryRows<T>(table, options)], and [crypto.randomUUID()]. *)
Inductive Db : Type -> Type :=
| insertRows (table : Table) (rows : list (Row table))
  : Db (result Thrown (ZeroDB.Response (Row table)))
| queryRows (table : Table) (options : QueryOptions)
  : Db (result Thrown (ZeroDB.Response (Row table)))
| randomUUID : Db string.

(** [if (value) { filter[key] = value }] for a value that is undefined or a
    string. *)
Definition entry (key : string) (value : option string) : list (string * string) :=
  match value with
  | Some v => if truthy v then [(key, v)] else []
  | None => []
  end.

(** [Object.keys(filter).length > 0 ? filter : undefined] *)
Definition filterOrUndefined (filter : list (string * string))
  : option (list (string * string)) :=
  if Nat.ltb 0 (List.length filter) then Some filter else None.

(** [response.rows || []] *)
Definition rowsOrEmpty {T : Type} (response : ZeroDB.Response T) : list T :=
  match ZeroDB.rows response with
  | Some rs => rs
  | None => []
  end.

(** The test [response.success && response.rows && response.rows.length > 0]
    and, where it holds, [response.rows[0]]. *)
Definition firstRow {T : Type} (response : ZeroDB.Response T) : option T :=
  if ZeroDB.success response then
    match ZeroDB.rows response with
    | Some (row :: _) => Some row
    | _ => None
    end
  else None.

End ZeroDBClient.

(** ** lib/api/participants.ts *)

Module Participants.
Import JsString Effects Rows ZeroDBClient.

Record CreateParticipantInput : Type := {
  cpi_name : string;
  cpi_email : string;
  cpi_org : option string
}.

Inductive Role : Type := BUILDER | JUDGE | MENTOR | ORGANIZER | SPONSOR.

(** The role as the string it is in the source. *)
Definition roleName (role : Role) : string :=
  match role with
  | BUILDER => "BUILDER"
  | JUDGE => "JUDGE"
  | MENTOR => "MENTOR"
  | ORGANIZER => "ORGANIZER"
  | SPONSOR => "SPONSOR"
  end.

Record EnrollParticipantInput : Type := {
  epi_hackathon_id : string;
  epi_participant_id : string;
  epi_role : Role
}.

(** [Omit<EnrollParticipantInput, 'participant_id'>] *)
Record EnrollmentInput : Type := {
  ei_hackathon_id : string;
  ei_role : Role
}.

Record ListHackathonParticipantsParams : Type := {
  lhp_hackathon_id : option string;
  lhp_role : option Role;
  lhp_limit : option Z;
  lhp_offset : option Z
}.

Definition createParticipant (input : CreateParticipantInput)
  : Prog Db (result Thrown Participant) :=
  andThen
    (await (queryRows participants
              {| filter := Some [("email", cpi_email input)];
                 limit := Some 1%Z;
                 offset := None |}))
    (fun existingParticipants =>
       match firstRow existingParticipants with
       | Some existing => Ret (Ok existing)
       | None =>
           Call randomUUID (fun uuid =>
             let participant := {| participant_id := uuid;
                                   name := cpi_name input;
                                   email := cpi_email input;
                                   org := cpi_org input |} in
             andThen (await (insertRows participants [participant]))
               (fun response =>
                  if negb (ZeroDB.success response) then
                    ZeroDB.throw
                      (ThrownError (ZeroDB.errorOr (ZeroDB.error response)
                                      "Failed to create participant"))
                  else Ret (Ok participant)))
       end).

Definition enrollParticipant (input : EnrollParticipantInput)
  : Prog Db (result Thrown HackathonParticipant) :=
  let enrollment := {| hp_hackathon_id := epi_hackathon_id input;
                       hp_participant_id := epi_participant_id input;
                       hp_role := roleName (epi_role input) |} in
  andThen (await (insertRows hackathon_participants [enrollment]))
    (fun response =>
       if negb (ZeroDB.success response) then
         ZeroDB.throw
           (ThrownError (ZeroDB.errorOr (ZeroDB.error response)
                           "Failed to enroll participant"))
       else Ret (Ok enrollment)).

Definition registerAndEnroll (participantInput : CreateParticipantInput)
  (enrollmentInput : EnrollmentInput)
  : Prog Db (result Thrown (Participant * HackathonParticipant)) :=
  andThen (createParticipant participantInput) (fun participant =>
    andThen
      (enrollParticipant
         {| epi_hackathon_id := ei_hackathon_id enrollmentInput;
            epi_participant_id := participant_id participant;
            epi_role := ei_role enrollmentInput |})
      (fun enrollment => Ret (Ok (participant, enrollment)))).

Definition listHackathonParticipants (params : ListHackathonParticipantsParams)
  : Prog Db (result Thrown (list HackathonParticipant)) :=
  let filter :=
    (entry "hackathon_id" (lhp_hackathon_id params)
     ++ entry "role" (option_map roleName (lhp_role params)))%list in
  andThen
    (await (queryRows hackathon_participants
              {| filter := filterOrUndefined filter;
                 limit := Some (ZeroDB.numberOr (lhp_limit params) 100);
                 offset := Some (ZeroDB.numberOr (lhp_offset params) 0) |}))
    (fun response =>
       if negb (ZeroDB.success response) then
         ZeroDB.throw
           (ThrownError (ZeroDB.errorOr (ZeroDB.error response)
                           "Failed to list hackathon participants"))
       else Ret (Ok (rowsOrEmpty response))).

End Participants.

(** ** lib/api/submissions.ts: the queries *)

Module SubmissionsQueries.
Import JsString Effects Rows ZeroDBClient.

Record ListSubmissionsParams : Type := {
  lsp_project_id : option string;
  lsp_hackathon_id : option string;
  lsp_limit : option Z;
  lsp_offset : option Z
}.

Definition listSubmissions (params : ListSubmissionsParams)
  : Prog Db (result Thrown (list Submission)) :=
  let filter :=
    (entry "project_id" (lsp_project_id params)
     ++ entry "hackathon_id" (lsp_hackathon_id params))%list in
  andThen
    (await (queryRows submissions
              {| filter := filterOrUndefined filter;
                 limit := Some (ZeroDB.numberOr (lsp_limit params) 100);
                 offset := Some (ZeroDB.numberOr (lsp_offset params) 0) |}))
    (fun response =>
       if negb (ZeroDB.success response) then
         ZeroDB.throw
           (ThrownError (ZeroDB.errorOr (ZeroDB.error response)
                           "Failed to list submissions"))
       else Ret (Ok (rowsOrEmpty response))).

Definition getSubmissionsByHackathon (hackathonId : string)
  : Prog Db (result Thrown (list Submission)) :=
  listSubmissions
    {| lsp_project_id := None; lsp_hackathon_id := Some hackathonId;
       lsp_limit := None; lsp_offset := None |}.

End SubmissionsQueries.

(** ** lib/workflows/judging.ts: the submissions to judge *)

Module JudgingQueries.
Import JsString Effects Rows ZeroDBClient.

(** [getSubmissionsForJudging], linked with [getSubmissionsByHackathon] of
    lib/api/submissions.ts. *)
Definition getSubmissionsForJudging (hackathonId : string)
  (trackId : option string)
  : Prog Db (result HackathonLifecycle.APIError (list Submission)) :=
  tryCatch (SubmissionsQueries.getSubmissionsByHackathon hackathonId)
    (fun error =>
       ZeroDB.throw
         {| HackathonLifecycle.api_message :=
              "Failed to fetch submissions: " ++ messageOf error;
            HackathonLifecycle.statusCode := 500 |})
    (fun submissions =>
       if negb (HackathonLifecycle.truthyOpt trackId) then Ret (Ok submissions)
       else Ret (Ok submissions)).

End JudgingQueries.

(** ** lib/api/scores.ts: the queries *)

Module ScoresQueries.
Import JsString Effects Rows ZeroDBClient.
Import Floats.

(** [submissionIds.includes(id)] *)
Definition includesId (submissionIds : list string) (id : string) : bool :=
  existsb (String.eqb id) submissionIds.

Definition getScoresByHackathon (hackathonId : string)
  : Prog Db (result Thrown (list Score)) :=
  andThen
    (await (queryRows submissions
              {| filter := Some [("hackathon_id", hackathonId)];
                 limit := None; offset := None |}))
    (fun submissionsResponse =>
       match firstRow submissionsResponse with
       | None => Ret (Ok [])
       | Some _ =>
           let submissionIds := map submission_id (rowsOrEmpty submissionsResponse) in
           andThen
             (await (queryRows scores
                       {| filter := None; limit := Some 1000%Z; offset := None |}))
             (fun response =>
                if negb (ZeroDB.success response) then
                  ZeroDB.throw
                    (ThrownError (ZeroDB.errorOr (ZeroDB.error response)
                                    "Failed to fetch scores"))
                else
                  let allScores := rowsOrEmpty response in
                  Ret (Ok (List.filter
                             (fun s => includesId submissionIds (sc_submission_id s))
                             allScores)))
       end).

End ScoresQueries.

(** ** lib/auth/check-role.ts *)

Module CheckRole.
Import JsString Effects Rows ZeroDBClient.

(** The role as the string it is in the source. *)
Definition roleName (role : RouteProtection.UserRole) : string :=
  match role with
  | RouteProtection.BUILDER => "BUILDER"
  | RouteProtection.ORGANIZER => "ORGANIZER"
  | RouteProtection.JUDGE => "JUDGE"
  | RouteProtection.MENTOR => "MENTOR"
  end.

Section WithValidation.

(** [validateUUID] of lib/validation, which is not among the sources: a
    check of an identifier that returns or throws. *)
Variable E : Type.
Variable validateUUID : string -> string -> result E unit.

(** [!!(response.success && response.rows && response.rows.length > 0)] *)
Definition found {T : Type} (response : ZeroDB.Response T) : bool :=
  match firstRow response with
  | Some _ => true
  | None => false
  end.

(** The functions below catch whatever is thrown, write it to the console,
    which is left out here, and return their negative answer. *)
Definition hasRole (participantId hackathonId : string)
  (role : RouteProtection.UserRole) : Prog Db bool :=
  match bind (validateUUID participantId "participant_id")
             (fun _ => validateUUID hackathonId "hackathon_id") with
  | Err _ => Ret false
  | Ok _ =>
      Call (queryRows hackathon_participants
              {| filter := Some [("hackathon_id", hackathonId);
                                 ("participant_id", participantId);
                                 ("role", roleName role)];
                 limit := Some 1%Z;
                 offset := None |})
           (fun answer =>
              match answer with
              | Ok response => Ret (found response)
              | Err _ => Ret false
              end)
  end.

Definition isOrganizer (participantId hackathonId : string) : Prog Db bool :=
  hasRole participantId hackathonId RouteProtection.ORGANIZER.

Definition isJudge (participantId hackathonId : string) : Prog Db bool :=
  hasRole participantId hackathonId RouteProtection.JUDGE.

Definition isBuilder (participantId hackathonId : string) : Prog Db bool :=
  hasRole participantId hackathonId RouteProtection.BUILDER.

Definition isMentor (participantId hackathonId : string) : Prog Db bool :=
  hasRole participantId hackathonId RouteProtection.MENTOR.

(** The role is returned as the store holds it. *)
Definition getUserRole (participantId hackathonId : string)
  : Prog Db (option string) :=
  match bind (validateUUID participantId "participant_id")
             (fun _ => validateUUID hackathonId "hackathon_id") with
  | Err _ => Ret None
  | Ok _ =>
      Call (queryRows hackathon_participants
              {| filter := Some [("hackathon_id", hackathonId);
                                 ("participant_id", participantId)];
                 limit := Some 1%Z;
                 offset := None |})
           (fun answer =>
              match answer with
              | Ok response => Ret (option_map hp_role (firstRow response))
              | Err _ => Ret None
              end)
  end.

Definition isParticipant (participantId hackathonId : string) : Prog Db bool :=
  match bind (validateUUID participantId "participant_id")
             (fun _ => validateUUID hackathonId "hackathon_id") with
  | Err _ => Ret false
  | Ok _ =>
      Call (queryRows hackathon_participants
              {| filter := Some [("hackathon_id", hackathonId);
                                 ("participant_id", participantId)];
                 limit := Some 1%Z;
                 offset := None |})
           (fun answer =>
              match answer with
              | Ok response => Ret (found response)
              | Err _ => Ret false
              end)
  end.

End WithValidation.

End CheckRole.

(** ** hooks/use-has-role.ts *)

Module UseHasRole.
Import JsString Effects ZeroDBClient.

Section WithValidation.

Variable E : Type.
Variable validateUUID : string -> string -> result E unit.

(** The [queryFn] of [useHasRole]. *)
Definition queryFn (participantId hackathonId : option string)
  (role : RouteProtection.UserRole) : Prog Db bool :=
  match participantId, hackathonId with
  | Some participantId, Some hackathonId =>
      if negb (truthy participantId) || negb (truthy hackathonId) then Ret false
      else
        match role with
        | RouteProtection.ORGANIZER =>
            CheckRole.isOrganizer validateUUID participantId hackathonId
        | RouteProtection.JUDGE =>
            CheckRole.isJudge validateUUID participantId hackathonId
        | RouteProtection.BUILDER =>
            CheckRole.isBuilder validateUUID participantId hackathonId
        | RouteProtection.MENTOR =>
            CheckRole.isMentor validateUUID participantId hackathonId
        end
  | _, _ => Ret false
  end.

End WithValidation.

End UseHasRole.

(** ** components/ProtectedRoute.tsx *)

Module ProtectedRoute.
Import JsString.

(** The properties of the component that decide what it does: the role
    required and the hackathon, each of which may be left out, and the path
    to send an unauthorized user to. *)
Record Props : Type := {
  requiredRole : option RouteProtection.UserRole;
  hackathonId : option string;
  redirectTo : option string
}.

(** What the hooks return at a render: the path, the state of [useAuth] and
    the state of the query of [useHasRole], whose data is undefined or a
    boolean. *)
Record Hooks : Type := {
  pathname : string;
  isAuthenticated : bool;
  authLoading : bool;
  hasRole : option bool;
  roleLoading : bool
}.

(** What the component renders: the loading state (the fallback or the
    spinner), nothing, or its children. *)
Inductive Rendered : Type :=
| loading
| null
| children.

Definition isSome {A : Type} (v : option A) : bool :=
  match v with Some _ => true | None => false end.

(** Truthiness of [hasRole] and of [hackathonId]. *)
Definition holds (v : option bool) : bool :=
  match v with Some b => b | None => false end.

Definition given (v : option string) : bool :=
  match v with Some s => truthy s | None => false end.

Section WithEncoding.

Variable encodeURIComponent : string -> string.

(** The effect: the path it passes to [router.push], if any. *)
Definition effect (props : Props) (hooks : Hooks) : option string :=
  let redirectTo :=
    match redirectTo props with Some path => path | None => "/unauthorized" end in
  if negb (authLoading hooks) && negb (isAuthenticated hooks) then
    Some ("/login?redirect=" ++ encodeURIComponent (pathname hooks))
  else if negb (authLoading hooks) && negb (roleLoading hooks)
          && isSome (requiredRole props) && given (hackathonId props)
  then
    if negb (holds (hasRole hooks)) then Some redirectTo else None
  else None.

End WithEncoding.

Definition render (props : Props) (hooks : Hooks) : Rendered :=
  let isLoading :=
    authLoading hooks || (isSome (requiredRole props) && roleLoading hooks) in
  if isLoading then loading
  else if negb (isAuthenticated hooks) then null
  else if isSome (requiredRole props) && given (hackathonId props)
          && negb (holds (hasRole hooks))
  then null
  else children.

End ProtectedRoute.

(** ** lib/pagination.ts *)

Module Pagination.

(** The sizes, offsets and counts are integers that binary64 holds exactly;
    they are modelled by [Z], the lengths of arrays by [nat]. *)

Definition DEFAULT_PAGE_SIZE : Z := 50.

Definition PAGE_SIZE_OPTIONS : list Z := [25; 50; 100]%Z.

Definition calculateNextOffset (currentOffset pageSize itemsReturned : Z)
  : option Z :=
  if (itemsReturned <? pageSize)%Z then None
  else Some (currentOffset + pageSize)%Z.

Definition hasMorePages (itemsReturned pageSize : Z) : bool :=
  (itemsReturned >=? pageSize)%Z.

Definition getNextPageParam {T : Type} (lastPage : list T)
  (allPages : list (list T)) (pageSize : Z) : option Z :=
  if (Z.of_nat (List.length lastPage) <? pageSize)%Z then None
  else Some (Z.of_nat (List.length allPages) * pageSize)%Z.

(** [pages.flat()] on an array of arrays. *)
Definition flattenPages {T : Type} (pages : option (list (list T))) : list T :=
  match pages with
  | None => []
  | Some pages => concat pages
  end.

Definition getTotalItems {T : Type} (pages : option (list (list T))) : nat :=
  List.length (flattenPages pages).

Record PaginationInfo : Type := {
  startItem : Z;
  endItem : Z;
  totalPages : option Z;
  hasNext : bool;
  hasPrevious : bool
}.

(** [Math.ceil(a / b)] for integers [a] and [b], [b] not 0 (for a page size
    of 0 JavaScript yields an infinity or NaN, which [Z] does not hold). *)
Definition ceilDiv (a b : Z) : Z := (- ((- a) / b))%Z.

Definition getPaginationInfo (currentPage pageSize : Z) (totalItems : option Z)
  : PaginationInfo :=
  let startItem := (currentPage * pageSize + 1)%Z in
  let endItem :=
    match totalItems with
    | Some totalItems => Z.min ((currentPage + 1) * pageSize) totalItems
    | None => ((currentPage + 1) * pageSize)%Z
    end in
  let totalPages := option_map (fun totalItems => ceilDiv totalItems pageSize)
                               totalItems in
  let hasNext :=
    match totalItems with
    | Some totalItems => (endItem <? totalItems)%Z
    | None => true
    end in
  let hasPrevious := (currentPage >? 0)%Z in
  {| startItem := startItem; endItem := endItem; totalPages := totalPages;
     hasNext := hasNext; hasPrevious := hasPrevious |}.

Record PaginationParams : Type := {
  limit : Z;
  offset : Z
}.

Definition createPaginationParams (pageSize : Z) (pageParam : option Z)
  : PaginationParams :=
  {| limit := pageSize;
     offset := match pageParam with Some p => p | None => 0%Z end |}.

End Pagination.

(** ** hooks/use-participants.ts *)

Module UseParticipants.
Import Effects Rows ZeroDBClient Participants.

(** The [queryFn] of [useInfiniteParticipantsByHackathon], whose [pageParam]
    is undefined for the first page and else what [getNextPageParam]
    returned. *)
Definition infiniteQueryFn (hackathonId : string) (pageSize : Z)
  (pageParam : option Z) : Prog Db (result Thrown (list HackathonParticipant)) :=
  let pagination := Pagination.createPaginationParams pageSize pageParam in
  listHackathonParticipants
    {| lhp_hackathon_id := Some hackathonId;
       lhp_role := None;
       lhp_limit := Some (Pagination.limit pagination);
       lhp_offset := Some (Pagination.offset pagination) |}.

(** The option [getNextPageParam] of that query. *)
Definition nextPageParam (pageSize : Z) (lastPage : list HackathonParticipant)
  (allPages : list (list HackathonParticipant)) : option Z :=
  Pagination.getNextPageParam lastPage allPages pageSize.

End UseParticipants.

(** ** The provider of the query client (QueryProvider) *)

Module QueryProvider.

(** What the retry function reads of an error: [error.statusCode] and
    [error.response?.status], each undefined or an integer. *)
Record QueryError : Type := {
  statusCode : option Z;
  response_status : option Z
}.

(** [a || b] on numbers that may be undefined. *)
Definition orElse (a b : option Z) : option Z :=
  match a with
  | Some v => if Z.eqb v 0 then b else a
  | None => b
  end.

(** The option [retry] of the queries. *)
Definition retry (failureCount : Z) (error : QueryError) : bool :=
  let statusCode := orElse (statusCode error) (response_status error) in
  if match statusCode with
     | Some code => negb (Z.eqb code 0) && ((code >=? 400)%Z && (code <? 500)%Z)
     | None => false
     end
  then false
  else (failureCount <? 3)%Z.

(** The option [retryDelay]: [Math.min(1000 * 2 ** attemptIndex, 10000)] for
    an attempt index that is a natural number. *)
Definition retryDelay (attemptIndex : Z) : Z :=
  Z.min (1000 * 2 ^ attemptIndex) 10000.

End QueryProvider.

(** * Properties *)

(** ** Facts about strings *)

Module StringFacts.
Import JsString.

Lemma append_nil_r (s : string) : s ++ "" = s.
Proof. induction s as [|c s IH]; simpl; [reflexivity | now rewrite IH]. Qed.

Lemma append_assoc (s t u : string) : (s ++ t) ++ u = s ++ (t ++ u).
Proof. induction s as [|c s IH]; simpl; [reflexivity | now rewrite IH]. Qed.

Lemma append_eq_nil (s t : string) : s ++ t = "" -> s = "" /\ t = "".
Proof. destruct s; simpl; [auto | discriminate]. Qed.

Lemma append_inv_head (p s t : string) : p ++ s = p ++ t -> s = t.
Proof.
  induction p as [|c p IH]; simpl; intros H; [assumption|].
  injection H as H. auto.
Qed.

Lemma length_append (s t : string) :
  String.length (s ++ t) = String.length s + String.length t.
Proof. induction s as [|c s IH]; simpl; [reflexivity | now rewrite IH]. Qed.

Lemma startsWith_append (pre rest : string) : startsWith (pre ++ rest) pre = true.
Proof.
  induction pre as [|c pre IH]; simpl; [reflexivity|].
  now rewrite Ascii.eqb_refl, IH.
Qed.

Lemma startsWith_iff (s pre : string) :
  startsWith s pre = true <-> exists rest, s = pre ++ rest.
Proof.
  split.
  - revert s. induction pre as [|c pre IH]; intros s H; simpl in *.
    + now exists s.
    + destruct s as [|d s]; [discriminate|].
      apply andb_true_iff in H as [Hc Hs].
      apply Ascii.eqb_eq in Hc. subst d.
      destruct (IH _ Hs) as [rest ->]. now exists rest.
  - intros [rest ->]. apply startsWith_append.
Qed.

Lemma startsWith_trans (s p q : string) :
  startsWith s p = true -> startsWith p q = true -> startsWith s q = true.
Proof.
  rewrite !startsWith_iff. intros [r1 ->] [r2 ->].
  exists (r2 ++ r1). apply append_assoc.
Qed.

Lemma skipn_append (pre rest : string) : skipn (String.length pre) (pre ++ rest) = rest.
Proof. induction pre as [|c pre IH]; simpl; auto. Qed.

Lemma firstn_append (pre rest : string) : firstn (String.length pre) (pre ++ rest) = pre.
Proof. induction pre as [|c pre IH]; simpl; [reflexivity | now rewrite IH]. Qed.

Lemma lacks_append (c : ascii) (s t : string) :
  lacks c (s ++ t) = lacks c s && lacks c t.
Proof.
  induction s as [|d s IH]; simpl; [reflexivity|].
  now rewrite IH, andb_assoc.
Qed.

(** A string is cut at its first occurrence of [c] in one way only. *)
Lemma first_cut_unique (c : ascii) (a b x y : string) :
  lacks c a = true -> lacks c b = true ->
  a ++ String c x = b ++ String c y -> a = b /\ x = y.
Proof.
  revert b. induction a as [|d a IH]; intros [|e b] Ha Hb H; simpl in *.
  - injection H as H. auto.
  - injection H as H1 H2. subst e.
    now rewrite Ascii.eqb_refl in Hb.
  - injection H as H1 H2. subst d.
    now rewrite Ascii.eqb_refl in Ha.
  - injection H as H1 H2. subst e.
    apply andb_true_iff in Ha as [_ Ha]. apply andb_true_iff in Hb as [_ Hb].
    destruct (IH b Ha Hb H2) as [-> ->]. auto.
Qed.

Lemma includes_startsWith (s sub : string) :
  startsWith s sub = true -> includes s sub = true.
Proof. intros H. destruct s; simpl; now rewrite H. Qed.

Lemma includes_append (a b sub : string) : includes (a ++ sub ++ b) sub = true.
Proof.
  induction a as [|c a IH]; simpl.
  - apply includes_startsWith, startsWith_append.
  - rewrite IH. apply orb_true_r.
Qed.

Lemma includes_char_lacks (c : ascii) (s : string) :
  includes s (String c "") = negb (lacks c s).
Proof.
  induction s as [|d s IH]; simpl; [reflexivity|].
  rewrite IH, andb_true_r. now destruct (Ascii.eqb d c), (lacks c s).
Qed.

Lemma clamp_inside (a b : string) :
  clamp (a ++ b) (Z.of_nat (String.length a)) = String.length a.
Proof.
  unfold clamp. rewrite Nat2Z.id, length_append. apply Nat.min_l. lia.
Qed.

Lemma substringFrom_append (a b : string) :
  substringFrom (a ++ b) (Z.of_nat (String.length a)) = b.
Proof. unfold substringFrom. now rewrite clamp_inside, skipn_append. Qed.

Lemma substringFrom_cut (c : ascii) (a b : string) :
  substringFrom (a ++ String c b) (Z.of_nat (String.length a) + 1) = b.
Proof.
  replace (a ++ String c b) with ((a ++ String c "") ++ b)
    by now rewrite append_assoc.
  replace (Z.of_nat (String.length a) + 1)%Z
    with (Z.of_nat (String.length (a ++ String c ""))).
  - apply substringFrom_append.
  - rewrite length_append. simpl. lia.
Qed.

Lemma substring_prefix (a b : string) :
  substring (a ++ b) 0 (Z.of_nat (String.length a)) = a.
Proof.
  unfold substring. rewrite clamp_inside.
  unfold clamp at 1. cbn [Z.to_nat Nat.min Nat.max].
  rewrite Nat.sub_0_r. cbn [skipn]. apply firstn_append.
Qed.

Lemma indexOf_cut (c : ascii) (a b : string) :
  lacks c a = true ->
  indexOf (a ++ String c b) (String c "") = Z.of_nat (String.length a).
Proof.
  induction a as [|d a IH]; intros H.
  - cbn. now rewrite Ascii.eqb_refl.
  - cbn [lacks] in H. apply andb_true_iff in H as [Hd Ha].
    apply negb_true_iff in Hd.
    cbn [append indexOf startsWith]. rewrite Hd. cbn [andb].
    rewrite (IH Ha).
    destruct (Z.ltb_spec (Z.of_nat (String.length a)) 0); [lia|].
    cbn [String.length]. lia.
Qed.

End StringFacts.

(** ** The derivative matcher decides the language *)

Module RegexFacts.
Import JsString StringFacts Regex.

Lemma nullable_lang (r : regex) : nullable r = true <-> lang r "".
Proof.
  split.
  - induction r; simpl; intros H; try discriminate.
    + constructor.
    + apply andb_true_iff in H as [H1 H2].
      change "" with ("" ++ ""). constructor; auto.
    + apply orb_true_iff in H as [H|H]; [apply L_AltL | apply L_AltR]; auto.
    + constructor.
  - intros H. remember "" as s eqn:Es.
    induction H; simpl; try reflexivity; try discriminate.
    + apply append_eq_nil in Es as [-> ->]. now rewrite IHlang1, IHlang2.
    + now rewrite IHlang.
    + rewrite IHlang by assumption. apply orb_true_r.
Qed.

Lemma deriv_sound (c : ascii) (r : regex) (s : string) :
  lang (deriv c r) s -> lang r (String c s).
Proof.
  revert s. induction r; simpl; intros s H.
  - inversion H.
  - inversion H.
  - destruct (p c) eqn:E; inversion H; subst. now constructor.
  - destruct (nullable r1) eqn:N.
    + inversion H as [| |? ? s1 s2 HA| ? ? ? HA | ? ? ? HA | |]; subst.
      * inversion HA as [| |? ? s1 s2 H1 H2| | | |]; subst.
        change (String c (s1 ++ s2)) with (String c s1 ++ s2).
        constructor; auto.
      * change (String c s) with ("" ++ String c s).
        constructor; [now apply nullable_lang | auto].
    + inversion H as [| |? ? s1 s2 H1 H2| | | |]; subst.
      change (String c (s1 ++ s2)) with (String c s1 ++ s2).
      constructor; auto.
  - inversion H; subst; [apply L_AltL | apply L_AltR]; auto.
  - inversion H as [| |? ? s1 s2 H1 H2| | | |]; subst.
    change (String c (s1 ++ s2)) with (String c s1 ++ s2).
    constructor; auto.
Qed.

Lemma deriv_complete (c : ascii) (r : regex) (s : string) :
  lang r (String c s) -> lang (deriv c r) s.
Proof.
  intros H. remember (String c s) as w eqn:Ew. revert c s Ew.
  induction H; intros c0 s0 Ew; simpl; try discriminate.
  - injection Ew as E1 E2. subst. rewrite H. constructor.
  - destruct s1 as [|d s1]; simpl in Ew.
    + subst s2. apply nullable_lang in H. rewrite H.
      apply L_AltR. now apply IHlang2.
    + injection Ew as E1 E2. subst.
      assert (HC : lang (Cat (deriv c0 r1) r2) (s1 ++ s2))
        by (constructor; [now apply IHlang1 | assumption]).
      destruct (nullable r1); [now apply L_AltL | assumption].
  - apply L_AltL. now apply IHlang.
  - apply L_AltR. now apply IHlang.
  - destruct s1 as [|d s1]; simpl in Ew.
    + now apply IHlang2.
    + injection Ew as E1 E2. subst.
      constructor; [now apply IHlang1 | assumption].
Qed.

Theorem matches_lang (r : regex) (s : string) :
  matches r s = true <-> lang r s.
Proof.
  revert r. induction s as [|c s IH]; intros r; simpl.
  - apply nullable_lang.
  - rewrite IH. split; [apply deriv_sound | apply deriv_complete].
Qed.

Theorem matches_prefix_lang (r : regex) (s : string) :
  matches_prefix r s = true <-> exists p t, s = p ++ t /\ lang r p.
Proof.
  revert r. induction s as [|c s IH]; intros r; simpl.
  - rewrite orb_false_r, nullable_lang. split.
    + intros H. now exists "", "".
    + intros (p & t & E & H). symmetry in E.
      apply append_eq_nil in E as [-> _]. assumption.
  - rewrite orb_true_iff, IH, nullable_lang. split.
    + intros [H | (p & t & -> & H)].
      * now exists "", (String c s).
      * exists (String c p), t. split; [reflexivity | now apply deriv_sound].
    + intros (p & t & E & H). destruct p as [|d p]; simpl in E.
      * now left.
      * injection E as <- ->. right. exists p, t.
        split; [reflexivity | now apply deriv_complete].
Qed.

(** The languages of the building blocks. *)

Lemma lang_Chr (c : ascii) (s : string) : lang (Chr c) s <-> s = String c "".
Proof.
  unfold Chr. split.
  - intros H. inversion H as [|? d E| | | | |]; subst.
    apply Ascii.eqb_eq in E. now subst.
  - intros ->. constructor. apply Ascii.eqb_refl.
Qed.

Lemma lang_Lit (w s : string) : lang (Lit w) s <-> s = w.
Proof.
  revert s. induction w as [|c w IH]; intros s; simpl.
  - split; [intros H; now inversion H | intros ->; constructor].
  - split.
    + intros H. inversion H as [| |? ? s1 s2 H1 H2| | | |]; subst.
      apply lang_Chr in H1. apply IH in H2. now subst.
    + intros ->. change (String c w) with (String c "" ++ w).
      constructor; [now apply lang_Chr | now apply IH].
Qed.

Lemma lang_Star_Class (p : ascii -> bool) (s : string) :
  lang (Star (Class p)) s <-> all p s = true.
Proof.
  split.
  - intros H. remember (Star (Class p)) as r eqn:Er.
    induction H; try discriminate; [reflexivity|].
    injection Er as ->.
    inversion H as [|? c E| | | | |]; subst. simpl.
    rewrite E. now apply IHlang2.
  - induction s as [|c s IH]; simpl; intros H; [constructor|].
    apply andb_true_iff in H as [Hc Hs].
    change (String c s) with (String c "" ++ s).
    constructor; [now constructor | auto].
Qed.

Lemma lang_Plus_Class (p : ascii -> bool) (s : string) :
  lang (Plus (Class p)) s <-> s <> "" /\ all p s = true.
Proof.
  unfold Plus. split.
  - intros H. inversion H as [| |? ? s1 s2 H1 H2| | | |]; subst.
    inversion H1 as [|? c E| | | | |]; subst.
    apply lang_Star_Class in H2. simpl. rewrite E, H2.
    split; [discriminate | reflexivity].
  - intros [Hn H]. destruct s as [|c s]; [congruence|].
    simpl in H. apply andb_true_iff in H as [Hc Hs].
    change (String c s) with (String c "" ++ s).
    constructor; [now constructor | now apply lang_Star_Class].
Qed.

Lemma lang_Repeat_Class (p : ascii -> bool) (n : nat) (s : string) :
  lang (Repeat n (Class p)) s <-> String.length s = n /\ all p s = true.
Proof.
  revert s. induction n as [|n IH]; intros s; simpl.
  - split.
    + intros H. inversion H. auto.
    + intros [H _]. destruct s; [constructor | discriminate].
  - split.
    + intros H. inversion H as [| |? ? s1 s2 H1 H2| | | |]; subst.
      inversion H1 as [|? c E| | | | |]; subst.
      apply IH in H2 as [H2 H3]. simpl. now rewrite E, H2, H3.
    + intros [Hl H]. destruct s as [|c s]; [discriminate|].
      simpl in *. injection Hl as Hl.
      apply andb_true_iff in H as [Hc Hs].
      change (String c s) with (String c "" ++ s).
      constructor; [now constructor | now apply IH].
Qed.

Lemma lang_Cat (r1 r2 : regex) (s : string) :
  lang (Cat r1 r2) s <-> exists s1 s2, s = s1 ++ s2 /\ lang r1 s1 /\ lang r2 s2.
Proof.
  split.
  - intros H. inversion H as [| |? ? s1 s2 H1 H2| | | |]; subst.
    now exists s1, s2.
  - intros (s1 & s2 & -> & H1 & H2). now constructor.
Qed.

Lemma all_append (p : ascii -> bool) (s t : string) :
  all p (s ++ t) = all p s && all p t.
Proof.
  induction s as [|c s IH]; simpl; [reflexivity|].
  now rewrite IH, andb_assoc.
Qed.

Lemma all_lacks (c : ascii) (s : string) :
  all (fun d => negb (Ascii.eqb d c)) s = lacks c s.
Proof. induction s as [|d s IH]; simpl; [reflexivity | now rewrite IH]. Qed.

End RegexFacts.

(** ** The route matrix *)

Module RouteProtectionFacts.
Import JsString StringFacts Regex RegexFacts RouteProtection.

(** The regular expression of a hackathon section accepts exactly the paths
    of the route pattern. *)
Lemma hackathonRoute_spec (segment pathname : string) :
  matches_prefix (hackathonRoute segment) pathname = true
  <-> route_pattern segment pathname.
Proof.
  unfold hackathonRoute, route_pattern.
  rewrite matches_prefix_lang. split.
  - intros (p & t & -> & H).
    apply lang_Cat in H as (s1 & s2 & -> & H1 & H2).
    apply lang_Lit in H1. subst s1.
    apply lang_Cat in H2 as (id & s3 & -> & H2 & H3).
    apply lang_Plus_Class in H2 as [Hne Hall].
    apply lang_Lit in H3. subst s3.
    exists id, t. split; [|split; [assumption|]].
    + rewrite !append_assoc. reflexivity.
    + unfold notSlash in Hall. now rewrite all_lacks in Hall.
  - intros (id & rest & -> & Hne & Hl).
    exists ("/hackathons/" ++ id ++ "/" ++ segment), rest. split.
    + rewrite !append_assoc. reflexivity.
    + apply lang_Cat. exists "/hackathons/", (id ++ "/" ++ segment).
      split; [reflexivity|]. split; [now apply lang_Lit|].
      apply lang_Cat. exists id, ("/" ++ segment).
      split; [reflexivity|]. split; [|now apply lang_Lit].
      apply lang_Plus_Class. split; [assumption|].
      unfold notSlash. now rewrite all_lacks.
Qed.

(** Two sections matched by one path agree as far as both reach. *)
Lemma route_pattern_agree (a b pathname : string) :
  route_pattern a pathname -> route_pattern b pathname ->
  exists r1 r2, a ++ r1 = b ++ r2.
Proof.
  intros (i1 & r1 & -> & _ & L1) (i2 & r2 & E & _ & L2).
  apply append_inv_head in E.
  change (i1 ++ String "/" (a ++ r1) = i2 ++ String "/" (b ++ r2)) in E.
  apply first_cut_unique in E as [_ E]; try assumption.
  now exists r1, r2.
Qed.

Lemma startsWith_agree (s a b : string) :
  startsWith s a = true -> startsWith s b = true ->
  exists r1 r2, a ++ r1 = b ++ r2.
Proof.
  rewrite !startsWith_iff. intros [r1 ->] [r2 E]. now exists r1, r2.
Qed.

Lemma hackathonRoute_false (a b pathname : string) :
  route_pattern a pathname ->
  (forall r1 r2, b ++ r1 <> a ++ r2) ->
  matches_prefix (hackathonRoute b) pathname = false.
Proof.
  intros Ha Hd. apply not_true_iff_false. intros Hb.
  apply hackathonRoute_spec in Hb.
  destruct (route_pattern_agree Hb Ha) as (r1 & r2 & E).
  exact (Hd _ _ E).
Qed.

Lemma route_pattern_not_api_settings (a pathname : string) :
  route_pattern a pathname -> startsWith pathname "/api-settings" = false.
Proof.
  intros (id & rest & -> & _). reflexivity.
Qed.

Lemma route_pattern_protected (a pathname : string) :
  route_pattern a pathname -> isProtectedRoute pathname = true.
Proof.
  intros (id & rest & -> & _). reflexivity.
Qed.

Lemma not_route_pattern (a pathname : string) :
  ~ route_pattern a pathname ->
  matches_prefix (hackathonRoute a) pathname = false.
Proof.
  intros H. apply not_true_iff_false. now rewrite hackathonRoute_spec.
Qed.

Ltac other_section :=
  match goal with
  | H : route_pattern ?a ?p |- context [matches_prefix (hackathonRoute ?b) ?p] =>
      rewrite (@hackathonRoute_false a b p H)
        by (intros r1 r2; simpl; discriminate)
  end.

Ltac this_section H :=
  let H' := fresh in
  pose proof H as H'; apply hackathonRoute_spec in H'; rewrite H'; clear H'.

(** C1. The route classifier returns the role sets of the route matrix:
    ORGANIZER alone for the setup, participants and prizes sections and for
    the /api-settings prefix, JUDGE alone for the judging section, BUILDER
    and ORGANIZER for the teams, projects and submissions sections; any other
    path under a protected prefix is protected without a role restriction;
    and the paths of the public list are public. *)
Theorem route_matrix :
  (forall pathname,
      route_pattern "setup" pathname \/ route_pattern "participants" pathname
      \/ route_pattern "prizes" pathname
      \/ startsWith pathname "/api-settings" = true ->
      getRequiredRoles pathname = Some [ORGANIZER])
  /\ (forall pathname,
         route_pattern "judging" pathname ->
         getRequiredRoles pathname = Some [JUDGE])
  /\ (forall pathname,
         route_pattern "teams" pathname \/ route_pattern "projects" pathname
         \/ route_pattern "submissions" pathname ->
         getRequiredRoles pathname = Some [BUILDER; ORGANIZER])
  /\ (forall pathname,
         startsWith pathname "/hackathons" = true
         \/ startsWith pathname "/profile" = true
         \/ startsWith pathname "/settings" = true ->
         ~ role_gated pathname ->
         isProtectedRoute pathname = true /\ getRequiredRoles pathname = None)
  /\ (forall pathname,
         pathname = "/"
         \/ (exists route,
                In route ["/login"; "/signup"; "/features"; "/pricing"; "/docs";
                          "/contact"; "/privacy"; "/terms"; "/public-hackathons"]
                /\ startsWith pathname route = true) ->
         isPublicRoute pathname = true).
Proof.
  repeat split.
  - intros p [H | [H | [H | H]]]; unfold getRequiredRoles.
    + this_section H. reflexivity.
    + this_section H. now rewrite orb_true_r.
    + this_section H. now rewrite !orb_true_r.
    + rewrite H. now rewrite !orb_true_r.
  - intros p H. unfold getRequiredRoles.
    repeat other_section. rewrite (route_pattern_not_api_settings H).
    this_section H. reflexivity.
  - intros p [H | [H | H]]; unfold getRequiredRoles;
      repeat other_section; rewrite (route_pattern_not_api_settings H);
      this_section H; simpl; now rewrite ?orb_true_r.
  - unfold isProtectedRoute, protectedRoutes. cbn [existsb].
    destruct H as [-> | [-> | ->]]; now rewrite ?orb_true_r.
  - assert (Hapi : startsWith pathname "/api-settings" = false).
    { apply not_true_iff_false. intros Hapi.
      destruct H as [H | [H | H]];
        destruct (startsWith_agree _ _ _ H Hapi) as (r1 & r2 & E);
        simpl in E; discriminate. }
    assert (Hn : forall a,
               In a ["setup"; "participants"; "prizes"; "judging";
                     "teams"; "projects"; "submissions"] ->
               matches_prefix (hackathonRoute a) pathname = false).
    { intros a Ha. apply not_route_pattern. intros Hr.
      apply H0. now exists a. }
    unfold getRequiredRoles.
    rewrite !Hn, Hapi by (simpl; tauto). reflexivity.
  - intros p [-> | (route & Hin & Hs)]; [reflexivity|].
    unfold isPublicRoute, publicRoutes. cbn [existsb String.eqb Ascii.eqb Bool.eqb].
    simpl in Hin.
    repeat (destruct Hin as [<- | Hin];
            [rewrite Hs; now rewrite ?orb_true_r|]).
    contradiction.
Qed.

Lemma route_pattern_intro (segment id rest : string) :
  id <> "" -> lacks "/" id = true ->
  route_pattern segment ("/hackathons/" ++ id ++ "/" ++ segment ++ rest).
Proof. intros Hn Hl. now exists id, rest. Qed.

Lemma route_matrix_witness :
  getRequiredRoles "/hackathons/42/prizes" = Some [ORGANIZER]
  /\ getRequiredRoles "/hackathons/42/judging/queue" = Some [JUDGE]
  /\ getRequiredRoles "/hackathons/42/teams" = Some [BUILDER; ORGANIZER]
  /\ (isProtectedRoute "/profile/me" = true /\ getRequiredRoles "/profile/me" = None)
  /\ isPublicRoute "/login" = true.
Proof.
  destruct route_matrix as (H1 & H2 & H3 & H4 & H5).
  split; [|split; [|split; [|split]]].
  - apply H1. right. right. left.
    apply (@route_pattern_intro "prizes" "42" ""); [discriminate | reflexivity].
  - apply H2.
    apply (@route_pattern_intro "judging" "42" "/queue"); [discriminate | reflexivity].
  - apply H3. left.
    apply (@route_pattern_intro "teams" "42" ""); [discriminate | reflexivity].
  - apply H4.
    + right. left. reflexivity.
    + intros (segment & _ & id & rest & E & _). discriminate E.
  - apply H5. right. exists "/login". split; [simpl; auto | reflexivity].
Defined.

(** *** The hackathon id of a path *)

Lemma longest_append (p : ascii -> bool) (a rest : string) :
  all p a = true ->
  (rest = "" \/ exists c r, rest = String c r /\ p c = false) ->
  longest p (a ++ rest) = a.
Proof.
  intros Ha Hrest. induction a as [|d a IH]; cbn [append longest].
  - destruct Hrest as [-> | (c & r & -> & Hc)]; [reflexivity|].
    cbn [longest]. now rewrite Hc.
  - cbn [all] in Ha. apply andb_true_iff in Ha as [Hd Ha].
    now rewrite Hd, IH.
Qed.

Lemma longest_cut (p : ascii -> bool) (s : string) :
  exists rest,
    s = longest p s ++ rest
    /\ all p (longest p s) = true
    /\ (rest = "" \/ exists c r, rest = String c r /\ p c = false).
Proof.
  induction s as [|c s (rest & E & Ha & Hr)]; cbn [longest].
  - exists "". auto.
  - destruct (p c) eqn:Hc.
    + exists rest. cbn [append all]. rewrite Hc, Ha, <- E. auto.
    + exists (String c s). repeat split. right. now exists c, s.
Qed.

Lemma notSlash_false (c : ascii) : notSlash c = false -> c = "/"%char.
Proof.
  unfold notSlash. intros H. apply negb_false_iff in H.
  now apply Ascii.eqb_eq.
Qed.

Lemma hackathonPrefix_spec (pathname : string) :
  matches_prefix (Cat (Lit "/hackathons/") (Plus (Class notSlash))) pathname = true
  <-> exists s t, pathname = "/hackathons/" ++ s ++ t
                  /\ s <> "" /\ all notSlash s = true.
Proof.
  rewrite matches_prefix_lang. split.
  - intros (p & t & -> & H).
    apply lang_Cat in H as (s1 & s2 & -> & H1 & H2).
    apply lang_Lit in H1. subst s1.
    apply lang_Plus_Class in H2 as [Hne Hall].
    exists s2, t. rewrite append_assoc. auto.
  - intros (s & t & -> & Hne & Hall).
    exists ("/hackathons/" ++ s), t. split; [now rewrite append_assoc|].
    apply lang_Cat. exists "/hackathons/", s.
    split; [reflexivity|]. split; [now apply lang_Lit|].
    now apply lang_Plus_Class.
Qed.

(** X5. [extractHackathonId] returns an identifier exactly for the paths
    [/hackathons/{id}] and [/hackathons/{id}/...]: the identifier is the
    segment after [/hackathons/], not empty and free of [/]; every other path
    yields null. *)
Theorem extractHackathonId_spec (pathname id : string) :
  extractHackathonId pathname = Some id
  <-> id <> "" /\ lacks "/" id = true
      /\ (pathname = "/hackathons/" ++ id
          \/ exists rest, pathname = "/hackathons/" ++ id ++ "/" ++ rest).
Proof.
  unfold extractHackathonId. split.
  - destruct (matches_prefix _ pathname) eqn:M; [|discriminate].
    apply hackathonPrefix_spec in M as (s & t & -> & Hne & Hall).
    rewrite skipn_append. intros H. injection H as <-.
    destruct (longest_cut notSlash (s ++ t)) as (rest & E & Ha & Hr).
    assert (Hn : longest notSlash (s ++ t) <> "").
    { destruct s as [|c s]; [congruence|].
      cbn [all] in Hall. apply andb_true_iff in Hall as [Hc _].
      cbn [append longest]. rewrite Hc. discriminate. }
    remember (longest notSlash (s ++ t)) as found eqn:Ef.
    rewrite E. split; [assumption|]. split.
    + unfold notSlash in Ha. now rewrite all_lacks in Ha.
    + destruct Hr as [-> | (c & r & -> & Hc)].
      * left. now rewrite append_nil_r.
      * right. exists r. now rewrite (notSlash_false _ Hc).
  - intros (Hne & Hl & Hp).
    assert (Hall : all notSlash id = true)
      by (unfold notSlash; now rewrite all_lacks).
    assert (E : exists t, pathname = "/hackathons/" ++ id ++ t
                          /\ (t = "" \/ exists c r, t = String c r
                                                    /\ notSlash c = false)).
    { destruct Hp as [-> | [rest ->]].
      - exists "". rewrite append_nil_r. auto.
      - exists ("/" ++ rest). split; [reflexivity|].
        right. now exists "/"%char, rest. }
    destruct E as (t & -> & Ht).
    rewrite (proj2 (hackathonPrefix_spec _)) by (exists id, t; auto).
    rewrite skipn_append. now rewrite longest_append.
Qed.

(** *** Who is granted which path *)

(** The paths of the organizer rules, of the judge rule and of the rules
    shared by builders and organizers. *)
Definition organizerOnly (pathname : string) : Prop :=
  route_pattern "setup" pathname \/ route_pattern "participants" pathname
  \/ route_pattern "prizes" pathname
  \/ startsWith pathname "/api-settings" = true.

Definition judgeOnly (pathname : string) : Prop :=
  route_pattern "judging" pathname.

Definition shared (pathname : string) : Prop :=
  route_pattern "teams" pathname \/ route_pattern "projects" pathname
  \/ route_pattern "submissions" pathname.

Lemma organizerOnly_roles (p : string) :
  organizerOnly p -> getRequiredRoles p = Some [ORGANIZER].
Proof.
  intros [H | [H | [H | H]]]; unfold getRequiredRoles.
  - this_section H. reflexivity.
  - this_section H. now rewrite orb_true_r.
  - this_section H. now rewrite !orb_true_r.
  - rewrite H. now rewrite !orb_true_r.
Qed.

Lemma judgeOnly_roles (p : string) :
  judgeOnly p -> getRequiredRoles p = Some [JUDGE].
Proof.
  unfold judgeOnly. intros H. unfold getRequiredRoles.
  repeat other_section. rewrite (route_pattern_not_api_settings H).
  this_section H. reflexivity.
Qed.

Lemma shared_roles (p : string) :
  shared p -> getRequiredRoles p = Some [BUILDER; ORGANIZER].
Proof.
  intros [H | [H | H]]; unfold getRequiredRoles;
    repeat other_section; rewrite (route_pattern_not_api_settings H);
    this_section H; simpl; now rewrite ?orb_true_r.
Qed.

(** The classifier returns a role set only for the paths of its rules. *)
Lemma getRequiredRoles_cases (p : string) :
  (organizerOnly p /\ getRequiredRoles p = Some [ORGANIZER])
  \/ (judgeOnly p /\ getRequiredRoles p = Some [JUDGE])
  \/ (shared p /\ getRequiredRoles p = Some [BUILDER; ORGANIZER])
  \/ (~ organizerOnly p /\ ~ judgeOnly p /\ ~ shared p
      /\ getRequiredRoles p = None).
Proof.
  assert (D : forall a, route_pattern a p \/ ~ route_pattern a p).
  { intros a. rewrite <- hackathonRoute_spec.
    destruct (matches_prefix (hackathonRoute a) p); [left | right]; congruence. }
  destruct (D "setup") as [H1 | N1];
    [left; split; [|apply organizerOnly_roles]; unfold organizerOnly; tauto|].
  destruct (D "participants") as [H2 | N2];
    [left; split; [|apply organizerOnly_roles]; unfold organizerOnly; tauto|].
  destruct (D "prizes") as [H3 | N3];
    [left; split; [|apply organizerOnly_roles]; unfold organizerOnly; tauto|].
  destruct (startsWith p "/api-settings") eqn:H4;
    [left; split; [|apply organizerOnly_roles]; unfold organizerOnly; tauto|].
  destruct (D "judging") as [H5 | N5];
    [right; left; split; [|apply judgeOnly_roles]; assumption|].
  destruct (D "teams") as [H6 | N6];
    [right; right; left; split; [|apply shared_roles]; unfold shared; tauto|].
  destruct (D "projects") as [H7 | N7];
    [right; right; left; split; [|apply shared_roles]; unfold shared; tauto|].
  destruct (D "submissions") as [H8 | N8];
    [right; right; left; split; [|apply shared_roles]; unfold shared; tauto|].
  right. right. right.
  split; [unfold organizerOnly; intuition congruence|].
  split; [assumption|].
  split; [unfold shared; tauto|].
  unfold getRequiredRoles.
  rewrite !not_route_pattern, H4 by assumption. reflexivity.
Qed.

(** X6. A path with a role requirement either lies under /api-settings,
    which only an organizer may see and which names no hackathon
    ([extractHackathonId] returns null), or is a section of a hackathon whose
    identifier [extractHackathonId] returns. *)
Theorem required_roles_name_hackathon (pathname : string) (roles : list UserRole) :
  getRequiredRoles pathname = Some roles ->
  (startsWith pathname "/api-settings" = true
   /\ roles = [ORGANIZER] /\ extractHackathonId pathname = None)
  \/ (exists id,
         extractHackathonId pathname = Some id
         /\ startsWith pathname ("/hackathons/" ++ id ++ "/") = true).
Proof.
  intros H.
  assert (R : forall a, route_pattern a pathname ->
                exists id, extractHackathonId pathname = Some id
                           /\ startsWith pathname ("/hackathons/" ++ id ++ "/") = true).
  { intros a (id & rest & -> & Hne & Hl). exists id. split.
    - apply extractHackathonId_spec. split; [assumption|]. split; [assumption|].
      right. now exists (a ++ rest).
    - apply startsWith_iff. exists (a ++ rest).
      now rewrite !append_assoc. }
  destruct (getRequiredRoles_cases pathname)
    as [[Ho E] | [[Hj E] | [[Hs E] | (_ & _ & _ & E)]]];
    rewrite E in H; [| | |discriminate].
  - destruct Ho as [Ho | [Ho | [Ho | Ho]]]; eauto.
    left. split; [assumption|]. split; [congruence|].
    apply startsWith_iff in Ho as [rest ->]. unfold extractHackathonId.
    destruct (matches_prefix _ ("/api-settings" ++ rest)) eqn:M; [|reflexivity].
    apply hackathonPrefix_spec in M as (s & t & M & _). discriminate M.
  - eauto.
  - destruct Hs as [Hs | [Hs | Hs]]; eauto.
Qed.

Lemma required_roles_name_hackathon_witness :
  exists id,
    extractHackathonId "/hackathons/42/prizes" = Some id
    /\ startsWith "/hackathons/42/prizes" ("/hackathons/" ++ id ++ "/") = true.
Proof.
  destruct (@required_roles_name_hackathon "/hackathons/42/prizes" [ORGANIZER]
              eq_refl) as [(H & _) | H].
  - discriminate H.
  - exact H.
Defined.

(** X7. Who [hasAccess] turns away: an organizer from the judging section
    alone; a judge from the organizer paths and from the sections shared by
    builders and organizers; a builder from the organizer paths and from the
    judging section; a mentor from every path that has a role requirement. *)
Theorem hasAccess_denied (pathname : string) :
  (hasAccess ORGANIZER pathname = false <-> judgeOnly pathname)
  /\ (hasAccess JUDGE pathname = false
      <-> organizerOnly pathname \/ shared pathname)
  /\ (hasAccess BUILDER pathname = false
      <-> organizerOnly pathname \/ judgeOnly pathname)
  /\ (hasAccess MENTOR pathname = false
      <-> organizerOnly pathname \/ judgeOnly pathname \/ shared pathname).
Proof.
  unfold hasAccess.
  destruct (getRequiredRoles_cases pathname)
    as [[Ho E] | [[Hj E] | [[Hs E] | (No & Nj & Ns & E)]]]; rewrite E; cbn.
  - pose proof (organizerOnly_roles Ho) as R.
    repeat split; try tauto; try discriminate; intros H.
    + apply judgeOnly_roles in H. congruence.
  - pose proof (judgeOnly_roles Hj) as R.
    repeat split; try tauto; try discriminate; intros H.
    destruct H as [H | H];
      [apply organizerOnly_roles in H | apply shared_roles in H]; congruence.
  - pose proof (shared_roles Hs) as R.
    repeat split; try tauto; try discriminate; intros H.
    + apply judgeOnly_roles in H. congruence.
    + destruct H as [H | H];
        [apply organizerOnly_roles in H | apply judgeOnly_roles in H]; congruence.
  - repeat split; try discriminate; tauto.
Qed.

End RouteProtectionFacts.

(** ** The edge middleware *)

Module MiddlewareFacts.
Import JsString StringFacts Regex RegexFacts Middleware.

Lemma protected_cases (p : string) :
  isProtectedRoute p = true ->
  exists rest, p = "/hackathons" ++ rest \/ p = "/profile" ++ rest
               \/ p = "/settings" ++ rest.
Proof.
  unfold isProtectedRoute, PROTECTED_ROUTES. cbn [existsb].
  rewrite orb_false_r, !orb_true_iff, !startsWith_iff.
  intros [[r ->] | [[r ->] | [r ->]]]; exists r; auto.
Qed.

Lemma hackathon_section_protected (segment p : string) :
  matches_prefix (RouteProtection.hackathonRoute segment) p = true ->
  isProtectedRoute p = true.
Proof.
  intros H. apply RouteProtectionFacts.hackathonRoute_spec in H.
  destruct H as (id & rest & -> & _). reflexivity.
Qed.

(** Every path the middleware takes for a judge or organizer section of a
    hackathon lies under the protected prefix [/hackathons]. *)
Lemma role_routes_protected (p : string) :
  requiresJudge p = true \/ requiresOrganizerForHackathon p = true ->
  isProtectedRoute p = true.
Proof.
  unfold requiresJudge, requiresOrganizerForHackathon, organizerPatterns.
  cbn [existsb]. rewrite orb_false_r, !orb_true_iff.
  intros [H | [H | [H | H]]]; eapply hackathon_section_protected; eassumption.
Qed.

(** A request without a usable token for a dot-free path under a protected
    prefix is sent to the login page, which gets the path as [redirect]. *)
Lemma middleware_redirects (request : NextRequest) :
  includes (pathname request) "." = false ->
  isProtectedRoute (pathname request) = true ->
  noToken (token request) = true ->
  middleware request = redirect "/login" [("redirect", pathname request)].
Proof.
  intros Hdot Hprot Htok. unfold middleware.
  rewrite Hdot, Htok, Hprot.
  destruct (protected_cases _ Hprot) as [rest [E | [E | E]]];
    rewrite E; reflexivity.
Qed.

(** C2, as the code has it. A request that carries no [auth_token] cookie
    and no [authorization] header, for a path without a dot that lies under a
    protected prefix (/hackathons, /profile, /settings) or that the
    middleware takes for a judge or organizer section of a hackathon, is
    redirected to /login with the query parameter [redirect] set to the
    path. *)
Theorem unauthenticated_redirect (request : NextRequest) :
  includes (pathname request) "." = false ->
  isProtectedRoute (pathname request) = true
  \/ requiresJudge (pathname request) = true
  \/ requiresOrganizerForHackathon (pathname request) = true ->
  cookie_auth_token request = None ->
  header_authorization request = None ->
  middleware request = redirect "/login" [("redirect", pathname request)].
Proof.
  intros Hdot Hroute Hc Hh.
  apply middleware_redirects; [assumption | |].
  - destruct Hroute as [H | H]; [assumption | now apply role_routes_protected].
  - unfold token. now rewrite Hc, Hh.
Qed.

Lemma unauthenticated_redirect_witness :
  middleware {| pathname := "/hackathons/42/judging";
                cookie_auth_token := None;
                header_authorization := None |}
  = redirect "/login" [("redirect", "/hackathons/42/judging")].
Proof.
  apply (@unauthenticated_redirect
           {| pathname := "/hackathons/42/judging";
              cookie_auth_token := None;
              header_authorization := None |});
    [reflexivity | right; left; reflexivity | reflexivity | reflexivity].
Defined.

(** C2 as stated fails: a path under the protected prefix /hackathons, in an
    organizer section, that contains a dot is passed through for a request
    with no cookie and no header. *)
Lemma dotted_path_passes :
  isProtectedRoute "/hackathons/v1.0/setup" = true
  /\ requiresOrganizerForHackathon "/hackathons/v1.0/setup" = true
  /\ middleware {| pathname := "/hackathons/v1.0/setup";
                   cookie_auth_token := None;
                   header_authorization := None |} = next.
Proof. repeat split. Qed.

(** X3. The organizer route /api-settings never reaches the token check: a
    path that starts with /api-settings starts with /api, which the first
    branch of the middleware lets through, whatever the request carries. *)
Lemma api_settings_passes (request : NextRequest) :
  startsWith (pathname request) "/api-settings" = true ->
  requiresOrganizer (pathname request) = true /\ middleware request = next.
Proof.
  intros H. split.
  - unfold requiresOrganizer, ORGANIZER_ROUTES. cbn [existsb]. now rewrite H.
  - unfold middleware.
    rewrite (startsWith_trans _ "/api-settings" "/api" H eq_refl).
    now rewrite orb_true_r.
Qed.

Lemma api_settings_passes_witness :
  requiresOrganizer "/api-settings/keys" = true
  /\ middleware {| pathname := "/api-settings/keys";
                   cookie_auth_token := None;
                   header_authorization := None |} = next.
Proof.
  apply (@api_settings_passes
           {| pathname := "/api-settings/keys";
              cookie_auth_token := None;
              header_authorization := None |}).
  reflexivity.
Defined.

(** *** When the middleware redirects *)

Lemma protected_not_public (p : string) :
  isProtectedRoute p = true -> isPublicRoute p = false.
Proof.
  intros H. destruct (protected_cases _ H) as [rest [-> | [-> | ->]]];
    reflexivity.
Qed.

Lemma organizer_route_bypassed (p : string) :
  requiresOrganizer p = true -> startsWith p "/api" = true.
Proof.
  unfold requiresOrganizer, ORGANIZER_ROUTES. cbn [existsb].
  rewrite orb_false_r. intros H.
  exact (startsWith_trans _ "/api-settings" "/api" H eq_refl).
Qed.

(** X8. The middleware answers with a redirect exactly for the requests
    without a usable token whose path holds no dot and lies under one of the
    prefixes /hackathons, /profile, /settings; the redirect goes to /login
    with the path as [redirect]; every other request is passed on.  The judge
    and organizer patterns and the list of public routes change nothing. *)
Theorem middleware_redirect_iff (request : NextRequest) :
  (middleware request = redirect "/login" [("redirect", pathname request)]
   <-> includes (pathname request) "." = false
       /\ isProtectedRoute (pathname request) = true
       /\ noToken (token request) = true)
  /\ (middleware request = next
      \/ middleware request = redirect "/login" [("redirect", pathname request)]).
Proof.
  split; [split|].
  - unfold middleware.
    destruct (startsWith (pathname request) "/_next"
              || startsWith (pathname request) "/api"
              || startsWith (pathname request) "/static"
              || includes (pathname request) ".") eqn:B; [discriminate|].
    apply orb_false_iff in B as [B Hdot].
    apply orb_false_iff in B as [B _].
    apply orb_false_iff in B as [_ Hapi].
    destruct (isPublicRoute (pathname request)); [discriminate|].
    destruct (noToken (token request)); cbn [andb]; [|discriminate].
    destruct (isProtectedRoute (pathname request)) eqn:P; [auto|].
    destruct (requiresOrganizer (pathname request)) eqn:O.
    { apply organizer_route_bypassed in O. congruence. }
    cbn [orb].
    destruct (requiresJudge (pathname request)
              || requiresOrganizerForHackathon (pathname request)) eqn:R;
      [|discriminate].
    apply orb_true_iff in R. apply role_routes_protected in R. congruence.
  - intros (Hdot & Hprot & Htok). now apply middleware_redirects.
  - unfold middleware.
    repeat match goal with
           | |- context [if ?b then _ else _] => destruct b
           end; auto.
Qed.

(** *** What counts as a token *)

Lemma replace_unfold (s pat repl : string) :
  replace s pat repl
  = if startsWith s pat then repl ++ skipn (String.length pat) s
    else match s with
         | EmptyString => EmptyString
         | String c s' => String c (replace s' pat repl)
         end.
Proof. destruct s; reflexivity. Qed.

(** Removing the first [pat] leaves nothing only of the empty string and of
    [pat] itself. *)
Lemma replace_empty (s pat : string) :
  pat <> "" -> (replace s pat "" = "" <-> s = "" \/ s = pat).
Proof.
  intros Hp. rewrite replace_unfold.
  destruct (startsWith s pat) eqn:E.
  - apply startsWith_iff in E as [rest ->].
    rewrite skipn_append. cbn [append]. split.
    + intros ->. right. apply append_nil_r.
    + intros [H | H].
      * apply append_eq_nil in H as [H _]. contradiction.
      * rewrite <- (append_nil_r pat) in H at 2.
        now apply append_inv_head in H.
  - destruct s as [|c s]; [tauto|].
    split; [discriminate|].
    intros [H | H]; [discriminate|].
    rewrite H in E. rewrite <- (append_nil_r pat) in E at 1.
    now rewrite startsWith_append in E.
Qed.

(** X9. What the middleware takes for a token: a non-empty [auth_token]
    cookie, or else an [authorization] header that is neither empty nor the
    bare text [Bearer ]; the header need not start with [Bearer ].  A request
    with such a token is passed on, whatever its path; the token is not
    looked at. *)
Theorem token_presence (request : NextRequest) :
  (noToken (token request) = false
   <-> (exists v, cookie_auth_token request = Some v /\ v <> "")
       \/ (exists h, header_authorization request = Some h
                     /\ h <> "" /\ h <> "Bearer "))
  /\ (noToken (token request) = false -> middleware request = next).
Proof.
  split.
  - assert (Hh : noToken (option_map (fun h => replace h "Bearer " "")
                                     (header_authorization request)) = false
                 <-> exists h, header_authorization request = Some h
                               /\ h <> "" /\ h <> "Bearer ").
    { destruct (header_authorization request) as [h|]; cbn [option_map noToken].
      - pose proof (@replace_empty h "Bearer " ltac:(discriminate)) as R.
        rewrite negb_false_iff. split.
        + intros T. exists h. split; [reflexivity|].
          destruct (replace h "Bearer " "") eqn:E; [discriminate|].
          split; intros Hx;
            assert (Hr : String a s = "") by (apply R; auto); discriminate Hr.
        + intros (h' & E & H1 & H2). injection E as <-.
          destruct (replace h "Bearer " "") eqn:E; [|reflexivity].
          destruct (proj1 R eq_refl); contradiction.
      - split; [discriminate | intros (h & E & _); discriminate]. }
    unfold token.
    destruct (cookie_auth_token request) as [v|].
    + destruct v as [|c v]; cbn [truthy].
      * rewrite Hh. split; [auto|].
        intros [(v & E & Hv) | H]; [|assumption].
        injection E as <-. contradiction.
      * cbn [noToken truthy negb]. split; [|reflexivity].
        intros _. left. exists (String c v). split; [reflexivity | discriminate].
    + rewrite Hh. split; [auto|].
      intros [(v & E & _) | H]; [discriminate | assumption].
  - intros H. unfold middleware. rewrite H. cbn [andb].
    repeat match goal with
           | |- context [if ?b then _ else _] => destruct b
           end; reflexivity.
Qed.

(** A header of another scheme counts as a token. *)
Example basic_header_passes :
  middleware {| pathname := "/hackathons/42/setup";
                cookie_auth_token := None;
                header_authorization := Some "Basic dXNlcjpwYXNz" |} = next.
Proof. reflexivity. Qed.

End MiddlewareFacts.

(** ** Namespaces and document ids *)

Module NamespaceFacts.
Import JsString StringFacts Regex RegexFacts EmbeddingsNamespace.

(** The characters of a UUID: hexadecimal digits and the dash. *)
Definition uuidChar (c : ascii) : bool := hexDigit c || Ascii.eqb c "-".

(** Every character class of [r] lies within [q]. *)
Fixpoint within (q : ascii -> bool) (r : regex) : Prop :=
  match r with
  | Void | Eps => True
  | Class p => forall c, p c = true -> q c = true
  | Cat a b | Alt a b => within q a /\ within q b
  | Star a => within q a
  end.

Lemma lang_within (q : ascii -> bool) (r : regex) (s : string) :
  lang r s -> within q r -> all q s = true.
Proof.
  induction 1; simpl; intros W; try reflexivity.
  - now rewrite (W _ H).
  - destruct W. rewrite all_append, IHlang1, IHlang2; auto.
  - destruct W. auto.
  - destruct W. auto.
  - rewrite all_append, IHlang1, IHlang2; auto.
Qed.

Lemma all_impl (p q : ascii -> bool) (s : string) :
  (forall c, p c = true -> q c = true) -> all p s = true -> all q s = true.
Proof.
  intros Hpq. induction s as [|c s IH]; simpl; [reflexivity|].
  intros H. apply andb_true_iff in H as [Hc Hs].
  now rewrite (Hpq _ Hc), IH.
Qed.

Lemma UUID_REGEX_within : within uuidChar UUID_REGEX.
Proof.
  unfold UUID_REGEX, uuidChar. simpl.
  repeat split; intros c H; rewrite H; auto using orb_true_r.
Qed.

Lemma uuidChar_not (d : ascii) :
  uuidChar d = false ->
  forall c, uuidChar c = true -> negb (Ascii.eqb c d) = true.
Proof.
  intros Hd c Hc. destruct (Ascii.eqb_spec c d) as [->|]; [congruence | reflexivity].
Qed.

(** A string that matches the UUID pattern has 36 characters, all hexadecimal
    digits or dashes; so it is not empty and holds neither [/] nor [:]. *)
Lemma uuid_chars (s : string) :
  matches UUID_REGEX s = true -> all uuidChar s = true.
Proof.
  intros H. apply matches_lang in H.
  exact (@lang_within uuidChar _ _ H UUID_REGEX_within).
Qed.

Lemma uuid_lacks (d : ascii) (s : string) :
  uuidChar d = false -> matches UUID_REGEX s = true -> lacks d s = true.
Proof.
  intros Hd H. rewrite <- all_lacks.
  exact (@all_impl uuidChar _ s (@uuidChar_not d Hd) (@uuid_chars s H)).
Qed.

Lemma uuid_nonempty (s : string) :
  matches UUID_REGEX s = true -> truthy s = true.
Proof. destruct s; [discriminate | reflexivity]. Qed.

Lemma validateUUIDInternal_ok (value fieldName : string) :
  validateUUIDInternal value fieldName = Ok tt <-> matches UUID_REGEX value = true.
Proof.
  unfold validateUUIDInternal, throw. split.
  - destruct (truthy value); simpl; [|discriminate].
    destruct (matches UUID_REGEX value); simpl; [reflexivity | discriminate].
  - intros H. now rewrite (@uuid_nonempty value H), H.
Qed.

(** [split] at a separator that the first piece lacks. *)
Lemma split_lacks (c : ascii) (a : string) :
  lacks c a = true -> split a c = [a].
Proof.
  induction a as [|d a IH]; simpl; [reflexivity|].
  intros H. apply andb_true_iff in H as [Hd Ha].
  apply negb_true_iff in Hd. now rewrite Hd, IH.
Qed.

Lemma split_cut (c : ascii) (a b : string) :
  lacks c a = true -> split (a ++ String c b) c = a :: split b c.
Proof.
  induction a as [|d a IH]; simpl; intros H.
  - now rewrite Ascii.eqb_refl.
  - apply andb_true_iff in H as [Hd Ha].
    apply negb_true_iff in Hd. now rewrite Hd, IH.
Qed.

Lemma split_namespace (h type : string) :
  lacks "/" h = true -> lacks "/" type = true ->
  split ("hackathons/" ++ h ++ "/" ++ type) "/" = ["hackathons"; h; type].
Proof.
  intros Hh Ht.
  change ("hackathons/" ++ h ++ "/" ++ type)
    with ("hackathons" ++ String "/" (h ++ String "/" type)).
  rewrite split_cut by reflexivity.
  rewrite split_cut by assumption.
  now rewrite split_lacks.
Qed.

Lemma parseNamespace_built (h type : string) :
  matches UUID_REGEX h = true ->
  In type validTypes ->
  parseNamespace ("hackathons/" ++ h ++ "/" ++ type)
  = Ok {| ns_hackathonId := h; ns_type := type |}.
Proof.
  intros Hu Ht.
  assert (Hh : lacks "/" h = true) by (apply uuid_lacks; [reflexivity | assumption]).
  assert (Hl : lacks "/" type = true)
    by (simpl in Ht; destruct Ht as [<- | [<- | [<- | []]]]; reflexivity).
  assert (Hv : existsb (String.eqb type) validTypes = true)
    by (simpl in Ht; destruct Ht as [<- | [<- | [<- | []]]]; reflexivity).
  unfold parseNamespace, validateNamespace.
  rewrite (@split_namespace h type Hh Hl).
  cbn [List.length Nat.eqb negb at_index nth].
  rewrite Hu, Hv. reflexivity.
Qed.

Lemma parseDocumentId_built (kind id : string) :
  matches UUID_REGEX id = true ->
  In kind ["submission"; "project"] ->
  parseDocumentId (kind ++ ":" ++ id) = Ok {| doc_type := kind; doc_id := id |}.
Proof.
  intros Hu Hk.
  assert (Hl : lacks ":" kind = true)
    by (simpl in Hk; destruct Hk as [<- | [<- | []]]; reflexivity).
  assert (Ht : truthy (kind ++ ":" ++ id) = true)
    by (simpl in Hk; destruct Hk as [<- | [<- | []]]; reflexivity).
  assert (Hp : existsb (fun prefix => startsWith (kind ++ ":" ++ id) prefix)
                       validPrefixes = true)
    by (simpl in Hk; destruct Hk as [<- | [<- | []]];
        unfold validPrefixes; cbn [existsb];
        [change ("submission" ++ ":" ++ id) with ("submission:" ++ id)
        |change ("project" ++ ":" ++ id) with ("project:" ++ id)];
        rewrite startsWith_append; now rewrite ?orb_true_r).
  unfold parseDocumentId, validateDocumentId.
  rewrite Ht, Hp. cbn [negb].
  change (kind ++ ":" ++ id) with (kind ++ String ":" id).
  rewrite (@split_cut ":" kind id Hl).
  cbn [at_index nth].
  rewrite substringFrom_cut, Hu. cbn [negb bind].
  rewrite (@indexOf_cut ":" kind id Hl).
  now rewrite substring_prefix, substringFrom_cut.
Qed.

(** C10. Building and parsing are inverse on valid identifiers: for an
    identifier that passes the UUID validation, parsing the namespace that
    [EmbeddingNamespace] builds for it returns the identifier and the type,
    and parsing the document id that [DocumentId] builds for it returns the
    kind and the identifier. *)
Theorem build_parse_roundtrip (id fieldName : string) :
  validateUUID id fieldName = Ok tt ->
  bind (EmbeddingNamespace.submissions id) parseNamespace
    = Ok {| ns_hackathonId := id; ns_type := "submissions" |}
  /\ bind (EmbeddingNamespace.projects id) parseNamespace
    = Ok {| ns_hackathonId := id; ns_type := "projects" |}
  /\ bind (EmbeddingNamespace.judging id) parseNamespace
    = Ok {| ns_hackathonId := id; ns_type := "judging" |}
  /\ bind (DocumentId.submission id) parseDocumentId
    = Ok {| doc_type := "submission"; doc_id := id |}
  /\ bind (DocumentId.project id) parseDocumentId
    = Ok {| doc_type := "project"; doc_id := id |}.
Proof.
  unfold validateUUID. intros H.
  pose proof (proj1 (validateUUIDInternal_ok id fieldName) H) as Hu.
  unfold EmbeddingNamespace.submissions, EmbeddingNamespace.projects,
    EmbeddingNamespace.judging, DocumentId.submission, DocumentId.project.
  rewrite !(proj2 (validateUUIDInternal_ok id _) Hu).
  cbn [bind].
  repeat split.
  - apply (@parseNamespace_built id "submissions"); simpl; auto.
  - apply (@parseNamespace_built id "projects"); simpl; auto.
  - apply (@parseNamespace_built id "judging"); simpl; auto.
  - apply (@parseDocumentId_built "submission" id); simpl; auto.
  - apply (@parseDocumentId_built "project" id); simpl; auto.
Qed.

Lemma build_parse_roundtrip_witness :
  bind (EmbeddingNamespace.submissions "123e4567-e89b-12d3-a456-426614174000")
       parseNamespace
    = Ok {| ns_hackathonId := "123e4567-e89b-12d3-a456-426614174000";
            ns_type := "submissions" |}
  /\ bind (DocumentId.project "123e4567-e89b-12d3-a456-426614174000")
          parseDocumentId
    = Ok {| doc_type := "project";
            doc_id := "123e4567-e89b-12d3-a456-426614174000" |}.
Proof.
  destruct (@build_parse_roundtrip "123e4567-e89b-12d3-a456-426614174000"
              "hackathonId" eq_refl) as (H1 & _ & _ & _ & H5).
  split; assumption.
Defined.

Lemma split_nonempty (s : string) (c : ascii) : split s c <> [].
Proof.
  destruct s as [|d s]; cbn; [discriminate|].
  destruct (Ascii.eqb d c); [discriminate|].
  destruct (split s c); discriminate.
Qed.

Lemma join_cons (x : string) (rest : list string) (sep : string) :
  rest <> [] -> join (x :: rest) sep = x ++ sep ++ join rest sep.
Proof. destruct rest; [congruence | reflexivity]. Qed.

Lemma join_cons_head (d : ascii) (p : string) (ps : list string) (sep : string) :
  join (String d p :: ps) sep = String d (join (p :: ps) sep).
Proof. destruct ps; reflexivity. Qed.

(** Joining the pieces of [split] with the separator gives the string back. *)
Lemma join_split (s : string) (c : ascii) :
  join (split s c) (String c "") = s.
Proof.
  induction s as [|d s IH]; [reflexivity|].
  cbn [split]. destruct (Ascii.eqb_spec d c) as [->|Hn].
  - rewrite join_cons by apply split_nonempty.
    rewrite IH. reflexivity.
  - pose proof (split_nonempty s c) as Hne.
    destruct (split s c) as [|p ps]; [congruence|].
    rewrite join_cons_head. now rewrite IH.
Qed.

Lemma split_pieces_lack (s : string) (c : ascii) :
  Forall (fun piece => lacks c piece = true) (split s c).
Proof.
  induction s as [|d s IH]; cbn [split].
  - constructor; [reflexivity | constructor].
  - destruct (Ascii.eqb d c) eqn:E.
    + constructor; [reflexivity | assumption].
    + destruct (split s c) as [|p ps]; constructor.
      * cbn. now rewrite E.
      * constructor.
      * inversion_clear IH. cbn. now rewrite E.
      * now inversion_clear IH.
Qed.

(** X1. [validateNamespace] accepts exactly the strings
    [hackathons/{hackathon_id}/{type}] whose identifier matches the UUID
    pattern and whose type is one of submissions, projects and judging. *)
Theorem validateNamespace_spec (namespace : string) :
  validateNamespace namespace = Ok tt
  <-> exists hackathonId type,
        namespace = "hackathons/" ++ hackathonId ++ "/" ++ type
        /\ matches UUID_REGEX hackathonId = true
        /\ In type validTypes.
Proof.
  split.
  - unfold validateNamespace, throw.
    destruct (truthy namespace); cbn [negb]; [|discriminate].
    destruct (startsWith namespace "hackathons/") eqn:Hs; cbn [negb]; [|discriminate].
    pose proof (join_split namespace "/") as Hj.
    pose proof (split_pieces_lack namespace "/") as Hl.
    destruct (split namespace "/") as [|a [|b [|c [|d rest]]]];
      cbn [List.length Nat.eqb negb]; try discriminate.
    cbn [at_index nth].
    destruct (matches UUID_REGEX b) eqn:Hu; cbn [negb]; [|discriminate].
    destruct (existsb (String.eqb c) validTypes) eqn:Hv; cbn [negb]; [|discriminate].
    intros _. exists b, c.
    apply existsb_exists in Hv as (t & Hin & Ht).
    apply String.eqb_eq in Ht. subst t.
    split; [|auto].
    cbn [join] in Hj. apply startsWith_iff in Hs as [r Hr].
    inversion_clear Hl as [|? ? Ha _].
    assert (E : a ++ String "/" (b ++ "/" ++ c)
                = "hackathons" ++ String "/" r)
      by (change ("hackathons" ++ String "/" r) with ("hackathons/" ++ r);
          rewrite <- Hr; exact Hj).
    apply first_cut_unique in E as [-> _]; [| assumption | reflexivity].
    now rewrite <- Hj.
  - intros (h & t & -> & Hu & Ht).
    pose proof (@parseNamespace_built h t Hu Ht) as H.
    unfold parseNamespace in H.
    destruct (validateNamespace ("hackathons/" ++ h ++ "/" ++ t)) as [[]|e];
      [reflexivity | discriminate].
Qed.

(** The cases of the test suite. *)
Example validateNamespace_accepts :
  validateNamespace "hackathons/123e4567-e89b-12d3-a456-426614174000/submissions"
  = Ok tt.
Proof. reflexivity. Qed.

Example validateNamespace_rejects_bad_id :
  validateNamespace "hackathons/not-a-uuid/submissions"
  = throw "Invalid hackathon ID in namespace: not-a-uuid".
Proof. reflexivity. Qed.

Example validateNamespace_rejects_bad_type :
  validateNamespace "hackathons/123e4567-e89b-12d3-a456-426614174000/bogus-type"
  = throw "Invalid namespace type: bogus-type. Must be one of: submissions, projects, judging".
Proof. reflexivity. Qed.

(** *** The shape of a UUID *)

(** [n] hexadecimal digits. *)
Definition hexString (n : nat) (s : string) : Prop :=
  String.length s = n /\ all hexDigit s = true.

(** The digits of the class [[0-9a-f]] under the flag [i]. *)
Lemma hexDigit_spec (c : ascii) :
  hexDigit c = true
  <-> In c (list_ascii_of_string "0123456789abcdefABCDEF").
Proof.
  assert (T : forallb
                (fun n =>
                   Bool.eqb (hexDigit (ascii_of_nat n))
                     (existsb (Ascii.eqb (ascii_of_nat n))
                        (list_ascii_of_string "0123456789abcdefABCDEF")))
                (seq 0 256) = true) by (vm_compute; reflexivity).
  rewrite forallb_forall in T.
  specialize (T (nat_of_ascii c)).
  rewrite ascii_nat_embedding in T.
  assert (Hin : In (nat_of_ascii c) (seq 0 256))
    by (apply in_seq; pose proof (nat_ascii_bounded c); lia).
  apply T in Hin. apply Bool.eqb_prop in Hin. rewrite Hin.
  rewrite existsb_exists. split.
  - intros (d & Hd & E). apply Ascii.eqb_eq in E. now subst.
  - intros H. exists c. split; [assumption | apply Ascii.eqb_refl].
Qed.

Lemma UUID_REGEX_shape (s : string) :
  matches UUID_REGEX s = true
  <-> exists a b c d e,
        s = a ++ "-" ++ b ++ "-" ++ c ++ "-" ++ d ++ "-" ++ e
        /\ hexString 8 a /\ hexString 4 b /\ hexString 4 c
        /\ hexString 4 d /\ hexString 12 e.
Proof.
  rewrite matches_lang. unfold UUID_REGEX, hexString. split.
  - intros H.
    apply lang_Cat in H as (a & s1 & -> & Ha & H).
    apply lang_Cat in H as (x1 & s2 & -> & Hx1 & H).
    apply lang_Cat in H as (b & s3 & -> & Hb & H).
    apply lang_Cat in H as (x2 & s4 & -> & Hx2 & H).
    apply lang_Cat in H as (c & s5 & -> & Hc & H).
    apply lang_Cat in H as (x3 & s6 & -> & Hx3 & H).
    apply lang_Cat in H as (d & s7 & -> & Hd & H).
    apply lang_Cat in H as (x4 & e & -> & Hx4 & He).
    apply lang_Chr in Hx1, Hx2, Hx3, Hx4. subst.
    apply lang_Repeat_Class in Ha, Hb, Hc, Hd, He.
    exists a, b, c, d, e. split; [reflexivity | tauto].
  - intros (a & b & c & d & e & -> & Ha & Hb & Hc & Hd & He).
    apply lang_Repeat_Class in Ha, Hb, Hc, Hd, He.
    repeat (constructor; [assumption|];
            change (String "-" ?x) with (String "-" "" ++ x);
            constructor; [now apply lang_Chr|]).
    assumption.
Qed.

(** X10. [validateUUID] accepts exactly the strings of five groups of 8, 4,
    4, 4 and 12 hexadecimal digits, in either case, joined by dashes; no
    digit is tied to a version or variant.  The empty string is refused as
    not being a non-empty string, any other string as not being a valid
    UUID, each message starting with the name of the field. *)
Theorem validateUUID_spec (value fieldName : string) :
  (validateUUID value fieldName = Ok tt
   <-> exists a b c d e,
         value = a ++ "-" ++ b ++ "-" ++ c ++ "-" ++ d ++ "-" ++ e
         /\ hexString 8 a /\ hexString 4 b /\ hexString 4 c
         /\ hexString 4 d /\ hexString 12 e)
  /\ (validateUUID value fieldName = Ok tt
      \/ (value = ""
          /\ validateUUID value fieldName
             = throw (fieldName ++ " must be a non-empty string"))
      \/ (value <> ""
          /\ validateUUID value fieldName
             = throw (fieldName ++ " must be a valid UUID"))).
Proof.
  split.
  - unfold validateUUID. rewrite validateUUIDInternal_ok. apply UUID_REGEX_shape.
  - unfold validateUUID, validateUUIDInternal.
    destruct value as [|c v]; cbn [truthy negb]; [auto|].
    destruct (matches UUID_REGEX (String c v)); cbn [negb]; [auto|].
    right. right. split; [discriminate | reflexivity].
Qed.

(** *** Document ids *)

Lemma validateDocumentId_shape (docId : string) :
  validateDocumentId docId = Ok tt ->
  exists kind id,
    docId = kind ++ ":" ++ id
    /\ In kind ["submission"; "project"]
    /\ matches UUID_REGEX id = true.
Proof.
  unfold validateDocumentId, throw.
  destruct (truthy docId); cbn [negb]; [|discriminate].
  destruct (existsb (fun prefix => startsWith docId prefix) validPrefixes) eqn:Hp;
    cbn [negb]; [|discriminate].
  unfold validPrefixes in Hp. cbn [existsb] in Hp.
  rewrite orb_false_r in Hp. apply orb_true_iff in Hp.
  assert (E : exists kind id,
             docId = kind ++ String ":" id /\ In kind ["submission"; "project"]).
  { destruct Hp as [Hp | Hp]; apply startsWith_iff in Hp as [id ->].
    - exists "submission", id. simpl. auto.
    - exists "project", id. simpl. auto. }
  destruct E as (kind & id & -> & Hk).
  assert (Hl : lacks ":" kind = true)
    by (simpl in Hk; destruct Hk as [<- | [<- | []]]; reflexivity).
  rewrite (@split_cut ":" kind id Hl). cbn [at_index nth].
  rewrite substringFrom_cut.
  destruct (matches UUID_REGEX id) eqn:Hu; cbn [negb]; [|discriminate].
  intros _. now exists kind, id.
Qed.

(** X11. [validateDocumentId] accepts exactly the strings [submission:{id}]
    and [project:{id}] whose identifier matches the UUID pattern. *)
Theorem validateDocumentId_spec (docId : string) :
  validateDocumentId docId = Ok tt
  <-> exists kind id,
        docId = kind ++ ":" ++ id
        /\ In kind ["submission"; "project"]
        /\ matches UUID_REGEX id = true.
Proof.
  split; [apply validateDocumentId_shape|].
  intros (kind & id & -> & Hk & Hu).
  pose proof (@parseDocumentId_built kind id Hu Hk) as H.
  unfold parseDocumentId in H.
  destruct (validateDocumentId (kind ++ ":" ++ id)) as [[]|e];
    [reflexivity | discriminate].
Qed.

(** *** From the parsed parts back to the string *)

Lemma validateNamespace_shape (namespace : string) :
  validateNamespace namespace = Ok tt ->
  exists hackathonId type,
    namespace = "hackathons/" ++ hackathonId ++ "/" ++ type
    /\ matches UUID_REGEX hackathonId = true
    /\ In type validTypes.
Proof.
  unfold validateNamespace, throw.
  destruct (truthy namespace); cbn [negb]; [|discriminate].
  destruct (startsWith namespace "hackathons/") eqn:Hs; cbn [negb]; [|discriminate].
  pose proof (join_split namespace "/") as Hj.
  pose proof (split_pieces_lack namespace "/") as Hl.
  destruct (split namespace "/") as [|a [|b [|c [|d rest]]]];
    cbn [List.length Nat.eqb negb]; try discriminate.
  cbn [at_index nth].
  destruct (matches UUID_REGEX b) eqn:Hu; cbn [negb]; [|discriminate].
  destruct (existsb (String.eqb c) validTypes) eqn:Hv; cbn [negb]; [|discriminate].
  intros _. exists b, c.
  apply existsb_exists in Hv as (t & Hin & Ht).
  apply String.eqb_eq in Ht. subst t.
  split; [|auto].
  cbn [join] in Hj. apply startsWith_iff in Hs as [r Hr].
  inversion_clear Hl as [|? ? Ha _].
  assert (E : a ++ String "/" (b ++ "/" ++ c)
              = "hackathons" ++ String "/" r)
    by (change ("hackathons" ++ String "/" r) with ("hackathons/" ++ r);
        rewrite <- Hr; exact Hj).
  apply first_cut_unique in E as [-> _]; [| assumption | reflexivity].
  now rewrite <- Hj.
Qed.

Lemma parseNamespace_rebuilds (namespace : string) (parsed : ParsedNamespace) :
  parseNamespace namespace = Ok parsed ->
  namespace = "hackathons/" ++ ns_hackathonId parsed ++ "/" ++ ns_type parsed
  /\ validateUUID (ns_hackathonId parsed) "hackathonId" = Ok tt
  /\ ((ns_type parsed = "submissions"
       /\ EmbeddingNamespace.submissions (ns_hackathonId parsed) = Ok namespace)
      \/ (ns_type parsed = "projects"
          /\ EmbeddingNamespace.projects (ns_hackathonId parsed) = Ok namespace)
      \/ (ns_type parsed = "judging"
          /\ EmbeddingNamespace.judging (ns_hackathonId parsed) = Ok namespace)).
Proof.
  intros H.
  assert (Hv : validateNamespace namespace = Ok tt).
  { unfold parseNamespace in H.
    destruct (validateNamespace namespace) as [[]|e]; [reflexivity | discriminate]. }
  destruct (validateNamespace_shape _ Hv) as (h & t & -> & Hu & Ht).
  rewrite (@parseNamespace_built h t Hu Ht) in H. injection H as <-.
  cbn [ns_hackathonId ns_type].
  pose proof (proj2 (validateUUIDInternal_ok h "hackathonId") Hu) as Hok.
  split; [reflexivity|]. split; [exact Hok|].
  unfold EmbeddingNamespace.submissions, EmbeddingNamespace.projects,
    EmbeddingNamespace.judging.
  rewrite Hok. cbn [bind].
  simpl in Ht. destruct Ht as [<- | [<- | [<- | []]]]; auto.
Qed.

Lemma parseDocumentId_rebuilds (docId : string) (parsed : ParsedDocumentId) :
  parseDocumentId docId = Ok parsed ->
  docId = doc_type parsed ++ ":" ++ doc_id parsed
  /\ validateUUID (doc_id parsed) "id" = Ok tt
  /\ ((doc_type parsed = "submission"
       /\ DocumentId.submission (doc_id parsed) = Ok docId)
      \/ (doc_type parsed = "project"
          /\ DocumentId.project (doc_id parsed) = Ok docId)).
Proof.
  intros H.
  assert (Hv : validateDocumentId docId = Ok tt).
  { unfold parseDocumentId in H.
    destruct (validateDocumentId docId) as [[]|e]; [reflexivity | discriminate]. }
  destruct (validateDocumentId_shape _ Hv) as (kind & id & -> & Hk & Hu).
  rewrite (@parseDocumentId_built kind id Hu Hk) in H. injection H as <-.
  cbn [doc_type doc_id].
  pose proof (proj2 (validateUUIDInternal_ok id "id") Hu) as Hok.
  split; [reflexivity|]. split; [exact Hok|].
  unfold DocumentId.submission, DocumentId.project.
  rewrite (proj2 (validateUUIDInternal_ok id "submissionId") Hu).
  rewrite (proj2 (validateUUIDInternal_ok id "projectId") Hu).
  cbn [bind].
  simpl in Hk. destruct Hk as [<- | [<- | []]]; auto.
Qed.

(** X12. Parsing and building are inverse the other way round as well.  A
    namespace that [parseNamespace] accepts is the one that the builder of
    its type makes of the identifier parsed, and a document id that
    [parseDocumentId] accepts is the one that the builder of its kind makes
    of the identifier parsed: the parts returned determine the string, and
    the identifier passes [validateUUID]. *)
Theorem parse_then_build :
  (forall (namespace : string) (parsed : ParsedNamespace),
      parseNamespace namespace = Ok parsed ->
      namespace = "hackathons/" ++ ns_hackathonId parsed ++ "/" ++ ns_type parsed
      /\ validateUUID (ns_hackathonId parsed) "hackathonId" = Ok tt
      /\ ((ns_type parsed = "submissions"
           /\ EmbeddingNamespace.submissions (ns_hackathonId parsed) = Ok namespace)
          \/ (ns_type parsed = "projects"
              /\ EmbeddingNamespace.projects (ns_hackathonId parsed) = Ok namespace)
          \/ (ns_type parsed = "judging"
              /\ EmbeddingNamespace.judging (ns_hackathonId parsed) = Ok namespace)))
  /\ (forall (docId : string) (parsed : ParsedDocumentId),
         parseDocumentId docId = Ok parsed ->
         docId = doc_type parsed ++ ":" ++ doc_id parsed
         /\ validateUUID (doc_id parsed) "id" = Ok tt
         /\ ((doc_type parsed = "submission"
              /\ DocumentId.submission (doc_id parsed) = Ok docId)
             \/ (doc_type parsed = "project"
                 /\ DocumentId.project (doc_id parsed) = Ok docId))).
Proof.
  split; [exact parseNamespace_rebuilds | exact parseDocumentId_rebuilds].
Qed.

Lemma parse_then_build_witness :
  EmbeddingNamespace.judging "123e4567-e89b-12d3-a456-426614174000"
  = Ok "hackathons/123e4567-e89b-12d3-a456-426614174000/judging"
  /\ DocumentId.project "123e4567-e89b-12d3-a456-426614174000"
     = Ok "project:123e4567-e89b-12d3-a456-426614174000".
Proof.
  destruct parse_then_build as [N D].
  destruct (N "hackathons/123e4567-e89b-12d3-a456-426614174000/judging"
              {| ns_hackathonId := "123e4567-e89b-12d3-a456-426614174000";
                 ns_type := "judging" |} eq_refl)
    as (_ & _ & [[E _] | [[E _] | [_ HN]]]); try discriminate E.
  destruct (D "project:123e4567-e89b-12d3-a456-426614174000"
              {| doc_type := "project";
                 doc_id := "123e4567-e89b-12d3-a456-426614174000" |} eq_refl)
    as (_ & _ & [[E _] | [_ HD]]); try discriminate E.
  split; assumption.
Defined.

End NamespaceFacts.

(** ** Running programs *)

Module EffectsFacts.
Import Effects.

Lemma run_pbind {C : Type -> Type} {A B W : Type}
  (world : World C W) (p : Prog C A) (k : A -> Prog C B) (w : W) :
  run world (pbind p k) w =
  let '(a, w1, log1) := run world p w in
  let '(b, w2, log2) := run world (k a) w1 in
  (b, w2, (log1 ++ log2)%list).
Proof.
  revert w. induction p as [a | X c k' IH]; intros w; simpl.
  - destruct (run world (k a) w) as [[b w2] log2]. reflexivity.
  - destruct (world X c w) as [x w1]. rewrite IH.
    destruct (run world (k' x) w1) as [[a w2] log1].
    destruct (run world (k a) w2) as [[b w3] log2]. reflexivity.
Qed.

End EffectsFacts.

(** ** The hackathon lifecycle *)

Module LifecycleFacts.
Import JsString Effects EffectsFacts HackathonLifecycle.

(** The allowed set as the error message shows it. *)
Definition allowedText (s : Status) : string :=
  match s with
  | DRAFT => "LIVE"
  | LIVE => "CLOSED"
  | CLOSED => "none"
  end.

(** C3. The status table allows exactly DRAFT to LIVE and LIVE to CLOSED, and
    nothing from CLOSED.  [transitionHackathonStatus] performs one external
    update, of the new status, for an allowed pair; for any other pair it
    throws an error of status 400 whose message carries the attempted pair
    and the allowed set, the world is untouched and no call is made. *)
Theorem status_transitions :
  (forall currentStatus newStatus,
      canTransitionStatus currentStatus newStatus = true
      <-> (currentStatus = DRAFT /\ newStatus = LIVE)
          \/ (currentStatus = LIVE /\ newStatus = CLOSED))
  /\ getValidTransitions CLOSED = []
  /\ (forall (W : Type) (world : World Api W) (w : W)
             (hackathonId : string) (currentStatus newStatus : Status),
         run world (transitionHackathonStatus hackathonId currentStatus newStatus) w
         = if canTransitionStatus currentStatus newStatus then
             let (answer, w1) := world _ (updateHackathon hackathonId newStatus) w in
             (match answer with
              | Ok updated => Ok updated
              | Err error =>
                  Err {| api_message :=
                           "Failed to transition hackathon status: "
                           ++ messageOf error;
                         statusCode := 500 |}
              end,
              w1,
              [exchange (updateHackathon hackathonId newStatus) answer])
           else
             (Err {| api_message :=
                       "Invalid status transition: " ++ statusName currentStatus
                       ++ " " ++ arrow ++ " " ++ statusName newStatus
                       ++ ". Valid transitions: " ++ allowedText currentStatus;
                     statusCode := 400 |},
              w, [])).
Proof.
  split; [|split].
  - intros [] []; cbn; split; intros H; try discriminate; try reflexivity; auto;
      destruct H as [[H1 H2] | [H1 H2]]; discriminate.
  - reflexivity.
  - intros W world w id c n.
    destruct c, n; cbn; try reflexivity;
      destruct (world _ (updateHackathon id _) w) as [[updated | error] w1];
      reflexivity.
Qed.

(** The exchanges of creating [inputs] one after the other with answers
    [created]. *)
Definition trackExchanges (hackathon_id : string)
  (inputs : list CreateTrackInput) (created : list Track) : list (Exchange Api) :=
  map (fun p => exchange (createTrack (fst p) hackathon_id) (Ok (snd p)))
      (combine inputs created).

Lemma trackExchanges_cons (hid : string) (i : CreateTrackInput)
  (inputs : list CreateTrackInput) (t : Track) (created : list Track) :
  trackExchanges hid (i :: inputs) (t :: created)
  = exchange (createTrack i hid) (Ok t) :: trackExchanges hid inputs created.
Proof. reflexivity. Qed.

(** The loop creates the tracks in order; it returns all of them, or stops at
    the first rejection with those created before it. *)
Lemma run_createTracks (W : Type) (world : World Api W) (hid : string)
  (inputs : list CreateTrackInput) :
  forall (acc : list Track) (w : W),
    let '(res, _, log) := run world (createTracks hid inputs acc) w in
    match res with
    | Ok all =>
        exists new,
          all = (acc ++ new)%list
          /\ List.length new = List.length inputs
          /\ log = trackExchanges hid inputs new
    | Err (error, partial) =>
        exists new failed,
          partial = (acc ++ new)%list
          /\ nth_error inputs (List.length new) = Some failed
          /\ log = (trackExchanges hid (List.firstn (List.length new) inputs) new
                    ++ [exchange (createTrack failed hid) (Err error)])%list
    end.
Proof.
  induction inputs as [|i inputs IH]; intros acc w; cbn [createTracks run].
  - exists []. now rewrite app_nil_r.
  - destruct (world _ (createTrack i hid) w) as [[track | error] w1].
    + specialize (IH (acc ++ [track])%list w1).
      destruct (run world (createTracks hid inputs (acc ++ [track])%list) w1)
        as [[res w2] log].
      destruct res as [all | [error partial]].
      * destruct IH as (new & -> & Hl & ->).
        exists (track :: new). rewrite <- app_assoc. cbn. auto.
      * destruct IH as (new & failed & -> & Hn & ->).
        exists (track :: new), failed. rewrite <- app_assoc. cbn. auto.
    + cbn. exists [], i. now rewrite app_nil_r.
Qed.

(** The input passes the validation of the workflow. *)
Definition validInput (input : HackathonLifecycleInput) : Prop :=
  truthyOpt (option_map trim (chi_name (hackathon input))) = true
  /\ tracks input <> []
  /\ truthyOpt (ri_criteria_json (rubric input)) = true.

(** What a run of the workflow on a valid input amounts to. *)
Definition setupOutcome (input : HackathonLifecycleInput)
  (res : result HackathonLifecycleError HackathonLifecycleResult)
  (log : list (Exchange Api)) : Prop :=
  match res with
  | Ok r =>
      let hid := hackathon_id (res_hackathon r) in
      List.length (res_tracks r) = List.length (tracks input)
      /\ log = (exchange (createHackathon (hackathon input) DRAFT)
                         (Ok (res_hackathon r))
                :: trackExchanges hid (tracks input) (res_tracks r)
                ++ [exchange (createRubric (rubric input) hid) (Ok (res_rubric r))])%list
  | Err e =>
      canRetry e = true /\
      match phase e with
      | validation => False
      | hackathon_create =>
          exists error,
            hackathonId e = None /\ createdTracks e = None
            /\ log = [exchange (createHackathon (hackathon input) DRAFT) (Err error)]
      | tracks_create =>
          exists h created failed error,
            hackathonId e = Some (hackathon_id h)
            /\ createdTracks e = Some created
            /\ nth_error (tracks input) (List.length created) = Some failed
            /\ log = (exchange (createHackathon (hackathon input) DRAFT) (Ok h)
                      :: trackExchanges (hackathon_id h)
                           (List.firstn (List.length created) (tracks input)) created
                      ++ [exchange (createTrack failed (hackathon_id h)) (Err error)])%list
      | rubric_create =>
          exists h created error,
            hackathonId e = Some (hackathon_id h)
            /\ createdTracks e = Some created
            /\ List.length created = List.length (tracks input)
            /\ log = (exchange (createHackathon (hackathon input) DRAFT) (Ok h)
                      :: trackExchanges (hackathon_id h) (tracks input) created
                      ++ [exchange (createRubric (rubric input) (hackathon_id h))
                                   (Err error)])%list
      end
  end.

(** The input fails the validation of the workflow: no name or a blank one,
    no track, or no rubric criteria. *)
Definition emptyInput (input : HackathonLifecycleInput) : Prop :=
  truthyOpt (option_map trim (chi_name (hackathon input))) = false
  \/ tracks input = []
  \/ truthyOpt (ri_criteria_json (rubric input)) = false.

Lemma run_validation_failure (W : Type) (world : World Api W) (w : W)
  (input : HackathonLifecycleInput) :
  emptyInput input ->
  exists message,
    run world (createHackathonWithSetup input) w
    = (Err (createLifecycleError validation message false None None), w, []).
Proof.
  unfold emptyInput, createHackathonWithSetup. intros H.
  destruct (truthyOpt (option_map trim (chi_name (hackathon input)))) eqn:E1;
    cbn [negb]; [|eexists; reflexivity].
  destruct (tracks input) as [|t ts] eqn:E2; cbn [List.length Nat.eqb];
    [eexists; reflexivity|].
  destruct (truthyOpt (ri_criteria_json (rubric input))) eqn:E3;
    cbn [negb]; [|eexists; reflexivity].
  destruct H as [H | [H | H]]; discriminate.
Qed.

Lemma run_valid_input (W : Type) (world : World Api W) (w : W)
  (input : HackathonLifecycleInput) :
  validInput input ->
  let '(res, _, log) := run world (createHackathonWithSetup input) w in
  setupOutcome input res log.
Proof.
  unfold validInput, createHackathonWithSetup. intros (H1 & H2 & H3).
  rewrite H1, H3. cbn [negb].
  destruct (tracks input) as [|t0 ts0] eqn:Et; [congruence|].
  cbn [List.length Nat.eqb]. rewrite <- Et. clear H2.
  cbn [tryCatch await pbind run].
  destruct (world _ (createHackathon (hackathon input) DRAFT) w)
    as [[h | error] w1].
  2:{ cbn. split; [reflexivity|]. now exists error. }
  unfold tryCatch at 1. rewrite run_pbind.
  pose proof (run_createTracks world (hackathon_id h) (tracks input) [] w1) as HT.
  destruct (run world (createTracks (hackathon_id h) (tracks input) []) w1)
    as [[tres w2] tlog].
  destruct tres as [created | [error partial]].
  - destruct HT as (new & -> & Hl & ->). cbn [app run].
    destruct (world _ (createRubric (rubric input) (hackathon_id h)) w2)
      as [[rb | error] w3]; cbn.
    + split; [assumption | reflexivity].
    + split; [reflexivity|]. exists h, new, error. auto.
  - destruct HT as (new & failed & -> & Hn & ->). cbn.
    split; [reflexivity|]. exists h, new, failed, error.
    rewrite app_nil_r. auto.
Qed.

(** C8. [createHackathonWithSetup] with a missing or blank hackathon name,
    no track or no rubric criteria fails in the validation phase, not
    retryable, before any external call.  On any other input it creates the
    hackathon in status DRAFT, then the tracks one after the other, then the
    rubric; a failure after the hackathon was created reports the id of the
    hackathon and the tracks created so far, and no call follows the one
    that failed. *)
Theorem createHackathonWithSetup_spec (W : Type) (world : World Api W) (w : W)
  (input : HackathonLifecycleInput) :
  (emptyInput input ->
   exists message,
     run world (createHackathonWithSetup input) w
     = (Err (createLifecycleError validation message false None None), w, []))
  /\ (validInput input ->
      let '(res, _, log) := run world (createHackathonWithSetup input) w in
      setupOutcome input res log).
Proof.
  split; [apply run_validation_failure | apply run_valid_input].
Qed.

(** The run of the test suite in which the second track is rejected. *)
Definition testInput : HackathonLifecycleInput :=
  {| hackathon := {| chi_name := Some "Test Hackathon";
                     chi_description := "Test Description";
                     chi_start_at := "2025-01-01T00:00:00Z";
                     chi_end_at := "2025-01-31T23:59:59Z" |};
     tracks := [ {| cti_name := "Track 1"; cti_description := "Track 1 Description" |};
                 {| cti_name := "Track 2"; cti_description := "Track 2 Description" |} ];
     rubric := {| ri_title := None; ri_criteria_json := Some "{}" |} |}.

Definition mockHackathon : Hackathon :=
  {| hackathon_id := "hackathon-123"; h_name := "Test Hackathon";
     h_status := DRAFT; h_start_at := "2025-01-01T00:00:00Z";
     h_end_at := "2025-01-31T23:59:59Z" |}.

(** A world that counts the tracks it was asked for and rejects the second. *)
Definition secondTrackFails : World Api nat :=
  fun X c =>
    match c in Api X return nat -> X * nat with
    | createHackathon _ _ => fun n => (Ok mockHackathon, n)
    | updateHackathon _ _ => fun n => (Ok mockHackathon, n)
    | createTrack i hid =>
        fun n =>
          (if Nat.eqb n 0 then
             Ok {| track_id := "track-1"; t_hackathon_id := hid;
                   t_name := cti_name i; t_description := cti_description i |}
           else Err (ThrownError "Track creation failed"),
           S n)
    | createRubric _ hid =>
        fun n => (Ok {| Types.rubric_id := "rubric-123";
                        Types.r_hackathon_id := hid;
                        Types.r_title := "";
                        Types.criteria_json := "{}" |}, n)
    end.

Lemma createHackathonWithSetup_spec_witness :
  (emptyInput {| hackathon := hackathon testInput; tracks := [];
                 rubric := rubric testInput |}
   /\ exists message,
       run secondTrackFails
           (createHackathonWithSetup
              {| hackathon := hackathon testInput; tracks := [];
                 rubric := rubric testInput |}) 0
       = (Err (createLifecycleError validation message false None None), 0, []))
  /\ (validInput testInput
      /\ let '(res, _, log) :=
            run secondTrackFails (createHackathonWithSetup testInput) 0 in
          setupOutcome testInput res log).
Proof.
  split; split.
  - right. left. reflexivity.
  - apply (proj1 (createHackathonWithSetup_spec secondTrackFails 0 _)).
    right. left. reflexivity.
  - repeat split. discriminate.
  - apply (proj2 (createHackathonWithSetup_spec secondTrackFails 0 testInput)).
    repeat split. discriminate.
Defined.

(** What that run yields: the error of the tracks phase with the id of the
    hackathon and the one track created, after three calls. *)
Example second_track_fails :
  run secondTrackFails (createHackathonWithSetup testInput) 0
  = (Err (createLifecycleError tracks_create
            "Failed to create tracks: Track creation failed" true
            (Some "hackathon-123")
            (Some [ {| track_id := "track-1"; t_hackathon_id := "hackathon-123";
                       t_name := "Track 1";
                       t_description := "Track 1 Description" |} ])),
     2,
     [ exchange (createHackathon (hackathon testInput) DRAFT) (Ok mockHackathon);
       exchange (createTrack {| cti_name := "Track 1";
                                cti_description := "Track 1 Description" |}
                             "hackathon-123")
                (Ok {| track_id := "track-1"; t_hackathon_id := "hackathon-123";
                       t_name := "Track 1";
                       t_description := "Track 1 Description" |});
       exchange (createTrack {| cti_name := "Track 2";
                                cti_description := "Track 2 Description" |}
                             "hackathon-123")
                (Err (ThrownError "Track creation failed")) ]).
Proof. reflexivity. Qed.

(** *** Sequences of transitions *)

(** The statuses of [path] are entered one after the other from [from], each
    step being one that [canTransitionStatus] allows. *)
Fixpoint validChain (from : Status) (path : list Status) : bool :=
  match path with
  | [] => true
  | s :: rest => canTransitionStatus from s && validChain s rest
  end.

(** X13. The lifecycle only moves forward: along any sequence of allowed
    transitions no status is entered twice, DRAFT is never entered, there
    are at most two steps, and each step goes to a status that
    [getValidTransitions] lists for the one before. *)
Theorem lifecycle_chains (from : Status) (path : list Status) :
  validChain from path = true ->
  NoDup (from :: path)
  /\ ~ In DRAFT path
  /\ List.length path <= 2
  /\ (forall before s after,
         path = (before ++ s :: after)%list ->
         In s (getValidTransitions (last before from))).
Proof.
  intros H.
  assert (E : path = [] \/ (from = DRAFT /\ path = [LIVE])
              \/ (from = DRAFT /\ path = [LIVE; CLOSED])
              \/ (from = LIVE /\ path = [CLOSED])).
  { destruct path as [|a [|b [|c rest]]]; [auto | | |].
    - destruct from, a; cbn in H; try discriminate; auto.
    - destruct from, a, b; cbn in H; try discriminate; auto.
    - destruct from, a, b, c; cbn in H; discriminate. }
  destruct E as [-> | [[-> ->] | [[-> ->] | [-> ->]]]].
  - repeat split; [repeat constructor; auto | auto | cbn; lia |].
    intros [|x before] s after E; discriminate.
  - repeat split;
      [repeat constructor; cbn; intuition discriminate
      | cbn; intuition discriminate | cbn; lia |].
    intros [|x [|y before]] s after E; try discriminate.
    injection E as <- _. cbn. auto.
  - repeat split;
      [repeat constructor; cbn; intuition discriminate
      | cbn; intuition discriminate | cbn; lia |].
    intros [|x [|y [|z before]]] s after E; try discriminate.
    + injection E as <- _. cbn. auto.
    + injection E as <- <- _. cbn. auto.
  - repeat split;
      [repeat constructor; cbn; intuition discriminate
      | cbn; intuition discriminate | cbn; lia |].
    intros [|x [|y before]] s after E; try discriminate.
    injection E as <- _. cbn. auto.
Qed.

Lemma lifecycle_chains_witness :
  NoDup [DRAFT; LIVE; CLOSED]
  /\ ~ In DRAFT [LIVE; CLOSED]
  /\ List.length [LIVE; CLOSED] <= 2
  /\ (forall before s after,
         [LIVE; CLOSED] = (before ++ s :: after)%list ->
         In s (getValidTransitions (last before DRAFT))).
Proof. exact (@lifecycle_chains DRAFT [LIVE; CLOSED] eq_refl). Defined.

End LifecycleFacts.

(** ** Rubric creation and validation *)

Module RubricsFacts.
Import JsString Effects EffectsFacts ZeroDB Types Rubrics.
Import Floats.

(** A store that accepts every insert and counts them, answers every query
    with the rubrics it was given, and hands out one identifier and one
    date. *)
Definition acceptingStore (rubrics : list Rubric) : World Db nat :=
  fun X c =>
    match c in Db X return nat -> X * nat with
    | insertRows _ _ =>
        fun n => (Ok {| success := true; rows := None; error := None |}, S n)
    | queryRows _ _ =>
        fun n => (Ok {| success := true; rows := Some rubrics; error := None |}, n)
    | randomUUID => fun n => ("9b2f6c1e-5d3a-4e7b-8f10-2a4c6e8b0d12", n)
    | Date_toISOString => fun n => ("2025-12-31T00:00:00.000Z", n)
    end.

Section WithJSON.

Variable JSON_stringify : list RubricCriterion -> string.

(** [createRubric] writes the rubric whatever its criteria are: it draws an
    identifier and inserts the row; nothing is checked before. *)
Lemma createRubric_inserts (W : Type) (world : World Db W) (w : W)
  (input : CreateRubricInput) :
  exists uuid w1 answer w2 res,
    run world (createRubric JSON_stringify input) w
    = (res, w2,
       [exchange randomUUID uuid;
        exchange (insertRows "rubrics"
                    [{| rubric_id := uuid;
                        r_hackathon_id := cri_hackathon_id input;
                        r_title := cri_title input;
                        criteria_json := JSON_stringify (cri_criteria input) |}])
                 answer])
    /\ world _ randomUUID w = (uuid, w1).
Proof.
  unfold createRubric. cbn [run].
  destruct (world _ randomUUID w) as [uuid w1] eqn:E1.
  cbn [andThen tryCatch await pbind run].
  match goal with
  | |- context [world _ (insertRows "rubrics" ?r) w1] =>
      destruct (world _ (insertRows "rubrics" r) w1) as [answer w2] eqn:E2
  end.
  exists uuid, w1, answer, w2.
  destruct answer as [response | e]; cbn.
  - destruct (success response); cbn; eexists; split; reflexivity.
  - eexists; split; reflexivity.
Qed.

Lemma validateEach_truthy (criteria : list RubricCriterion) (m : string) :
  validateEach criteria = Some m -> truthy m = true.
Proof.
  induction criteria as [|c rest IH]; cbn; [discriminate|].
  repeat match goal with
         | |- context [if ?b then _ else _] => destruct b
         end; intros H; try (injection H as <-; reflexivity); auto.
Qed.

Lemma validateCriteria_truthy (criteria : list RubricCriterion) (m : string) :
  validateCriteria criteria = Some m -> truthy m = true.
Proof.
  unfold validateCriteria.
  repeat match goal with
         | |- context [if ?b then _ else _] => destruct b
         end; intros H; try (injection H as <-; reflexivity).
  eapply validateEach_truthy; eassumption.
Qed.

(** X4. The hook validates first: for criteria that [validateCriteria]
    rejects, the mutation throws the message of the violated rule and makes
    no call, so nothing is written. *)
Lemma mutationFn_validates (W : Type) (world : World Db W) (w : W)
  (input : CreateRubricInput) (m : string) :
  validateCriteria (cri_criteria input) = Some m ->
  run world (UseRubrics.mutationFn JSON_stringify input) w
  = (Err (ThrownError m), w, []).
Proof.
  intros H. unfold UseRubrics.mutationFn. rewrite H.
  now rewrite (validateCriteria_truthy _ H).
Qed.

End WithJSON.

Lemma mutationFn_validates_witness :
  run (acceptingStore [])
      (UseRubrics.mutationFn (fun _ => "[]")
         {| cri_hackathon_id := "123e4567-e89b-12d3-a456-426614174000";
            cri_title := "Judging";
            cri_criteria := [] |})
      0
  = (Err (ThrownError "At least one criterion is required"), 0, []).
Proof.
  apply (@mutationFn_validates (fun _ => "[]") nat (acceptingStore []) 0
           {| cri_hackathon_id := "123e4567-e89b-12d3-a456-426614174000";
              cri_title := "Judging";
              cri_criteria := [] |}).
  reflexivity.
Defined.

(** What the criteria satisfy when [validateCriteria] returns null: there is
    one at least, the sum of the weights is not farther than 0.01 from 1,
    and each has a name that is not blank, a weight that is neither at most
    0 nor above 1, and a maximum that is not at most 0. *)
Lemma validateEach_None (criteria : list RubricCriterion) :
  validateEach criteria = None ->
  forall c, In c criteria ->
    truthy (trim (name c)) = true
    /\ (weight c <=? 0)%float = false
    /\ (1 <? weight c)%float = false
    /\ (max_score c <=? 0)%float = false.
Proof.
  induction criteria as [|c0 rest IH]; cbn [validateEach]; [contradiction|].
  destruct (negb (truthy (name c0)) || Nat.eqb (String.length (trim (name c0))) 0)
    eqn:E1; [discriminate|].
  destruct (weight c0 <=? 0)%float eqn:E2; [discriminate|].
  destruct (1 <? weight c0)%float eqn:E3; [discriminate|].
  cbn [orb].
  destruct (max_score c0 <=? 0)%float eqn:E4; [discriminate|].
  intros H c [<- | Hin]; [|auto].
  repeat split; try assumption.
  apply orb_false_iff in E1 as [_ E1].
  destruct (trim (name c0)); [discriminate | reflexivity].
Qed.

Lemma validateCriteria_None (criteria : list RubricCriterion) :
  validateCriteria criteria = None ->
  criteria <> []
  /\ (0.01 <? abs (fold_left (fun sum c => sum + weight c) criteria 0 - 1))%float
     = false
  /\ forall c, In c criteria ->
       truthy (trim (name c)) = true
       /\ (weight c <=? 0)%float = false
       /\ (1 <? weight c)%float = false
       /\ (max_score c <=? 0)%float = false.
Proof.
  unfold validateCriteria.
  destruct criteria as [|c0 rest]; [discriminate|].
  cbn [List.length Nat.eqb].
  match goal with
  | |- context [if ?b then _ else _] => destruct b eqn:E
  end; [discriminate|].
  intros H. split; [discriminate|]. split; [reflexivity|].
  now apply validateEach_None.
Qed.

(** Weights and maxima that are not numbers pass every comparison. *)
Lemma validateCriteria_nan :
  validateCriteria
    [{| criterion_id := "c1"; name := "innovation"; description := "";
        weight := nan; max_score := nan |}]
  = None.
Proof. reflexivity. Qed.

(** C7, where the code departs from it: [createRubric] called with no
    criteria, which [validateCriteria] rejects, writes the rubric to the
    store. *)
Theorem createRubric_unvalidated :
  validateCriteria [] = Some "At least one criterion is required"
  /\ run (acceptingStore [])
         (createRubric (fun _ => "[]")
            {| cri_hackathon_id := "123e4567-e89b-12d3-a456-426614174000";
               cri_title := "Judging";
               cri_criteria := [] |})
         0
     = (Ok {| rubric_id := "9b2f6c1e-5d3a-4e7b-8f10-2a4c6e8b0d12";
              r_hackathon_id := "123e4567-e89b-12d3-a456-426614174000";
              r_title := "Judging";
              criteria_json := "[]" |},
        1,
        [exchange randomUUID "9b2f6c1e-5d3a-4e7b-8f10-2a4c6e8b0d12";
         exchange (insertRows "rubrics"
                     [{| rubric_id := "9b2f6c1e-5d3a-4e7b-8f10-2a4c6e8b0d12";
                         r_hackathon_id := "123e4567-e89b-12d3-a456-426614174000";
                         r_title := "Judging";
                         criteria_json := "[]" |}])
                  (Ok {| success := true; rows := None; error := None |})]).
Proof. split; reflexivity. Qed.

(** *** Listing rubrics *)

(** The options that [listRubrics] passes to the store: a filter on the
    hackathon unless the id is absent or empty, the limit unless it is
    absent or 0, in which case 100, the offset or 0. *)
Definition listOptions (params : ListRubricsParams) : QueryOptions :=
  {| filter := match lrp_hackathon_id params with
               | Some (String c id) => Some [("hackathon_id", String c id)]
               | _ => None
               end;
     limit := match lrp_limit params with
              | Some 0%Z | None => 100%Z
              | Some n => n
              end;
     offset := match lrp_offset params with
               | Some n => n
               | None => 0%Z
               end |}.

(** What becomes of the answer to a query: the rows, none counting as the
    empty list, when the store reports success, else an error with the
    store's message or a default. *)
Definition listed {T : Type} (answer : result Thrown (Response T))
  (fallback : string) : result Thrown (list T) :=
  match answer with
  | Ok response =>
      if success response then
        Ok (match rows response with Some rs => rs | None => [] end)
      else Err (ThrownError (errorOr (error response) fallback))
  | Err e => Err e
  end.

Lemma run_listRubrics (W : Type) (world : World Db W) (w : W)
  (params : ListRubricsParams) :
  run world (listRubrics params) w
  = let query := queryRows "rubrics" (listOptions params) in
    let (answer, w1) := world _ query w in
    (listed answer "Failed to list rubrics", w1, [exchange query answer]).
Proof.
  unfold listRubrics.
  assert (E : {| filter :=
                   if Nat.ltb 0
                        (List.length
                           match lrp_hackathon_id params with
                           | Some id => if truthy id then [("hackathon_id", id)] else []
                           | None => []
                           end)
                   then Some match lrp_hackathon_id params with
                             | Some id =>
                                 if truthy id then [("hackathon_id", id)] else []
                             | None => []
                             end
                   else None;
                 limit := numberOr (lrp_limit params) 100;
                 offset := numberOr (lrp_offset params) 0 |}
              = listOptions params).
  { unfold listOptions, numberOr.
    destruct (lrp_hackathon_id params) as [[|c id]|];
      destruct (lrp_limit params) as [[|l|l]|];
      destruct (lrp_offset params) as [[|o|o]|]; reflexivity. }
  rewrite E. cbn [andThen tryCatch await pbind run].
  destruct (world _ (queryRows "rubrics" (listOptions params)) w)
    as [[response | e] w1]; cbn; [|reflexivity].
  destruct (success response); reflexivity.
Qed.

(** X19. [listRubrics] makes one query of the table rubrics and nothing
    else.  The query filters on the hackathon unless the id is absent or
    empty, in which case it has no filter and the rubrics of every hackathon
    are asked for; its limit is the one given unless that is absent or 0,
    in which case it is 100; its offset is the one given or 0.  The rows
    are returned when the store reports success, else an error is thrown
    with the store's message or [Failed to list rubrics]; a rejection is
    passed on.  [getRubricByHackathon] is that query with limit 1 and
    returns its first row, or null when there is none. *)
Theorem listRubrics_spec (W : Type) (world : World Db W) (w : W) :
  (forall params : ListRubricsParams,
      run world (listRubrics params) w
      = let query := queryRows "rubrics" (listOptions params) in
        let (answer, w1) := world _ query w in
        (listed answer "Failed to list rubrics", w1, [exchange query answer]))
  /\ (forall hackathonId : string,
         run world (getRubricByHackathon hackathonId) w
         = let query :=
             queryRows "rubrics"
               {| filter := if truthy hackathonId
                            then Some [("hackathon_id", hackathonId)] else None;
                  limit := 1; offset := 0 |} in
           let (answer, w1) := world _ query w in
           (match listed answer "Failed to list rubrics" with
            | Ok (rubric :: _) => Ok (Some rubric)
            | Ok [] => Ok None
            | Err e => Err e
            end, w1, [exchange query answer])).
Proof.
  split; [apply run_listRubrics|].
  intros hackathonId. unfold getRubricByHackathon, andThen at 1, tryCatch at 1.
  rewrite run_pbind, run_listRubrics. cbn zeta.
  assert (E : listOptions {| lrp_hackathon_id := Some hackathonId;
                             lrp_limit := Some 1%Z; lrp_offset := None |}
              = {| filter := if truthy hackathonId
                             then Some [("hackathon_id", hackathonId)] else None;
                   limit := 1; offset := 0 |})
    by (destruct hackathonId; reflexivity).
  rewrite E.
  match goal with
  | |- context [world ?X (queryRows ?t ?o) w] =>
      destruct (world X (queryRows t o) w) as [answer w1]
  end.
  destruct (listed answer "Failed to list rubrics") as [[|rubric rest] | e];
    reflexivity.
Qed.

(** *** Weights that are not numbers *)

Lemma add_nan_l (x : float) : (nan + x)%float = nan.
Proof.
  apply Prim2SF_inj. rewrite add_spec.
  change (Prim2SF nan) with S754_nan. reflexivity.
Qed.

Lemma add_nan_r (x : float) : (x + nan)%float = nan.
Proof.
  apply Prim2SF_inj. rewrite add_spec.
  change (Prim2SF nan) with S754_nan.
  destruct (Prim2SF x) as [s|s| |s m e]; reflexivity.
Qed.

Lemma sum_from_nan (criteria : list RubricCriterion) :
  fold_left (fun sum c => (sum + weight c)%float) criteria nan = nan.
Proof.
  induction criteria as [|c rest IH]; cbn [fold_left]; [reflexivity|].
  now rewrite add_nan_l.
Qed.

(** A weight that is not a number makes the sum of the weights not a
    number. *)
Lemma sum_with_nan (criteria : list RubricCriterion) :
  (exists c, In c criteria /\ weight c = nan) ->
  forall start : float,
    fold_left (fun sum c => (sum + weight c)%float) criteria start = nan.
Proof.
  induction criteria as [|c0 rest IH]; intros (c & Hin & Hc) start;
    [contradiction|].
  cbn [fold_left]. destruct Hin as [<- | Hin].
  - rewrite Hc, add_nan_r. apply sum_from_nan.
  - apply IH. eauto.
Qed.

(** X20. A weight that is not a number switches the rule on the sum of the
    weights off: when the weight of some criterion is NaN, [validateCriteria]
    returns what the checks of the criteria one by one return, whatever the
    other weights sum to; and the criterion with that weight passes the
    check of its weight, being neither at most 0 nor above 1. *)
Theorem nan_weight_voids_sum_rule (criteria : list RubricCriterion) :
  (exists c, In c criteria /\ weight c = nan) ->
  validateCriteria criteria = validateEach criteria
  /\ forall c rest,
       weight c = nan ->
       validateEach (c :: rest)
       = if negb (truthy (name c))
            || Nat.eqb (String.length (trim (name c))) 0
         then Some "All criteria must have a name"
         else if (max_score c <=? 0)%float
         then Some "Max score must be greater than 0"
         else validateEach rest.
Proof.
  intros H. split.
  - unfold validateCriteria.
    destruct criteria as [|c0 rest]; [destruct H as (c & [] & _)|].
    cbn [List.length Nat.eqb].
    rewrite (@sum_with_nan (c0 :: rest) H). reflexivity.
  - intros c rest Hc. cbn [validateEach]. rewrite Hc.
    destruct (negb (truthy (name c))
              || Nat.eqb (String.length (trim (name c))) 0); reflexivity.
Qed.

Lemma nan_weight_voids_sum_rule_witness :
  validateCriteria
    [{| criterion_id := "c1"; name := "innovation"; description := "";
        weight := nan; max_score := 10 |};
     {| criterion_id := "c2"; name := "technical"; description := "";
        weight := 0.9; max_score := 10 |};
     {| criterion_id := "c3"; name := "design"; description := "";
        weight := 0.9; max_score := 10 |}]
  = validateEach
      [{| criterion_id := "c1"; name := "innovation"; description := "";
          weight := nan; max_score := 10 |};
       {| criterion_id := "c2"; name := "technical"; description := "";
          weight := 0.9; max_score := 10 |};
       {| criterion_id := "c3"; name := "design"; description := "";
          weight := 0.9; max_score := 10 |}].
Proof.
  refine (proj1 (@nan_weight_voids_sum_rule
                   [{| criterion_id := "c1"; name := "innovation";
                       description := ""; weight := nan; max_score := 10 |};
                    {| criterion_id := "c2"; name := "technical";
                       description := ""; weight := 0.9; max_score := 10 |};
                    {| criterion_id := "c3"; name := "design";
                       description := ""; weight := 0.9; max_score := 10 |}]
                   _)).
  exists {| criterion_id := "c1"; name := "innovation"; description := "";
            weight := nan; max_score := 10 |}.
  split; [left; reflexivity | reflexivity].
Defined.

(** Such a rubric is accepted although its weights do not sum to 1. *)
Example nan_weight_accepted :
  validateCriteria
    [{| criterion_id := "c1"; name := "innovation"; description := "";
        weight := nan; max_score := 10 |};
     {| criterion_id := "c2"; name := "technical"; description := "";
        weight := 0.9; max_score := 10 |};
     {| criterion_id := "c3"; name := "design"; description := "";
        weight := 0.9; max_score := 10 |}]
  = None.
Proof. reflexivity. Qed.

End RubricsFacts.

(** ** Submission namespaces *)

Module SubmissionsFacts.
Import JsString Effects ZeroDB Submissions EmbeddingsNamespace.

(** C9, where the code departs from it: [createSubmission] builds the
    namespace from the hackathon id as it comes and writes it; for an id
    that is no UUID the row written holds a namespace that
    [validateNamespace] rejects. *)
Theorem createSubmission_unvalidated_namespace :
  run (RubricsFacts.acceptingStore [])
      (createSubmission (fun _ => "[]")
         {| csi_project_id := "b2c3d4e5-f6a7-4819-a0b1-c2d3e4f5a6b7";
            csi_hackathon_id := "not-a-uuid";
            csi_submission_text := "Our project";
            csi_artifact_links := [] |})
      0
  = (Ok {| submission_id := "9b2f6c1e-5d3a-4e7b-8f10-2a4c6e8b0d12";
           project_id := "b2c3d4e5-f6a7-4819-a0b1-c2d3e4f5a6b7";
           submitted_at := "2025-12-31T00:00:00.000Z";
           submission_text := "Our project";
           artifact_links_json := "[]";
           namespace := "hackathons/not-a-uuid/submissions" |},
     1,
     [exchange randomUUID "9b2f6c1e-5d3a-4e7b-8f10-2a4c6e8b0d12";
      exchange Date_toISOString "2025-12-31T00:00:00.000Z";
      exchange (insertRows "submissions"
                  [{| submission_id := "9b2f6c1e-5d3a-4e7b-8f10-2a4c6e8b0d12";
                      project_id := "b2c3d4e5-f6a7-4819-a0b1-c2d3e4f5a6b7";
                      submitted_at := "2025-12-31T00:00:00.000Z";
                      submission_text := "Our project";
                      artifact_links_json := "[]";
                      namespace := "hackathons/not-a-uuid/submissions" |}])
               (Ok {| success := true; rows := None; error := None |})])
  /\ validateNamespace "hackathons/not-a-uuid/submissions"
     = throw "Invalid hackathon ID in namespace: not-a-uuid"
  /\ EmbeddingNamespace.submissions "not-a-uuid"
     = throw "hackathonId must be a valid UUID".
Proof. repeat split. Qed.

(** *** The namespace that [createSubmission] writes *)

Import StringFacts NamespaceFacts.

Lemma split_append (c : ascii) (a b : string) :
  split (a ++ String c b) c = (split a c ++ split b c)%list.
Proof.
  induction a as [|d a IH]; cbn [append split].
  - now rewrite Ascii.eqb_refl.
  - destruct (Ascii.eqb d c); [now rewrite IH|].
    rewrite IH. pose proof (split_nonempty a c) as Hne.
    destruct (split a c) as [|p ps]; [congruence | reflexivity].
Qed.

Lemma generateSubmissionNamespace_valid (hackathonId : string) :
  (validateNamespace (generateSubmissionNamespace hackathonId) = Ok tt
   <-> Regex.matches UUID_REGEX hackathonId = true)
  /\ (forall namespace,
         EmbeddingNamespace.submissions hackathonId = Ok namespace
         <-> Regex.matches UUID_REGEX hackathonId = true
             /\ namespace = generateSubmissionNamespace hackathonId).
Proof.
  unfold generateSubmissionNamespace. split; [split|].
  - intros H.
    destruct (validateNamespace_shape _ H) as (h & t & E & Hu & Ht).
    apply append_inv_head in E.
    assert (Hh : lacks "/" h = true) by (apply uuid_lacks; [reflexivity | assumption]).
    assert (Hl : lacks "/" t = true)
      by (simpl in Ht; destruct Ht as [<- | [<- | [<- | []]]]; reflexivity).
    assert (S : split (hackathonId ++ "/submissions") "/" = [h; t]).
    { rewrite E. change (h ++ "/" ++ t) with (h ++ String "/" t).
      rewrite split_cut by assumption. now rewrite split_lacks. }
    change (hackathonId ++ "/submissions")
      with (hackathonId ++ String "/" "submissions") in S.
    rewrite split_append in S.
    pose proof (join_split hackathonId "/") as J.
    destruct (split hackathonId "/") as [|x [|y rest]]; cbn in S.
    + discriminate.
    + injection S as -> _. cbn in J. now subst.
    + destruct rest; discriminate.
  - intros Hu.
    pose proof (@parseNamespace_built hackathonId "submissions" Hu
                  ltac:(simpl; auto)) as H.
    unfold parseNamespace in H.
    destruct (validateNamespace ("hackathons/" ++ hackathonId ++ "/" ++ "submissions"))
      as [[]|e] eqn:V; [exact V | discriminate].
  - intros namespace. unfold EmbeddingNamespace.submissions.
    destruct (Regex.matches UUID_REGEX hackathonId) eqn:Hu.
    + rewrite (proj2 (validateUUIDInternal_ok hackathonId "hackathonId") Hu).
      cbn [bind]. split.
      * intros H. injection H as <-. auto.
      * intros [_ ->]. reflexivity.
    + destruct (validateUUIDInternal hackathonId "hackathonId") as [[]|e] eqn:V.
      * apply validateUUIDInternal_ok in V. congruence.
      * cbn [bind]. split; [discriminate | intros [H _]; discriminate].
Qed.

(** The row that [createSubmission] writes for an input, under the
    identifier and the date drawn. *)
Definition submissionRow (JSON_stringify : list ArtifactLink -> string)
  (input : CreateSubmissionInput) (uuid now : string) : SubmissionWithMetadata :=
  {| submission_id := uuid;
     project_id := csi_project_id input;
     submitted_at := now;
     submission_text := csi_submission_text input;
     artifact_links_json := JSON_stringify (csi_artifact_links input);
     namespace := generateSubmissionNamespace (csi_hackathon_id input) |}.

(** X18. The namespace that [createSubmission] writes.  For every input and
    every store, [createSubmission] draws an identifier and a date and
    inserts one row, whose namespace is the one [generateSubmissionNamespace]
    makes of the hackathon id; nothing is checked before.  That namespace
    passes [validateNamespace] exactly when the hackathon id matches the
    UUID pattern, and exactly then it is the namespace that the validating
    builder [EmbeddingNamespace.submissions] returns. *)
Theorem createSubmission_namespace
  (JSON_stringify : list ArtifactLink -> string)
  (W : Type) (world : World Db W) (w : W) (input : CreateSubmissionInput) :
  (exists uuid now answer res w1,
      run world (createSubmission JSON_stringify input) w
      = (res, w1,
         [exchange randomUUID uuid;
          exchange Date_toISOString now;
          exchange (insertRows "submissions"
                      [submissionRow JSON_stringify input uuid now])
                   answer])
      /\ (res = Ok (submissionRow JSON_stringify input uuid now)
          \/ exists e, res = Err e))
  /\ (validateNamespace (generateSubmissionNamespace (csi_hackathon_id input))
      = Ok tt
      <-> Regex.matches UUID_REGEX (csi_hackathon_id input) = true)
  /\ (forall namespace,
         EmbeddingNamespace.submissions (csi_hackathon_id input) = Ok namespace
         <-> Regex.matches UUID_REGEX (csi_hackathon_id input) = true
             /\ namespace = generateSubmissionNamespace (csi_hackathon_id input)).
Proof.
  split; [|apply generateSubmissionNamespace_valid].
  unfold createSubmission. cbn [run].
  destruct (world _ randomUUID w) as [uuid w1].
  destruct (world _ Date_toISOString w1) as [now w2].
  fold (submissionRow JSON_stringify input uuid now).
  cbn [andThen tryCatch await pbind run].
  match goal with
  | |- context [world ?X (insertRows ?t ?r) w2] =>
      destruct (world X (insertRows t r) w2) as [[response | e] w3]
  end; cbn.
  - destruct (success response); cbn; repeat eexists; eauto.
  - repeat eexists; eauto.
Qed.

End SubmissionsFacts.

(** ** Comparisons and NaN *)

Module FloatFacts.
Import Floats.

(** The number is not NaN. *)
Definition isNumber (x : float) : bool := (x =? x)%float.

(** [lo <= x <= hi] *)
Definition between (lo x hi : float) : bool :=
  (lo <=? x)%float && (x <=? hi)%float.

Lemma SFcompare_antisym (x y : spec_float) :
  SFcompare y x = option_map CompOpp (SFcompare x y).
Proof.
  destruct x as [sx|sx| |sx mx ex], y as [sy|sy| |sy my ey]; cbn;
    try destruct sx; try destruct sy; try reflexivity.
  - rewrite (Z.compare_antisym ey ex).
    destruct (ey ?= ex)%Z; cbn; try reflexivity.
    rewrite CompOpp_involutive. f_equal.
    exact (Pos.compare_cont_antisym my mx Eq).
  - rewrite (Z.compare_antisym ey ex).
    destruct (ey ?= ex)%Z; cbn; try reflexivity.
    f_equal. symmetry. exact (Pos.compare_cont_antisym mx my Eq).
Qed.

Lemma isNumber_compare (x y : float) :
  isNumber x = true -> isNumber y = true ->
  SFcompare (Prim2SF x) (Prim2SF y) <> None.
Proof.
  unfold isNumber. rewrite !eqb_spec. unfold SFeqb.
  destruct (Prim2SF x) as [sx|sx| |sx mx ex], (Prim2SF y) as [sy|sy| |sy my ey];
    cbn; intros Hx Hy; try discriminate.
Qed.

(** Two numbers are ordered one way or the other. *)
Lemma leb_ltb (x y : float) :
  isNumber x = true -> isNumber y = true ->
  (x <=? y)%float = negb (y <? x)%float.
Proof.
  intros Hx Hy. pose proof (isNumber_compare Hx Hy) as Hc.
  rewrite leb_spec, ltb_spec. unfold SFleb, SFltb.
  rewrite (SFcompare_antisym (Prim2SF x) (Prim2SF y)).
  destruct (SFcompare (Prim2SF x) (Prim2SF y)) as [[| |]|]; cbn; congruence.
Qed.

(** What is ordered is a number. *)
Lemma leb_isNumber (x y : float) :
  (x <=? y)%float = true -> isNumber x = true /\ isNumber y = true.
Proof.
  unfold isNumber. rewrite leb_spec, !eqb_spec. unfold SFleb, SFeqb.
  destruct (Prim2SF x) as [sx|sx| |sx mx ex], (Prim2SF y) as [sy|sy| |sy my ey];
    cbn; try discriminate; intros _; split; try reflexivity;
    try (destruct sx; reflexivity); try (destruct sy; reflexivity).
  all: try (rewrite Z.compare_refl, Pos.compare_cont_refl; destruct sx; reflexivity).
  all: try (rewrite Z.compare_refl, Pos.compare_cont_refl; destruct sy; reflexivity).
Qed.

(** [x < lo || hi < x] is the negation of [lo <= x <= hi], NaN apart. *)
Lemma between_true (lo x hi : float) :
  between lo x hi = true -> (x <? lo)%float || (hi <? x)%float = false.
Proof.
  unfold between. intros H. apply andb_true_iff in H as [H1 H2].
  destruct (leb_isNumber H1) as [Hlo Hx].
  destruct (leb_isNumber H2) as [_ Hhi].
  rewrite (leb_ltb Hlo Hx) in H1. rewrite (leb_ltb Hx Hhi) in H2.
  apply negb_true_iff in H1, H2. now rewrite H1, H2.
Qed.

Lemma between_false (lo x hi : float) :
  isNumber lo = true -> isNumber x = true -> isNumber hi = true ->
  between lo x hi = false -> (x <? lo)%float || (hi <? x)%float = true.
Proof.
  unfold between. intros Hlo Hx Hhi.
  rewrite (leb_ltb Hlo Hx), (leb_ltb Hx Hhi).
  destruct (x <? lo)%float, (hi <? x)%float; cbn; congruence.
Qed.

Lemma ltb_nan_r (x : float) : (x <? nan)%float = false.
Proof.
  rewrite ltb_spec. change (Prim2SF nan) with S754_nan. unfold SFltb.
  destruct (Prim2SF x); reflexivity.
Qed.

Lemma div_nan_r (x : float) : (x / nan)%float = nan.
Proof.
  apply Prim2SF_inj. rewrite div_spec.
  change (Prim2SF nan) with S754_nan.
  destruct (Prim2SF x) as [s|s| |s m e]; reflexivity.
Qed.

Lemma mul_nan_r (x : float) : (x * nan)%float = nan.
Proof.
  apply Prim2SF_inj. rewrite mul_spec.
  change (Prim2SF nan) with S754_nan.
  destruct (Prim2SF x) as [s|s| |s m e]; reflexivity.
Qed.

End FloatFacts.

(** ** The weighted total *)

Module TotalScoreFacts.
Import JsString Judging FloatFacts.
Import Floats.

(** The sum of a list of numbers, added from the left starting at 0. *)
Definition fsum (xs : list float) : float := fold_left add xs 0%float.

(** The score, the maximum and the weight of a criterion by name. *)
Definition scoreOf (scores : CriteriaScores) (name : string) : float :=
  match get scores name with Some s => s | None => nan end.

Definition maxOf (criteria : Criteria) (name : string) : float :=
  match get criteria name with Some c => max_score c | None => nan end.

Definition weightOf (criteria : Criteria) (name : string) : float :=
  match get criteria name with Some c => weight c | None => nan end.

(** The total as the specification words it, for the criteria taken in a
    given order: each score is normalized by its maximum and multiplied by
    the weight, the products are summed, the sum is divided by the sum of the
    weights and scaled by 100; 0 when the weights sum to 0. *)
Definition weightedTotal (order : list string) (scores : CriteriaScores)
  (criteria : Criteria) : float :=
  let weightedSum :=
    fsum (map (fun name =>
                 (scoreOf scores name / maxOf criteria name
                  * weightOf criteria name)%float) order) in
  let totalWeight := fsum (map (weightOf criteria) order) in
  if (totalWeight =? 0)%float then 0%float
  else (weightedSum / totalWeight * 100)%float.

(** The criteria in the order in which the scores list them. *)
Definition scoredOrder (scores : CriteriaScores) (criteria : Criteria) : list string :=
  filter (fun name => has name criteria) (keys scores).

(** The name is one of [Object.prototype] and the rubric has no criterion of
    that name. *)
Definition stray (criteria : Criteria) (name : string) : bool :=
  inherited name && negb (has name criteria).

(** Some score goes by such a name. *)
Definition strayScore (scores : CriteriaScores) (criteria : Criteria) : bool :=
  existsb (stray criteria) (keys scores).

(** The scores hold, for the criterion, a score of their own with
    [0 <= score <= max_score]. *)
Definition scored (scores : CriteriaScores) (entry : string * Criterion) : bool :=
  match get scores (fst entry) with
  | Some score => between 0 score (max_score (snd entry))
  | None => false
  end.

Lemma get_In {V : Type} (record : list (string * V)) (key : string) (v : V) :
  get record key = Some v -> In (key, v) record.
Proof.
  induction record as [|[k x] rest IH]; cbn; [discriminate|].
  destruct (String.eqb_spec k key) as [->|].
  - intros H. injection H as ->. now left.
  - intros H. right. auto.
Qed.

Lemma has_In {V : Type} (record : list (string * V)) (key : string) :
  has key record = true <-> In key (keys record).
Proof.
  unfold has, keys. induction record as [|[k x] rest IH]; cbn.
  - split; [discriminate | contradiction].
  - destruct (String.eqb_spec k key) as [->|Hn].
    + split; auto.
    + rewrite IH. split; [auto | intros [H | H]; [contradiction | assumption]].
Qed.

Lemma get_first {V : Type} (record : list (string * V)) (key : string) (v : V) :
  NoDup (keys record) -> In (key, v) record -> get record key = Some v.
Proof.
  unfold keys. induction record as [|[k x] rest IH]; cbn; [contradiction|].
  intros Hnd. inversion_clear Hnd as [|? ? Hk Hrest].
  intros [H | H].
  - injection H as -> ->. now rewrite String.eqb_refl.
  - destruct (String.eqb_spec k key) as [->|]; [|auto].
    exfalso. apply Hk. change key with (fst (key, v)). now apply in_map.
Qed.

Lemma stray_false (criteria : Criteria) (name : string) :
  stray criteria name = false ->
  get criteria name = None -> inherited name = false.
Proof.
  unfold stray, has. intros H E. rewrite E in H.
  now destruct (inherited name).
Qed.

Lemma stray_true (criteria : Criteria) (name : string) :
  stray criteria name = true ->
  get criteria name = None /\ inherited name = true.
Proof.
  unfold stray, has. intros H. apply andb_true_iff in H as [H1 H2].
  split; [|assumption].
  now destruct (get criteria name).
Qed.

Lemma accumulate_Some (criteria : Criteria) (a b : float) (name : string)
  (s : float) (c : Criterion) :
  get criteria name = Some c ->
  accumulate criteria (a, b) (name, s)
  = ((a + s / max_score c * weight c)%float, (b + weight c)%float).
Proof. intros E. unfold accumulate, lookup. now rewrite E. Qed.

Lemma accumulate_None (criteria : Criteria) (a b : float) (name : string)
  (s : float) :
  get criteria name = None -> inherited name = false ->
  accumulate criteria (a, b) (name, s) = (a, b).
Proof. intros E I. unfold accumulate, lookup. now rewrite E, I. Qed.

(** A score named like a property of [Object.prototype] that the rubric
    lacks finds that property for its criterion: both sums become NaN. *)
Lemma accumulate_stray (criteria : Criteria) (a b : float) (name : string)
  (s : float) :
  get criteria name = None -> inherited name = true ->
  accumulate criteria (a, b) (name, s) = (nan, nan).
Proof.
  intros E I. unfold accumulate, lookup. rewrite E, I.
  cbn [defined maxScoreOf weightOfProperty].
  now rewrite div_nan_r, mul_nan_r, !RubricsFacts.add_nan_r.
Qed.

(** Once the sums are NaN they stay so. *)
Lemma fold_accumulate_nan (criteria : Criteria) (scores : CriteriaScores) :
  fold_left (accumulate criteria) scores (nan, nan) = (nan, nan).
Proof.
  induction scores as [|[name s] rest IH]; [reflexivity|].
  cbn [fold_left].
  destruct (get criteria name) as [c|] eqn:E.
  - rewrite (@accumulate_Some criteria nan nan name s c E).
    now rewrite !RubricsFacts.add_nan_l.
  - destruct (inherited name) eqn:I.
    + now rewrite (@accumulate_stray criteria nan nan name s E I).
    + now rewrite (@accumulate_None criteria nan nan name s E I).
Qed.

(** The loop of [calculateTotalScore] adds, entry by entry, the terms of the
    scores that have a criterion, when no score goes by a stray name. *)
Lemma fold_accumulate (criteria : Criteria) (scores : CriteriaScores) :
  strayScore scores criteria = false ->
  forall a b : float,
    fold_left (accumulate criteria) scores (a, b)
    = (fold_left add
         (map (fun e : string * float =>
                 (snd e / maxOf criteria (fst e) * weightOf criteria (fst e))%float)
              (filter (fun e : string * float => has (fst e) criteria) scores))
         a,
       fold_left add
         (map (fun e : string * float => weightOf criteria (fst e))
              (filter (fun e : string * float => has (fst e) criteria) scores))
         b).
Proof.
  unfold strayScore.
  induction scores as [|[name s] rest IH]; intros Hs a b; [reflexivity|].
  cbn [keys map existsb fst] in Hs. apply orb_false_iff in Hs as [Hn Hrest].
  cbn [fold_left filter fst snd].
  destruct (get criteria name) as [c|] eqn:E.
  - rewrite (@accumulate_Some criteria a b name s c E).
    assert (Hh : has name criteria = true) by (unfold has; now rewrite E).
    assert (Hm : maxOf criteria name = max_score c) by (unfold maxOf; now rewrite E).
    assert (Hw : weightOf criteria name = weight c) by (unfold weightOf; now rewrite E).
    rewrite Hh. cbn [map fold_left fst snd]. rewrite Hm, Hw. now apply IH.
  - rewrite (@accumulate_None criteria a b name s E (@stray_false criteria name Hn E)).
    assert (Hh : has name criteria = false) by (unfold has; now rewrite E).
    rewrite Hh. now apply IH.
Qed.

Lemma filter_keys {V : Type} (f : string -> bool) (record : list (string * V)) :
  keys (filter (fun e => f (fst e)) record) = filter f (keys record).
Proof.
  unfold keys. induction record as [|[k v] rest IH]; cbn; [reflexivity|].
  destruct (f k); cbn; now rewrite IH.
Qed.

Lemma map_keys {V A : Type} (f : string -> A) (record : list (string * V)) :
  map (fun e => f (fst e)) record = map f (keys record).
Proof. unfold keys. now rewrite map_map. Qed.

(** [calculateTotalScore] is the weighted total over the criteria in the
    order of the scores, when no score goes by a stray name. *)
Lemma calculateTotalScore_weightedTotal (scores : CriteriaScores)
  (criteria : Criteria) :
  NoDup (keys scores) ->
  strayScore scores criteria = false ->
  calculateTotalScore scores criteria
  = weightedTotal (scoredOrder scores criteria) scores criteria.
Proof.
  intros Hnd Hs. unfold calculateTotalScore, weightedTotal, scoredOrder, fsum.
  rewrite (@fold_accumulate criteria scores Hs).
  rewrite <- (filter_keys (fun name => has name criteria) scores).
  rewrite <- !map_keys.
  set (entries := filter (fun e : string * float => has (fst e) criteria) scores).
  assert (E : map (fun e : string * float =>
                     (snd e / maxOf criteria (fst e) * weightOf criteria (fst e))%float)
                  entries
              = map (fun e : string * float =>
                       (scoreOf scores (fst e) / maxOf criteria (fst e)
                        * weightOf criteria (fst e))%float)
                    entries).
  { apply map_ext_in. intros [name s] Hin. cbn [fst snd].
    unfold entries in Hin. apply filter_In in Hin as [Hin _].
    unfold scoreOf. now rewrite (@get_first _ scores name s Hnd Hin). }
  rewrite E. reflexivity.
Qed.

(** With a score under a stray name the total is NaN. *)
Lemma calculateTotalScore_stray (scores : CriteriaScores) (criteria : Criteria) :
  strayScore scores criteria = true ->
  calculateTotalScore scores criteria = nan.
Proof.
  unfold strayScore. intros H.
  apply existsb_exists in H as (name & Hin & Hs).
  apply stray_true in Hs as [E I].
  unfold keys in Hin. apply in_map_iff in Hin as ([k s] & Hk & Hin).
  cbn [fst] in Hk. subst k.
  apply in_split in Hin as (before & after & ->).
  unfold calculateTotalScore. rewrite fold_left_app. cbn [fold_left].
  destruct (fold_left (accumulate criteria) before (0%float, 0%float)) as [a b].
  rewrite (@accumulate_stray criteria a b name s E I), fold_accumulate_nan.
  reflexivity.
Qed.

(** When every criterion has a score, the criteria summed over are those of
    the rubric, each once. *)
Lemma scoredOrder_permutation (scores : CriteriaScores) (criteria : Criteria) :
  NoDup (keys scores) -> NoDup (keys criteria) ->
  (forall name, In name (keys criteria) -> In name (keys scores)) ->
  Permutation (scoredOrder scores criteria) (keys criteria).
Proof.
  intros Hs Hc Hcover. unfold scoredOrder.
  apply NoDup_Permutation; [now apply NoDup_filter | assumption |].
  intros name. rewrite filter_In, has_In. split; [tauto | auto].
Qed.

(** The rubric and the scores of the test suite. *)
Definition mockCriteria : Criteria :=
  [("innovation", {| weight := 0.4; max_score := 10 |});
   ("technical", {| weight := 0.3; max_score := 10 |});
   ("design", {| weight := 0.3; max_score := 10 |})].

Definition scoresOf (innovation technical design : float) : CriteriaScores :=
  [("innovation", innovation); ("technical", technical); ("design", design)].

(** The scores 8, 7, 9 of the tests with one more score, given under the
    name toString. *)
Definition scoresWithToString : CriteriaScores :=
  [("innovation", 8%float); ("technical", 7%float); ("design", 9%float);
   ("toString", 5%float)].

(** C4, where the code departs from it.  The scores [scoresWithToString] hold
    a score within its range for each criterion of the rubric of the tests,
    and the total that the specification words is 80 within 0.1; but
    [calculateTotalScore] finds, for the name toString, the method that the
    criteria inherit from [Object.prototype], takes it for a criterion and
    returns NaN.  On the values of the tests the function returns what is
    stated: 80 within 0.1 for the scores 8, 7, 9, exactly 100 for the maximal
    scores, exactly 0 for the scores 0, and 0 for a rubric of weight 0. *)
Theorem calculateTotalScore_inherited_name :
  forallb (scored scoresWithToString) mockCriteria = true
  /\ (abs (weightedTotal (keys mockCriteria) scoresWithToString mockCriteria - 80)
      <=? 0.1)%float = true
  /\ calculateTotalScore scoresWithToString mockCriteria = nan
  /\ (abs (calculateTotalScore (scoresOf 8 7 9) mockCriteria - 80) <=? 0.1)%float = true
  /\ calculateTotalScore (scoresOf 10 10 10) mockCriteria = 100%float
  /\ calculateTotalScore (scoresOf 0 0 0) mockCriteria = 0%float
  /\ calculateTotalScore [("test", 10%float)]
                         [("test", {| weight := 0; max_score := 10 |})]
     = 0%float.
Proof. repeat split. Qed.

(** X14. The scores being an object (no name twice), [calculateTotalScore]
    is decided by the names of the scores.  When none is the name of a
    property of [Object.prototype] that the rubric lacks, the total is the
    sum of score / max_score * weight over the criteria that have a score,
    taken in the order of the scores, divided by the sum of their weights and
    scaled by 100, and 0 when these weights sum to 0: scores under names that
    are no criteria do not enter it, and when every criterion has a score
    the criteria summed over are those of the rubric, each once.  When some
    score goes by such a name (toString, constructor, ...) the total is
    NaN. *)
Theorem calculateTotalScore_formula (scores : CriteriaScores)
  (criteria : Criteria) :
  NoDup (keys scores) ->
  (strayScore scores criteria = false ->
   calculateTotalScore scores criteria
   = weightedTotal (scoredOrder scores criteria) scores criteria
   /\ (NoDup (keys criteria) ->
       (forall name, In name (keys criteria) -> In name (keys scores)) ->
       Permutation (scoredOrder scores criteria) (keys criteria)))
  /\ (strayScore scores criteria = true ->
      calculateTotalScore scores criteria = nan).
Proof.
  intros Hnd. split.
  - intros Hs. split.
    + now apply calculateTotalScore_weightedTotal.
    + intros Hc Hcover. now apply scoredOrder_permutation.
  - apply calculateTotalScore_stray.
Qed.

Lemma calculateTotalScore_formula_witness :
  (strayScore
     [("design", 9%float); ("extra", 3%float); ("innovation", 8%float);
      ("technical", 7%float)] mockCriteria = false ->
   calculateTotalScore
     [("design", 9%float); ("extra", 3%float); ("innovation", 8%float);
      ("technical", 7%float)] mockCriteria
   = weightedTotal ["design"; "innovation"; "technical"]
       [("design", 9%float); ("extra", 3%float); ("innovation", 8%float);
        ("technical", 7%float)] mockCriteria
   /\ (NoDup (keys mockCriteria) ->
       (forall name, In name (keys mockCriteria) ->
                     In name ["design"; "extra"; "innovation"; "technical"]) ->
       Permutation ["design"; "innovation"; "technical"] (keys mockCriteria)))
  /\ (strayScore
        [("design", 9%float); ("extra", 3%float); ("innovation", 8%float);
         ("technical", 7%float)] mockCriteria = true ->
      calculateTotalScore
        [("design", 9%float); ("extra", 3%float); ("innovation", 8%float);
         ("technical", 7%float)] mockCriteria = nan).
Proof.
  apply (@calculateTotalScore_formula
           [("design", 9%float); ("extra", 3%float); ("innovation", 8%float);
            ("technical", 7%float)] mockCriteria).
  repeat constructor; cbn; intuition discriminate.
Defined.

End TotalScoreFacts.

(** ** The judging workflow *)

Module JudgingFacts.
Import JsString Effects EffectsFacts Types Judging FloatFacts.
Import Floats.

(** The request for the rubric of a hackathon. *)
Definition rubricRequest (hackathonId : string) : Rubrics.ListRubricsParams :=
  {| Rubrics.lrp_hackathon_id := Some hackathonId;
     Rubrics.lrp_limit := Some 1%Z;
     Rubrics.lrp_offset := None |}.

(** The identifiers are not blank and there is a score. *)
Definition wellFormed (input : JudgingInput) : Prop :=
  truthy (trim (submissionId input)) = true
  /\ truthy (trim (judgeId input)) = true
  /\ criteriaScores input <> [].

(** What the loop lets pass for a criterion: a score of the scores' own that
    is neither below 0 nor above the maximum, or, with no score of their
    own, the property that the scores inherit under a name of
    [Object.prototype]. *)
Definition passes (scores : CriteriaScores) (entry : string * Criterion) : bool :=
  match get scores (fst entry) with
  | Some score => negb ((score <? 0)%float || (max_score (snd entry) <? score)%float)
  | None => inherited (fst entry)
  end.

Definition missingError (submissionId name : string) : JudgingError :=
  createJudgingError validation
    [Text "Missing score for criterion: "; Text name] false (Some submissionId).

Definition rangeError (submissionId name : string) (maxScore : float) : JudgingError :=
  createJudgingError validation
    [Text "Score for "; Text name; Text " must be between 0 and "; Num maxScore]
    false (Some submissionId).

(** One turn of the loop, by what the scores hold of their own. *)
Lemma checkCriteria_step (scores : CriteriaScores) (sid name : string)
  (c : Criterion) (rest : Criteria) :
  checkCriteria scores sid ((name, c) :: rest)
  = match get scores name with
    | Some score =>
        if (score <? 0)%float || (max_score c <? score)%float
        then Some (rangeError sid name (max_score c))
        else checkCriteria scores sid rest
    | None =>
        if inherited name then checkCriteria scores sid rest
        else Some (missingError sid name)
    end.
Proof.
  cbn [checkCriteria]. unfold inRecord, lookup.
  destruct (get scores name) as [score|]; cbn [negb toNumber]; [reflexivity|].
  destruct (inherited name); cbn [negb toNumber]; [|reflexivity].
  rewrite ltb_nan_r. reflexivity.
Qed.

(** The loop passes the criteria that pass and stops at the first that does
    not. *)
Lemma checkCriteria_app (scores : CriteriaScores) (sid : string)
  (before after : Criteria) :
  forallb (passes scores) before = true ->
  checkCriteria scores sid (before ++ after)%list = checkCriteria scores sid after.
Proof.
  induction before as [|[name c] rest IH]; [reflexivity|].
  cbn [forallb app]. rewrite checkCriteria_step.
  unfold passes at 1. cbn [fst snd]. intros H.
  apply andb_true_iff in H as [H1 H2].
  destruct (get scores name) as [score|].
  - apply negb_true_iff in H1. rewrite H1. auto.
  - rewrite H1. auto.
Qed.

Lemma checkCriteria_None (scores : CriteriaScores) (sid : string)
  (criteria : Criteria) :
  checkCriteria scores sid criteria = None <-> forallb (passes scores) criteria = true.
Proof.
  induction criteria as [|[name c] rest IH]; [cbn; tauto|].
  cbn [forallb]. rewrite checkCriteria_step.
  unfold passes at 1. cbn [fst snd].
  destruct (get scores name) as [score|].
  - destruct ((score <? 0)%float || (max_score c <? score)%float); cbn [negb andb];
      [split; discriminate | exact IH].
  - destruct (inherited name); cbn [andb]; [exact IH | split; discriminate].
Qed.

(** A criterion with a score of the scores' own within its range passes. *)
Lemma scored_passes (scores : CriteriaScores) (entry : string * Criterion) :
  TotalScoreFacts.scored scores entry = true -> passes scores entry = true.
Proof.
  unfold TotalScoreFacts.scored, passes.
  destruct (get scores (fst entry)) as [score|]; [|discriminate].
  intros H. now rewrite (@between_true _ _ _ H).
Qed.

Lemma forallb_scored_passes (scores : CriteriaScores) (criteria : Criteria) :
  forallb (TotalScoreFacts.scored scores) criteria = true ->
  forallb (passes scores) criteria = true.
Proof.
  rewrite !forallb_forall. intros H entry Hin. apply scored_passes. auto.
Qed.

(** Of a rubric without a criterion named like a property of
    [Object.prototype], the loop passes only scores that hold an entry for
    every criterion. *)
Lemma passes_validate (scores : CriteriaScores) (criteria : Criteria) :
  forallb (fun name => negb (inherited name)) (keys criteria) = true ->
  forallb (passes scores) criteria = true ->
  validateAllCriteriaScored scores criteria = true.
Proof.
  unfold validateAllCriteriaScored. rewrite !forallb_forall.
  intros Hn Hp name Hin. specialize (Hn name Hin).
  unfold keys in Hin. apply in_map_iff in Hin as ([k c] & <- & Hin).
  specialize (Hp _ Hin). unfold passes in Hp. cbn [fst snd] in *.
  destruct (get scores k) as [s|] eqn:G.
  - apply existsb_exists. exists k. split; [|apply String.eqb_refl].
    apply TotalScoreFacts.get_In in G.
    change k with (fst (k, s)). now apply in_map.
  - rewrite Hp in Hn. discriminate.
Qed.

Section WithJSON.

Variable JSON_parse : string -> option Criteria.
Variable JSON_stringify : CriteriaScores -> string.

Lemma run_blank_input (W : Type) (world : World Api W) (w : W)
  (input : JudgingInput) :
  truthy (trim (submissionId input)) = false
  \/ truthy (trim (judgeId input)) = false
  \/ criteriaScores input = [] ->
  exists message,
    run world (scoreSubmission JSON_parse JSON_stringify input) w
    = (Err (createJudgingError validation message false None), w, []).
Proof.
  unfold scoreSubmission. intros H.
  destruct (truthy (trim (submissionId input))) eqn:E1; cbn [negb];
    [|eexists; reflexivity].
  destruct (truthy (trim (judgeId input))) eqn:E2; cbn [negb];
    [|eexists; reflexivity].
  destruct (criteriaScores input) as [|e es] eqn:E3; cbn [keys map List.length Nat.eqb];
    [eexists; reflexivity|].
  destruct H as [H | [H | H]]; discriminate.
Qed.

(** With the rubric fetched and parsed, the run is decided by the loop over
    the criteria: its error, or the call of [createScore] with the record of
    the scores and what that call answers. *)
Lemma run_with_rubric (W : Type) (world : World Api W) (w w1 : W)
  (input : JudgingInput) (rubric : Rubric) (others : list Rubric)
  (criteria : Criteria) :
  wellFormed input ->
  world _ (listRubrics (rubricRequest (hackathonId input))) w
  = (Ok (rubric :: others), w1) ->
  JSON_parse (criteria_json rubric) = Some criteria ->
  run world (scoreSubmission JSON_parse JSON_stringify input) w
  = let fetched := exchange (listRubrics (rubricRequest (hackathonId input)))
                            (Ok (rubric :: others)) in
    match checkCriteria (criteriaScores input) (submissionId input) criteria with
    | Some e => (Err e, w1, [fetched])
    | None =>
        let total := calculateTotalScore (criteriaScores input) criteria in
        let record := scoreRecord JSON_stringify input total in
        let (answer, w2) := world _ (createScore record) w1 in
        (match answer with
         | Ok score => Ok {| res_score := score; totalScore := total |}
         | Err error =>
             Err (createJudgingError score_create
                    [Text "Failed to create score: "; Text (messageOf error)]
                    true (Some (submissionId input)))
         end,
         w2, [fetched; exchange (createScore record) answer])
    end.
Proof.
  intros (H1 & H2 & H3) Hw Hp. unfold scoreSubmission.
  rewrite H1, H2. cbn [negb].
  destruct (criteriaScores input) as [|e0 es] eqn:Es; [congruence|].
  cbn [keys map List.length Nat.eqb]. rewrite <- Es.
  fold (rubricRequest (hackathonId input)).
  cbn [tryCatch andThen await pbind run].
  rewrite Hw. cbn [pbind]. rewrite Hp.
  destruct (checkCriteria (criteriaScores input) (submissionId input) criteria)
    as [e|]; [reflexivity|].
  cbn [tryCatch await pbind run].
  destruct (world _ (createScore _) w1) as [[score | error] w2]; reflexivity.
Qed.

(** The input lacks an identifier or has no score. *)
Definition blank (input : JudgingInput) : Prop :=
  truthy (trim (submissionId input)) = false
  \/ truthy (trim (judgeId input)) = false
  \/ criteriaScores input = [].

(** C5, as the code has it.  [scoreSubmission] throws a validation error that
    is not retryable, before any call, when the submission id or the judge
    id is blank or there is no score.  With the rubric fetched, it goes
    through the criteria of the rubric in their order and stops at the first
    that does not have a score with 0 <= score <= max_score: when the scores
    hold no entry for it, with an error naming it, and when the score is out
    of that range, with an error naming it and the maximum; both are
    validation errors, not retryable, and no score is created.  Criteria
    named like a property of [Object.prototype] and scores or maxima that
    are NaN are left aside. *)
Theorem scoreSubmission_validation (W : Type) (world : World Api W) (w : W)
  (input : JudgingInput) :
  (blank input ->
   exists message,
     run world (scoreSubmission JSON_parse JSON_stringify input) w
     = (Err (createJudgingError validation message false None), w, []))
  /\ (forall (w1 : W) (rubric : Rubric) (others : list Rubric)
             (before after : Criteria) (name : string) (criterion : Criterion),
         wellFormed input ->
         world _ (listRubrics (rubricRequest (hackathonId input))) w
         = (Ok (rubric :: others), w1) ->
         JSON_parse (criteria_json rubric)
         = Some (before ++ (name, criterion) :: after)%list ->
         forallb (TotalScoreFacts.scored (criteriaScores input)) before = true ->
         (get (criteriaScores input) name = None ->
          inherited name = false ->
          run world (scoreSubmission JSON_parse JSON_stringify input) w
          = (Err (missingError (submissionId input) name),
             w1,
             [exchange (listRubrics (rubricRequest (hackathonId input)))
                       (Ok (rubric :: others))]))
         /\ (forall score : float,
                get (criteriaScores input) name = Some score ->
                isNumber score = true ->
                isNumber (max_score criterion) = true ->
                between 0 score (max_score criterion) = false ->
                run world (scoreSubmission JSON_parse JSON_stringify input) w
                = (Err (rangeError (submissionId input) name (max_score criterion)),
                   w1,
                   [exchange (listRubrics (rubricRequest (hackathonId input)))
                             (Ok (rubric :: others))]))).
Proof.
  split; [apply run_blank_input|].
  intros w1 rubric others before after name criterion Hwf Hw Hp Hb.
  rewrite (@run_with_rubric W world w w1 input rubric others _ Hwf Hw Hp).
  cbn zeta.
  rewrite (@checkCriteria_app (criteriaScores input) (submissionId input) before _
             (forallb_scored_passes _ _ Hb)).
  rewrite checkCriteria_step. split.
  - intros G I. now rewrite G, I.
  - intros score G Hs Hm Hr. rewrite G.
    now rewrite (@between_false 0%float score (max_score criterion) eq_refl Hs Hm Hr).
Qed.

(** X2. The workflow taken alone, with the imported [createScore] as the tests
    mock it: once every criterion of the rubric passes the loop, it calls
    [createScore] with the
    submission id, the judge id, the JSON text of the scores, the total and
    the feedback, and returns what that call answers with the total; a
    rejection becomes a retryable error of the phase score_create. *)
Lemma scoreSubmission_calls_createScore (W : Type) (world : World Api W)
  (w w1 : W) (input : JudgingInput) (rubric : Rubric) (others : list Rubric)
  (criteria : Criteria) :
  wellFormed input ->
  world _ (listRubrics (rubricRequest (hackathonId input))) w
  = (Ok (rubric :: others), w1) ->
  JSON_parse (criteria_json rubric) = Some criteria ->
  forallb (passes (criteriaScores input)) criteria = true ->
  let total := calculateTotalScore (criteriaScores input) criteria in
  let record :=
    [("submission_id", Scores.JsString (submissionId input));
     ("judge_id", Scores.JsString (judgeId input));
     ("score_json", Scores.JsString (JSON_stringify (criteriaScores input)));
     ("total_score", Scores.JsNumber total);
     ("feedback", feedbackValue (feedback input))] in
  run world (scoreSubmission JSON_parse JSON_stringify input) w
  = let (answer, w2) := world _ (createScore record) w1 in
    (match answer with
     | Ok score => Ok {| res_score := score; totalScore := total |}
     | Err error =>
         Err (createJudgingError score_create
                [Text "Failed to create score: "; Text (messageOf error)]
                true (Some (submissionId input)))
     end,
     w2,
     [exchange (listRubrics (rubricRequest (hackathonId input)))
               (Ok (rubric :: others));
      exchange (createScore record) answer]).
Proof.
  intros Hwf Hw Hp Hall.
  rewrite (@run_with_rubric W world w w1 input rubric others _ Hwf Hw Hp).
  rewrite (proj2 (checkCriteria_None (criteriaScores input) (submissionId input) criteria) Hall). reflexivity.
Qed.

End WithJSON.

(** *** The workflow linked with lib/api/rubrics.ts and lib/api/scores.ts *)

Import ZeroDB.

(** The imports of the workflow as the application resolves them. *)
Definition implementation (JSON_stringify_value : Scores.JsValue -> Scores.JsValue)
  : forall X : Type, Api X -> Prog Db X :=
  fun X c =>
    match c in Api X return Prog Db X with
    | listRubrics params => Rubrics.listRubrics params
    | createScore input => Scores.createScore JSON_stringify_value input
    end.

(** The record that the workflow passes has no property [criterion_scores],
    which [createScore] of lib/api/scores.ts sums first: the call throws a
    TypeError before anything is written. *)
Lemma createScore_rejects_record
  (JSON_stringify_value : Scores.JsValue -> Scores.JsValue)
  (JSON_stringify : CriteriaScores -> string)
  (input : JudgingInput) (total : float) :
  Scores.createScore JSON_stringify_value (scoreRecord JSON_stringify input total)
  = ZeroDB.throw (ThrownError Scores.reduceOfUndefined).
Proof. reflexivity. Qed.

(** The query that [listRubrics] makes for the rubric of a hackathon. *)
Definition rubricQuery (hackathonId : string) : QueryOptions :=
  {| filter := if truthy hackathonId then Some [("hackathon_id", hackathonId)]
               else None;
     limit := 1;
     offset := 0 |}.

(** Linked with the application's own [createScore], the workflow never
    writes a score: for every input that passes all checks the run ends in
    the error of the phase score_create, after the query for the rubric
    alone. *)
Lemma linked_run_never_inserts
  (JSON_parse : string -> option Criteria)
  (JSON_stringify : CriteriaScores -> string)
  (JSON_stringify_value : Scores.JsValue -> Scores.JsValue)
  (W : Type) (world : World Db W) (w w1 : W) (input : JudgingInput)
  (response : Response Rubric) (rubric : Rubric) (others : list Rubric)
  (criteria : Criteria) :
  wellFormed input ->
  world _ (queryRows "rubrics" (rubricQuery (hackathonId input))) w
  = (Ok response, w1) ->
  success response = true ->
  rows response = Some (rubric :: others) ->
  JSON_parse (criteria_json rubric) = Some criteria ->
  forallb (passes (criteriaScores input)) criteria = true ->
  run world
      (link (implementation JSON_stringify_value)
            (scoreSubmission JSON_parse JSON_stringify input)) w
  = (Err (createJudgingError score_create
            [Text "Failed to create score: "; Text Scores.reduceOfUndefined]
            true (Some (submissionId input))),
     w1,
     [exchange (queryRows "rubrics" (rubricQuery (hackathonId input)))
               (Ok response)]).
Proof.
  intros (H1 & H2 & H3) Hw Hs Hr Hp Hall. unfold scoreSubmission.
  rewrite H1, H2. cbn [negb].
  destruct (criteriaScores input) as [|e0 es] eqn:Es; [congruence|].
  cbn [keys map List.length Nat.eqb]. rewrite <- Es.
  cbn [tryCatch andThen await pbind link implementation].
  unfold Rubrics.listRubrics.
  cbn [Rubrics.lrp_hackathon_id Rubrics.lrp_limit Rubrics.lrp_offset numberOr
       Z.eqb andThen tryCatch await pbind run].
  assert (Eq : {| filter :=
                    if Nat.ltb 0
                         (List.length
                            (if truthy (hackathonId input)
                             then [("hackathon_id", hackathonId input)] else []))
                    then Some (if truthy (hackathonId input)
                               then [("hackathon_id", hackathonId input)] else [])
                    else None;
                  limit := 1; offset := 0 |}
               = rubricQuery (hackathonId input)).
  { unfold rubricQuery. now destruct (truthy (hackathonId input)). }
  rewrite Eq, Hw. cbn [pbind]. rewrite Hs, Hr. cbn [negb pbind link].
  rewrite Hp. rewrite <- Es in Hall.
  rewrite (proj2 (checkCriteria_None (criteriaScores input) (submissionId input) criteria) Hall).
  cbn [tryCatch await pbind link implementation].
  rewrite createScore_rejects_record. reflexivity.
Qed.

(** *** The runs of the test suite *)

Definition quoted (s : string) : string :=
  EmbeddingsNamespace.dquote ++ s ++ EmbeddingsNamespace.dquote.

Definition criterionJson (name weight : string) : string :=
  quoted name ++ ":{" ++ quoted "weight" ++ ":" ++ weight ++ ","
  ++ quoted "max_score" ++ ":10}".

(** The JSON text of the criteria of the tests. *)
Definition mockCriteriaJson : string :=
  "{" ++ criterionJson "innovation" "0.4" ++ ","
  ++ criterionJson "technical" "0.3" ++ ","
  ++ criterionJson "design" "0.3" ++ "}".

(** [JSON.parse] where it is needed: at the text of the criteria of the
    tests it yields those criteria. *)
Definition parseMock (text : string) : option Criteria :=
  if String.eqb text mockCriteriaJson then Some TotalScoreFacts.mockCriteria
  else None.

(** [JSON.stringify] at the scores 8, 7, 9 of the tests. *)
Definition stringifyMock (_ : CriteriaScores) : string :=
  "{" ++ quoted "innovation" ++ ":8," ++ quoted "technical" ++ ":7,"
  ++ quoted "design" ++ ":9}".

Definition stringifyValueMock (v : Scores.JsValue) : Scores.JsValue :=
  match v with
  | Scores.JsUndefined => Scores.JsUndefined
  | _ => Scores.JsString "[]"
  end.

Definition mockRubric : Rubric :=
  {| rubric_id := "rubric-123";
     r_hackathon_id := "hackathon-123";
     r_title := "Judging";
     criteria_json := mockCriteriaJson |}.

Definition inputWith (scores : CriteriaScores) : JudgingInput :=
  {| hackathonId := "hackathon-123";
     submissionId := "submission-123";
     judgeId := "judge-123";
     criteriaScores := scores;
     feedback := Some "Great work!" |}.

(** The imports as the tests mock them: the rubric is found, and
    [createScore] resolves with the record it was given; the state counts
    the scores created. *)
Definition mockApi : World Api nat :=
  fun X c =>
    match c in Api X return nat -> X * nat with
    | listRubrics _ => fun n => (Ok [mockRubric], n)
    | createScore record => fun n => (Ok record, S n)
    end.

Definition fetched : Exchange Api :=
  exchange (listRubrics (rubricRequest "hackathon-123")) (Ok [mockRubric]).

Lemma inputWith_wellFormed (e : string * float) (es : CriteriaScores) :
  wellFormed (inputWith (e :: es)).
Proof. repeat split. discriminate. Qed.

Lemma scoreSubmission_validation_witness :
  (exists message,
      run mockApi (scoreSubmission parseMock stringifyMock (inputWith [])) 0
      = (Err (createJudgingError validation message false None), 0, []))
  /\ run mockApi
         (scoreSubmission parseMock stringifyMock
            (inputWith [("innovation", 8%float); ("technical", 7%float)])) 0
     = (Err (missingError "submission-123" "design"), 0, [fetched])
  /\ run mockApi
         (scoreSubmission parseMock stringifyMock
            (inputWith [("innovation", 8%float); ("technical", 11%float);
                        ("design", 9%float)])) 0
     = (Err (rangeError "submission-123" "technical" 10%float), 0, [fetched]).
Proof.
  split; [|split].
  - apply (proj1 (@scoreSubmission_validation parseMock stringifyMock
                    nat mockApi 0 (inputWith []))).
    right. right. reflexivity.
  - exact (proj1
             (proj2 (@scoreSubmission_validation parseMock stringifyMock nat mockApi 0
                       (inputWith [("innovation", 8%float); ("technical", 7%float)]))
                    0 mockRubric []
                    [("innovation", {| weight := 0.4; max_score := 10 |});
                     ("technical", {| weight := 0.3; max_score := 10 |})]
                    [] "design" {| weight := 0.3; max_score := 10 |}
                    (inputWith_wellFormed _ _) eq_refl eq_refl eq_refl)
             eq_refl eq_refl).
  - exact (proj2
             (proj2 (@scoreSubmission_validation parseMock stringifyMock nat mockApi 0
                       (inputWith [("innovation", 8%float); ("technical", 11%float);
                                   ("design", 9%float)]))
                    0 mockRubric []
                    [("innovation", {| weight := 0.4; max_score := 10 |})]
                    [("design", {| weight := 0.3; max_score := 10 |})]
                    "technical" {| weight := 0.3; max_score := 10 |}
                    (inputWith_wellFormed _ _) eq_refl eq_refl eq_refl)
             11%float eq_refl eq_refl eq_refl eq_refl).
Defined.

(** C5 as stated fails: the criterion design of the rubric has no score, yet
    the error is that of the range of innovation, which comes first in the
    rubric; the missing criterion is not named. *)
Lemma range_error_precedes_missing_criterion :
  parseMock (criteria_json mockRubric) = Some TotalScoreFacts.mockCriteria
  /\ In "design" (keys TotalScoreFacts.mockCriteria)
  /\ get [("innovation", 11%float); ("technical", 7%float)] "design" = None
  /\ run mockApi
         (scoreSubmission parseMock stringifyMock
            (inputWith [("innovation", 11%float); ("technical", 7%float)])) 0
     = (Err (createJudgingError validation
               [Text "Score for "; Text "innovation";
                Text " must be between 0 and "; Num 10%float]
               false (Some "submission-123")),
        0, [fetched]).
Proof. repeat split. cbn. tauto. Qed.

(** A score that is not a number is neither below 0 nor above the maximum:
    the loop lets it pass. *)
Lemma nan_score_passes (name : string) (criterion : Criterion) :
  passes [(name, nan)] (name, criterion) = true.
Proof.
  unfold passes. cbn [get fst snd].
  rewrite String.eqb_refl, ltb_nan_r. reflexivity.
Qed.

(** The successful run of the tests, [createScore] mocked: the score record
    is passed on and the total is 80. *)
Lemma scoreSubmission_calls_createScore_witness :
  run mockApi
      (scoreSubmission parseMock stringifyMock
         (inputWith (TotalScoreFacts.scoresOf 8 7 9))) 0
  = (Ok {| res_score :=
             [("submission_id", Scores.JsString "submission-123");
              ("judge_id", Scores.JsString "judge-123");
              ("score_json",
               Scores.JsString (stringifyMock (TotalScoreFacts.scoresOf 8 7 9)));
              ("total_score", Scores.JsNumber 80%float);
              ("feedback", Scores.JsString "Great work!")];
           totalScore := 80%float |},
     1,
     [fetched;
      exchange (createScore
                  [("submission_id", Scores.JsString "submission-123");
                   ("judge_id", Scores.JsString "judge-123");
                   ("score_json",
                    Scores.JsString (stringifyMock (TotalScoreFacts.scoresOf 8 7 9)));
                   ("total_score", Scores.JsNumber 80%float);
                   ("feedback", Scores.JsString "Great work!")])
               (Ok [("submission_id", Scores.JsString "submission-123");
                    ("judge_id", Scores.JsString "judge-123");
                    ("score_json",
                     Scores.JsString (stringifyMock (TotalScoreFacts.scoresOf 8 7 9)));
                    ("total_score", Scores.JsNumber 80%float);
                    ("feedback", Scores.JsString "Great work!")])]).
Proof.
  exact (@scoreSubmission_calls_createScore parseMock stringifyMock nat mockApi
           0 0 (inputWith (TotalScoreFacts.scoresOf 8 7 9)) mockRubric []
           TotalScoreFacts.mockCriteria
           (inputWith_wellFormed _ _) eq_refl eq_refl eq_refl).
Defined.

(** C6, where the code departs from it: the valid input of the test suite,
    the workflow linked with [listRubrics] and [createScore] of the
    application and run against a store that holds the rubric and accepts
    every insert.  [createScore]
    throws on the record it is given; the run ends in the error of the phase
    score_create and the store has received no insert. *)
Theorem scoreSubmission_linked_never_persists :
  run (RubricsFacts.acceptingStore [mockRubric])
      (link (implementation stringifyValueMock)
            (scoreSubmission parseMock stringifyMock
               (inputWith (TotalScoreFacts.scoresOf 8 7 9)))) 0
  = (Err (createJudgingError score_create
            [Text "Failed to create score: ";
             Text "Cannot read properties of undefined (reading 'reduce')"]
            true (Some "submission-123")),
     0,
     [exchange (queryRows "rubrics"
                  {| filter := Some [("hackathon_id", "hackathon-123")];
                     limit := 1; offset := 0 |})
               (Ok {| success := true; rows := Some [mockRubric];
                      error := None |})]).
Proof. reflexivity. Qed.

(** *** Every way a run can end *)

Section Outcomes.

Variable JSON_parse : string -> option Criteria.
Variable JSON_stringify : CriteriaScores -> string.

Lemma blank_or_wellFormed (input : JudgingInput) :
  blank input \/ wellFormed input.
Proof.
  unfold blank, wellFormed.
  destruct (truthy (trim (submissionId input))); [|auto].
  destruct (truthy (trim (judgeId input))); [|auto].
  destruct (criteriaScores input); [auto|].
  right. repeat split. discriminate.
Qed.

(** The rubric is not found: the call rejects, or resolves with no rubric. *)
Definition fetchFailure (answer : result Thrown (list Rubric)) : option string :=
  match answer with
  | Err error => Some (messageOf error)
  | Ok [] => Some "No rubric found for this hackathon"
  | Ok (_ :: _) => None
  end.

Lemma run_fetch_failure (W : Type) (world : World Api W) (w w1 : W)
  (input : JudgingInput) (answer : result Thrown (list Rubric)) (reason : string) :
  wellFormed input ->
  world _ (listRubrics (rubricRequest (hackathonId input))) w = (answer, w1) ->
  fetchFailure answer = Some reason ->
  run world (scoreSubmission JSON_parse JSON_stringify input) w
  = (Err (createJudgingError rubric_fetch
            [Text "Failed to fetch rubric: "; Text reason] true None),
     w1,
     [exchange (listRubrics (rubricRequest (hackathonId input))) answer]).
Proof.
  intros (H1 & H2 & H3) Hw Hf. unfold scoreSubmission.
  rewrite H1, H2. cbn [negb].
  destruct (criteriaScores input) as [|e0 es] eqn:Es; [congruence|].
  cbn [keys map List.length Nat.eqb].
  fold (rubricRequest (hackathonId input)).
  cbn [tryCatch andThen await pbind run].
  rewrite Hw.
  destruct answer as [[|rubric others] | error]; cbn in Hf; try discriminate;
    injection Hf as <-; reflexivity.
Qed.

Lemma run_unparsable (W : Type) (world : World Api W) (w w1 : W)
  (input : JudgingInput) (rubric : Rubric) (others : list Rubric) :
  wellFormed input ->
  world _ (listRubrics (rubricRequest (hackathonId input))) w
  = (Ok (rubric :: others), w1) ->
  JSON_parse (criteria_json rubric) = None ->
  run world (scoreSubmission JSON_parse JSON_stringify input) w
  = (Err (createJudgingError validation
            [Text "Invalid rubric criteria format"] false
            (Some (submissionId input))),
     w1,
     [exchange (listRubrics (rubricRequest (hackathonId input)))
               (Ok (rubric :: others))]).
Proof.
  intros (H1 & H2 & H3) Hw Hp. unfold scoreSubmission.
  rewrite H1, H2. cbn [negb].
  destruct (criteriaScores input) as [|e0 es] eqn:Es; [congruence|].
  cbn [keys map List.length Nat.eqb].
  fold (rubricRequest (hackathonId input)).
  cbn [tryCatch andThen await pbind run].
  rewrite Hw. cbn [pbind]. rewrite Hp. reflexivity.
Qed.

(** X15. A run that succeeds has passed every check.  When
    [scoreSubmission] returns a result, the identifiers were not blank, the
    call for the rubric resolved with a rubric whose criteria parse, every
    criterion of that rubric passed the loop (the scores hold a score of
    their own for it that is neither below 0 nor above its maximum, or they
    hold none and its name is one of [Object.prototype]), the total returned
    is [calculateTotalScore] of the scores for these criteria, and
    [createScore], called once and last with that total, resolved with the
    score returned.  When no criterion of the rubric is named like a
    property of [Object.prototype], the scores hold an entry for every
    criterion. *)
Theorem scoreSubmission_success (W : Type) (world : World Api W) (w w2 : W)
  (input : JudgingInput) (result : JudgingResult) (log : list (Exchange Api)) :
  run world (scoreSubmission JSON_parse JSON_stringify input) w
  = (Ok result, w2, log) ->
  wellFormed input
  /\ exists rubric others criteria w1,
       world _ (listRubrics (rubricRequest (hackathonId input))) w
       = (Ok (rubric :: others), w1)
       /\ JSON_parse (criteria_json rubric) = Some criteria
       /\ forallb (passes (criteriaScores input)) criteria = true
       /\ (forallb (fun name => negb (inherited name)) (keys criteria) = true ->
           validateAllCriteriaScored (criteriaScores input) criteria = true)
       /\ totalScore result = calculateTotalScore (criteriaScores input) criteria
       /\ world _ (createScore (scoreRecord JSON_stringify input (totalScore result))) w1
          = (Ok (res_score result), w2)
       /\ log = [exchange (listRubrics (rubricRequest (hackathonId input)))
                          (Ok (rubric :: others));
                 exchange (createScore
                             (scoreRecord JSON_stringify input (totalScore result)))
                          (Ok (res_score result))].
Proof.
  intros H.
  destruct (blank_or_wellFormed input) as [Hb | Hwf].
  { destruct (@run_blank_input JSON_parse JSON_stringify W world w input Hb)
      as [m E].
    rewrite E in H. discriminate. }
  split; [assumption|].
  destruct (world _ (listRubrics (rubricRequest (hackathonId input))) w)
    as [answer w1] eqn:Hw.
  destruct (fetchFailure answer) as [reason|] eqn:Hf.
  { rewrite (@run_fetch_failure W world w w1 input answer reason Hwf Hw Hf) in H.
    discriminate. }
  destruct answer as [[|rubric others] | error]; try discriminate.
  destruct (JSON_parse (criteria_json rubric)) as [criteria|] eqn:Hp.
  2:{ rewrite (@run_unparsable W world w w1 input rubric others Hwf Hw Hp) in H.
      discriminate. }
  rewrite (@run_with_rubric JSON_parse JSON_stringify W world w w1 input rubric
             others criteria Hwf Hw Hp) in H.
  cbn zeta in H.
  destruct (checkCriteria (criteriaScores input) (submissionId input) criteria)
    as [e|] eqn:Hc; [discriminate|].
  destruct (world _ (createScore
                       (scoreRecord JSON_stringify input
                          (calculateTotalScore (criteriaScores input) criteria)))
                  w1) as [[score | error] w3] eqn:Hs; [|discriminate].
  injection H as <- <- <-. cbn [totalScore res_score].
  exists rubric, others, criteria, w1.
  pose proof (proj1 (checkCriteria_None _ _ _) Hc) as Hall.
  split; [reflexivity|]. split; [assumption|]. split; [assumption|].
  split; [intros Hn; now apply passes_validate|].
  repeat split; try assumption; reflexivity.
Qed.

Lemma checkCriteria_error (scores : CriteriaScores) (sid : string)
  (criteria : Criteria) (e : JudgingError) :
  checkCriteria scores sid criteria = Some e ->
  phase e = validation /\ canRetry e = false /\ err_submissionId e = Some sid.
Proof.
  induction criteria as [|[name c] rest IH]; [discriminate|].
  rewrite checkCriteria_step.
  destruct (get scores name) as [s|].
  - destruct ((s <? 0)%float || (max_score c <? s)%float); [|exact IH].
    intros H. injection H as <-. auto.
  - destruct (inherited name); [exact IH|].
    intros H. injection H as <-. auto.
Qed.

(** X16. Every way [scoreSubmission] fails.  An error thrown is one of
    five: the validation error of a blank input, before any call; the
    retryable error of the phase rubric_fetch, when the call for the rubric
    rejects or resolves with no rubric, whose message is [Failed to fetch
    rubric: ] followed by the reason (for no rubric: [No rubric found for
    this hackathon]); the validation error [Invalid rubric criteria format]
    when the criteria of the rubric found do not parse; the validation error
    of the loop over the criteria, at the first criterion that does not
    pass it; or, every criterion having passed, the retryable error of the
    phase score_create when [createScore] rejects.  In the first four the call
    for the rubric is the only call that may have been made, in the last
    [createScore] was called once, after it.  So an error is retryable
    exactly when its phase is not validation. *)
Theorem scoreSubmission_failure (W : Type) (world : World Api W) (w w2 : W)
  (input : JudgingInput) (e : JudgingError) (log : list (Exchange Api)) :
  run world (scoreSubmission JSON_parse JSON_stringify input) w
  = (Err e, w2, log) ->
  let fetch := listRubrics (rubricRequest (hackathonId input)) in
  ((exists message,
       blank input /\ log = []
       /\ e = createJudgingError validation message false None)
   \/ (exists answer reason,
          fetchFailure answer = Some reason /\ log = [exchange fetch answer]
          /\ e = createJudgingError rubric_fetch
                   [Text "Failed to fetch rubric: "; Text reason] true None)
   \/ (exists rubric others,
          JSON_parse (criteria_json rubric) = None
          /\ log = [exchange fetch (Ok (rubric :: others))]
          /\ e = createJudgingError validation
                   [Text "Invalid rubric criteria format"] false
                   (Some (submissionId input)))
   \/ (exists rubric others criteria,
          JSON_parse (criteria_json rubric) = Some criteria
          /\ log = [exchange fetch (Ok (rubric :: others))]
          /\ checkCriteria (criteriaScores input) (submissionId input) criteria
             = Some e
          /\ phase e = validation /\ canRetry e = false)
   \/ (exists rubric others criteria error,
          JSON_parse (criteria_json rubric) = Some criteria
          /\ forallb (passes (criteriaScores input)) criteria = true
          /\ log = [exchange fetch (Ok (rubric :: others));
                    exchange (createScore
                                (scoreRecord JSON_stringify input
                                   (calculateTotalScore (criteriaScores input)
                                      criteria)))
                             (Err error)]
          /\ e = createJudgingError score_create
                   [Text "Failed to create score: "; Text (messageOf error)]
                   true (Some (submissionId input))))
  /\ (canRetry e = true <-> phase e <> validation).
Proof.
  intros H. cbn zeta.
  destruct (blank_or_wellFormed input) as [Hb | Hwf].
  { destruct (@run_blank_input JSON_parse JSON_stringify W world w input Hb)
      as [m E].
    rewrite E in H. injection H as <- _ <-. cbn.
    split; [left; eauto | split; [discriminate | congruence]]. }
  destruct (world _ (listRubrics (rubricRequest (hackathonId input))) w)
    as [answer w1] eqn:Hw.
  destruct (fetchFailure answer) as [reason|] eqn:Hf.
  { rewrite (@run_fetch_failure W world w w1 input answer reason Hwf Hw Hf) in H.
    injection H as <- _ <-. cbn.
    split; [right; left; eauto | split; [discriminate | reflexivity]]. }
  destruct answer as [[|rubric others] | error]; try discriminate.
  destruct (JSON_parse (criteria_json rubric)) as [criteria|] eqn:Hp.
  2:{ rewrite (@run_unparsable W world w w1 input rubric others Hwf Hw Hp) in H.
      injection H as <- _ <-. cbn.
      split; [right; right; left; eauto | split; [discriminate | congruence]]. }
  rewrite (@run_with_rubric JSON_parse JSON_stringify W world w w1 input rubric
             others criteria Hwf Hw Hp) in H.
  cbn zeta in H.
  destruct (checkCriteria (criteriaScores input) (submissionId input) criteria)
    as [e'|] eqn:Hc.
  - injection H as <- _ <-.
    destruct (checkCriteria_error _ _ _ Hc) as (Hv1 & Hv2 & _).
    split; [right; right; right; left; eauto 10|].
    rewrite Hv1, Hv2. split; [discriminate | congruence].
  - destruct (world _ (createScore
                         (scoreRecord JSON_stringify input
                            (calculateTotalScore (criteriaScores input) criteria)))
                    w1) as [[score | error] w3] eqn:Hs; [discriminate|].
    injection H as <- _ <-. cbn.
    split; [|split; [discriminate | reflexivity]].
    right. right. right. right.
    exists rubric, others, criteria, error.
    split; [assumption|]. split; [now apply checkCriteria_None in Hc|].
    split; reflexivity.
Qed.

(** X17. [validateAllCriteriaScored] holds exactly when every criterion of
    the rubric has an entry of the scores' own.  The loop of
    [scoreSubmission] asks less: when it passes, every criterion has such an
    entry or is named like a property of [Object.prototype].  So for a
    rubric without such a name the loop passes only when
    [validateAllCriteriaScored] holds, and when that fails the loop ends in
    a validation error; but a criterion named like a property of
    [Object.prototype] and left without a score passes the loop, while
    [validateAllCriteriaScored] is false. *)
Theorem validateAllCriteriaScored_spec (scores : CriteriaScores)
  (criteria : Criteria) (submissionId : string) :
  (validateAllCriteriaScored scores criteria = true
   <-> forall name, In name (keys criteria) -> has name scores = true)
  /\ (checkCriteria scores submissionId criteria = None ->
      forall name, In name (keys criteria) ->
                   has name scores = true \/ inherited name = true)
  /\ (forallb (fun name => negb (inherited name)) (keys criteria) = true ->
      (checkCriteria scores submissionId criteria = None ->
       validateAllCriteriaScored scores criteria = true)
      /\ (validateAllCriteriaScored scores criteria = false ->
          exists e, checkCriteria scores submissionId criteria = Some e
                    /\ phase e = validation /\ canRetry e = false))
  /\ (forall (name : string) (criterion : Criterion),
         inherited name = true -> has name scores = false ->
         checkCriteria scores submissionId [(name, criterion)] = None
         /\ validateAllCriteriaScored scores [(name, criterion)] = false).
Proof.
  assert (A : validateAllCriteriaScored scores criteria = true
              <-> forall name, In name (keys criteria) -> has name scores = true).
  { unfold validateAllCriteriaScored. rewrite forallb_forall.
    split; intros H name Hin; specialize (H name Hin).
    - apply TotalScoreFacts.has_In.
      apply existsb_exists in H as (k & Hk & E).
      apply String.eqb_eq in E. now subst.
    - apply TotalScoreFacts.has_In in H.
      apply existsb_exists. exists name. split; [assumption | apply String.eqb_refl]. }
  split; [exact A|]. split; [|split].
  - intros Hc name Hin.
    apply checkCriteria_None in Hc. rewrite forallb_forall in Hc.
    unfold keys in Hin. apply in_map_iff in Hin as ([k c] & <- & Hin).
    specialize (Hc _ Hin). unfold passes in Hc. cbn [fst snd] in *.
    unfold has. destruct (get scores k); auto.
  - intros Hn.
    assert (B : checkCriteria scores submissionId criteria = None ->
                validateAllCriteriaScored scores criteria = true).
    { intros Hc. apply checkCriteria_None in Hc. now apply passes_validate. }
    split; [exact B|].
    intros Hf.
    destruct (checkCriteria scores submissionId criteria) as [e|] eqn:Hc.
    + exists e. split; [reflexivity|].
      destruct (checkCriteria_error _ _ _ Hc) as (H1 & H2 & _). auto.
    + rewrite (B eq_refl) in Hf. discriminate.
  - intros name criterion Hi Hh. split.
    + rewrite checkCriteria_step. unfold has in Hh.
      destruct (get scores name); [discriminate|]. now rewrite Hi.
    + unfold validateAllCriteriaScored. cbn [keys map fst forallb].
      rewrite andb_true_r.
      destruct (existsb (String.eqb name) (keys scores)) eqn:E; [|reflexivity].
      apply existsb_exists in E as (k & Hk & E).
      apply String.eqb_eq in E. subst k.
      apply (TotalScoreFacts.has_In scores name) in Hk. congruence.
Qed.

End Outcomes.

(** The imports when the hackathon has no rubric. *)
Definition noRubricApi : World Api nat :=
  fun X c =>
    match c in Api X return nat -> X * nat with
    | listRubrics _ => fun n => (Ok [], n)
    | createScore record => fun n => (Ok record, S n)
    end.

Lemma scoreSubmission_success_witness :
  wellFormed (inputWith (TotalScoreFacts.scoresOf 8 7 9))
  /\ exists rubric others criteria w1,
       @mockApi _ (listRubrics (rubricRequest "hackathon-123")) 0
       = (Ok (rubric :: others), w1)
       /\ parseMock (criteria_json rubric) = Some criteria
       /\ forallb (passes (TotalScoreFacts.scoresOf 8 7 9)) criteria = true
       /\ (forallb (fun name => negb (inherited name)) (keys criteria) = true ->
           validateAllCriteriaScored (TotalScoreFacts.scoresOf 8 7 9) criteria = true)
       /\ 80%float = calculateTotalScore (TotalScoreFacts.scoresOf 8 7 9) criteria
       /\ @mockApi _ (createScore
                       (scoreRecord stringifyMock
                          (inputWith (TotalScoreFacts.scoresOf 8 7 9)) 80%float)) w1
          = (Ok (scoreRecord stringifyMock
                   (inputWith (TotalScoreFacts.scoresOf 8 7 9)) 80%float), 1)
       /\ [fetched;
           exchange (createScore
                       (scoreRecord stringifyMock
                          (inputWith (TotalScoreFacts.scoresOf 8 7 9)) 80%float))
                    (Ok (scoreRecord stringifyMock
                           (inputWith (TotalScoreFacts.scoresOf 8 7 9)) 80%float))]
          = [exchange (listRubrics (rubricRequest "hackathon-123"))
                      (Ok (rubric :: others));
             exchange (createScore
                         (scoreRecord stringifyMock
                            (inputWith (TotalScoreFacts.scoresOf 8 7 9)) 80%float))
                      (Ok (scoreRecord stringifyMock
                             (inputWith (TotalScoreFacts.scoresOf 8 7 9)) 80%float))].
Proof.
  exact (@scoreSubmission_success parseMock stringifyMock nat mockApi 0 1
           (inputWith (TotalScoreFacts.scoresOf 8 7 9))
           {| res_score := scoreRecord stringifyMock
                             (inputWith (TotalScoreFacts.scoresOf 8 7 9)) 80%float;
              totalScore := 80%float |}
           [fetched;
            exchange (createScore
                        (scoreRecord stringifyMock
                           (inputWith (TotalScoreFacts.scoresOf 8 7 9)) 80%float))
                     (Ok (scoreRecord stringifyMock
                            (inputWith (TotalScoreFacts.scoresOf 8 7 9)) 80%float))]
           eq_refl).
Defined.

Lemma scoreSubmission_failure_witness :
  canRetry (createJudgingError rubric_fetch
              [Text "Failed to fetch rubric: ";
               Text "No rubric found for this hackathon"] true None) = true
  <-> phase (createJudgingError rubric_fetch
               [Text "Failed to fetch rubric: ";
                Text "No rubric found for this hackathon"] true None)
      <> validation.
Proof.
  exact (proj2 (@scoreSubmission_failure parseMock stringifyMock nat noRubricApi
                  0 0 (inputWith (TotalScoreFacts.scoresOf 8 7 9))
                  (createJudgingError rubric_fetch
                     [Text "Failed to fetch rubric: ";
                      Text "No rubric found for this hackathon"] true None)
                  [exchange (listRubrics (rubricRequest "hackathon-123")) (Ok [])]
                  eq_refl)).
Defined.

End JudgingFacts.

(** ** Writing a score *)

Module ScoresFacts.
Import JsString Effects EffectsFacts ZeroDB Scores.
Import Floats.

Section WithJSON.

Variable JSON_stringify : JsValue -> JsValue.

(** The row that [createScore] writes for an input whose criterion scores
    are [scores], under the identifier [uuid]. *)
Definition scoreRow (input : JsObject) (scores : list CriterionScore)
  (uuid : string) : JsObject :=
  [("score_id", JsString uuid);
   ("submission_id", prop input "submission_id");
   ("judge_participant_id", prop input "judge_participant_id");
   ("score_json", JSON_stringify (JsCriterionScores scores));
   ("total_score",
    JsNumber (fold_left (fun sum cs => (sum + score cs)%float) scores 0%float));
   ("feedback", prop input "feedback")].

(** X21. When [createScore] writes.  If the property [criterion_scores] of
    its input is an array of criterion scores, it draws an identifier and
    inserts one row into the table scores, whose total is the sum of the
    scores added from the left starting at 0 and whose submission, judge and
    feedback are those properties of the input (undefined where the input
    has none); the row is returned when the store reports success, else the
    store's error or [Failed to create score] is thrown, and a rejection is
    passed on.  If the property is missing or is no array, a TypeError is
    thrown before any call: nothing is drawn and nothing is written. *)
Theorem createScore_spec (W : Type) (world : World Db W) (w : W)
  (input : JsObject) :
  run world (createScore JSON_stringify input) w
  = match prop input "criterion_scores" with
    | JsCriterionScores scores =>
        let (uuid, w1) := world _ randomUUID w in
        let insert := insertRows "scores" [scoreRow input scores uuid] in
        let (answer, w2) := world _ insert w1 in
        (match answer with
         | Ok response =>
             if success response then Ok (scoreRow input scores uuid)
             else Err (ThrownError
                         (errorOr (error response) "Failed to create score"))
         | Err e => Err e
         end,
         w2, [exchange randomUUID uuid; exchange insert answer])
    | JsUndefined => (Err (ThrownError reduceOfUndefined), w, [])
    | JsString _ | JsNumber _ => (Err (ThrownError reduceNotAFunction), w, [])
    end.
Proof.
  unfold createScore.
  destruct (prop input "criterion_scores") as [|s|x|scores] eqn:P;
    try reflexivity.
  cbn [calculateTotalScore run].
  destruct (world _ randomUUID w) as [uuid w1].
  fold (scoreRow input scores uuid).
  cbn [andThen tryCatch await pbind run].
  match goal with
  | |- context [world ?X (insertRows ?t ?r) w1] =>
      destruct (world X (insertRows t r) w1) as [[response | e] w2]
  end; cbn; [|reflexivity].
  destruct (success response); reflexivity.
Qed.

End WithJSON.

End ScoresFacts.

(** ** Participants and enrollment *)

Module ParticipantsFacts.
Import JsString Effects EffectsFacts Rows ZeroDBClient Participants.

(** The query by which [createParticipant] looks an email up. *)
Definition lookup (email : string) : QueryOptions :=
  {| filter := Some [("email", email)]; limit := Some 1%Z; offset := None |}.

(** The participant that [createParticipant] makes of its input and of the
    identifier drawn. *)
Definition newParticipant (input : CreateParticipantInput) (uuid : string)
  : Participant :=
  {| participant_id := uuid;
     name := cpi_name input;
     email := cpi_email input;
     org := cpi_org input |}.

(** What becomes of the answer to an insert: the value written when the store
    reports success, else an error with the store's message or a default. *)
Definition inserted {T A : Type} (answer : result Thrown (ZeroDB.Response T))
  (fallback : string) (value : A) : result Thrown A :=
  match answer with
  | Ok response =>
      if ZeroDB.success response then Ok value
      else Err (ThrownError (ZeroDB.errorOr (ZeroDB.error response) fallback))
  | Err e => Err e
  end.

Lemma run_createParticipant (W : Type) (world : World Db W) (w : W)
  (input : CreateParticipantInput) :
  run world (createParticipant input) w
  = let query := queryRows participants (lookup (cpi_email input)) in
    let (looked, w1) := world _ query w in
    match looked with
    | Err e => (Err e, w1, [exchange query looked])
    | Ok response =>
        match firstRow response with
        | Some existing => (Ok existing, w1, [exchange query looked])
        | None =>
            let (uuid, w2) := world _ randomUUID w1 in
            let insert := insertRows participants [newParticipant input uuid] in
            let (answer, w3) := world _ insert w2 in
            (inserted answer "Failed to create participant"
                      (newParticipant input uuid),
             w3,
             [exchange query looked; exchange randomUUID uuid;
              exchange insert answer])
        end
    end.
Proof.
  unfold createParticipant. fold (lookup (cpi_email input)).
  cbn [andThen tryCatch await pbind run Row].
  match goal with
  | |- context [world ?X (queryRows ?t ?o) w] =>
      destruct (world X (queryRows t o) w) as [[response | e] w1]
  end; [|reflexivity].
  cbn [pbind].
  destruct (firstRow response) as [existing|]; [reflexivity|].
  cbn [pbind run].
  destruct (world _ randomUUID w1) as [uuid w2].
  fold (newParticipant input uuid).
  match goal with
  | |- context [world ?X (insertRows ?t ?r) w2] =>
      destruct (world X (insertRows t r) w2) as [[response' | e] w3]
  end; cbn; [|reflexivity].
  destruct (ZeroDB.success response'); reflexivity.
Qed.

(** X22. [createParticipant] looks the email up before it writes.  When the
    store answers the lookup with success and a row, that participant is
    returned and nothing else happens: no identifier is drawn, nothing is
    inserted.  When the lookup rejects, the rejection is thrown and nothing
    is inserted.  In every other case, which includes a lookup that the store
    reports as failed, one participant is inserted, made of the name, email
    and organization of the input under a fresh identifier, and returned if
    the store reports success. *)
Theorem createParticipant_lookup_or_create (W : Type) (world : World Db W)
  (w w1 : W) (input : CreateParticipantInput)
  (looked : result Thrown (ZeroDB.Response Participant)) :
  world _ (queryRows participants (lookup (cpi_email input))) w = (looked, w1) ->
  let query := exchange (queryRows participants (lookup (cpi_email input))) looked in
  match looked with
  | Err e => run world (createParticipant input) w = (Err e, w1, [query])
  | Ok response =>
      match firstRow response with
      | Some existing =>
          run world (createParticipant input) w = (Ok existing, w1, [query])
      | None =>
          exists uuid w2 answer w3,
            world _ randomUUID w1 = (uuid, w2)
            /\ world _ (insertRows participants [newParticipant input uuid]) w2
               = (answer, w3)
            /\ run world (createParticipant input) w
               = (inserted answer "Failed to create participant"
                           (newParticipant input uuid),
                  w3,
                  [query; exchange randomUUID uuid;
                   exchange (insertRows participants [newParticipant input uuid])
                            answer])
      end
  end.
Proof.
  intros Hw. rewrite run_createParticipant. cbn zeta. cbn [Row] in *. rewrite Hw.
  destruct looked as [response | e]; [|reflexivity].
  destruct (firstRow response) as [existing|]; [reflexivity|].
  destruct (world _ randomUUID w1) as [uuid w2] eqn:E1.
  match goal with
  | |- context [world ?X (insertRows ?t ?r) w2] =>
      destruct (world X (insertRows t r) w2) as [answer w3] eqn:E2
  end.
  exists uuid, w2, answer, w3. auto.
Qed.

(** The enrollment that [registerAndEnroll] writes for a participant. *)
Definition enrollmentOf (enrollmentInput : EnrollmentInput)
  (participant : Participant) : HackathonParticipant :=
  {| hp_hackathon_id := ei_hackathon_id enrollmentInput;
     hp_participant_id := participant_id participant;
     hp_role := roleName (ei_role enrollmentInput) |}.

(** X23. [registerAndEnroll] is [createParticipant] followed by one insert
    into hackathon_participants.  When [createParticipant] throws, its error
    is thrown and no enrollment is written.  Otherwise the enrollment
    written carries the hackathon and the role of the input and the
    identifier of the participant that [createParticipant] returned, found
    or new; when that insert fails or rejects the error is thrown after the
    calls of [createParticipant], none of which is undone. *)
Theorem registerAndEnroll_spec (W : Type) (world : World Db W) (w : W)
  (participantInput : CreateParticipantInput) (enrollmentInput : EnrollmentInput) :
  run world (registerAndEnroll participantInput enrollmentInput) w
  = let '(created, w1, log) := run world (createParticipant participantInput) w in
    match created with
    | Err e => (Err e, w1, log)
    | Ok participant =>
        let enrollment := enrollmentOf enrollmentInput participant in
        let insert := insertRows hackathon_participants [enrollment] in
        let (answer, w2) := world _ insert w1 in
        (inserted answer "Failed to enroll participant" (participant, enrollment),
         w2,
         (log ++ [exchange insert answer])%list)
    end.
Proof.
  unfold registerAndEnroll, andThen at 1, tryCatch at 1.
  rewrite run_pbind.
  destruct (run world (createParticipant participantInput) w)
    as [[[participant | e] w1] log]; [|cbn; now rewrite app_nil_r].
  unfold enrollParticipant.
  cbn [epi_hackathon_id epi_participant_id epi_role].
  fold (enrollmentOf enrollmentInput participant).
  cbn [andThen tryCatch await pbind run Row].
  match goal with
  | |- context [world ?X (insertRows ?t ?r) w1] =>
      destruct (world X (insertRows t r) w1) as [[response | e] w2]
  end; cbn; [|reflexivity].
  destruct (ZeroDB.success response); reflexivity.
Qed.

(** A store that holds one participant and accepts every insert; the state
    counts the inserts. *)
Definition ada : Participant :=
  {| participant_id := "6f1c2a9e-0b7d-4c3e-9a51-7d2e8c4b1f60";
     name := "Ada"; email := "ada@example.org"; org := None |}.

Definition storeWithAda : World Db nat :=
  fun X c =>
    match c in Db X return nat -> X * nat with
    | insertRows _ _ =>
        fun n => (Ok {| ZeroDB.success := true; ZeroDB.rows := None;
                        ZeroDB.error := None |}, S n)
    | queryRows table _ =>
        fun n =>
          (Ok {| ZeroDB.success := true;
                 ZeroDB.rows :=
                   Some (match table return list (Row table) with
                         | participants => [ada]
                         | _ => []
                         end);
                 ZeroDB.error := None |}, n)
    | randomUUID => fun n => ("9b2f6c1e-5d3a-4e7b-8f10-2a4c6e8b0d12", n)
    end.

Lemma createParticipant_lookup_or_create_witness :
  run storeWithAda
      (createParticipant {| cpi_name := "Ada L."; cpi_email := "ada@example.org";
                            cpi_org := Some "Analytical Engines" |}) 0
  = (Ok ada, 0,
     [exchange (queryRows participants (lookup "ada@example.org"))
               (Ok {| ZeroDB.success := true; ZeroDB.rows := Some [ada];
                      ZeroDB.error := None |})]).
Proof.
  exact (@createParticipant_lookup_or_create nat storeWithAda 0 0
           {| cpi_name := "Ada L."; cpi_email := "ada@example.org";
              cpi_org := Some "Analytical Engines" |}
           (Ok {| ZeroDB.success := true; ZeroDB.rows := Some [ada];
                  ZeroDB.error := None |})
           eq_refl).
Defined.

End ParticipantsFacts.

(** ** Queries for submissions and scores *)

Module QueriesFacts.
Import JsString Effects EffectsFacts Rows ZeroDBClient.
Import SubmissionsQueries JudgingQueries ScoresQueries.

Definition listed {T : Type} := @RubricsFacts.listed T.

(** The query that [getSubmissionsByHackathon] makes. *)
Definition submissionsOf (hackathonId : string) : QueryOptions :=
  {| filter := if truthy hackathonId
               then Some [("hackathon_id", hackathonId)] else None;
     limit := Some 100%Z;
     offset := Some 0%Z |}.

Lemma run_getSubmissionsByHackathon (W : Type) (world : World Db W) (w : W)
  (hackathonId : string) :
  run world (getSubmissionsByHackathon hackathonId) w
  = let query := queryRows submissions (submissionsOf hackathonId) in
    let (answer, w1) := world _ query w in
    (listed answer "Failed to list submissions", w1, [exchange query answer]).
Proof.
  unfold getSubmissionsByHackathon, listSubmissions.
  cbn [lsp_project_id lsp_hackathon_id lsp_limit lsp_offset entry app
       ZeroDB.numberOr].
  assert (E : filterOrUndefined (entry "hackathon_id" (Some hackathonId))
              = if truthy hackathonId
                then Some [("hackathon_id", hackathonId)] else None)
    by (cbn [entry]; destruct (truthy hackathonId); reflexivity).
  cbn [entry] in E. rewrite E. fold (submissionsOf hackathonId).
  cbn [andThen tryCatch await pbind run Row].
  match goal with
  | |- context [world ?X (queryRows ?t ?o) w] =>
      destruct (world X (queryRows t o) w) as [[response | e] w1]
  end; cbn; [|reflexivity].
  destruct (ZeroDB.success response); reflexivity.
Qed.

(** X24. [getSubmissionsForJudging] does not use the track: whatever
    [trackId] is, it makes the one query of [getSubmissionsByHackathon] for
    the hackathon (filtered on the hackathon unless the id is empty, limit
    100, offset 0) and returns all its rows.  Every failure, a rejection as
    well as an answer that the store reports as failed, is thrown as an
    APIError of status 500 whose message is [Failed to fetch submissions: ]
    followed by the message of the failure. *)
Theorem getSubmissionsForJudging_spec (W : Type) (world : World Db W) (w : W)
  (hackathonId : string) (trackId : option string) :
  run world (getSubmissionsForJudging hackathonId trackId) w
  = let query := queryRows submissions (submissionsOf hackathonId) in
    let (answer, w1) := world _ query w in
    (match listed answer "Failed to list submissions" with
     | Ok rows => Ok rows
     | Err error =>
         Err {| HackathonLifecycle.api_message :=
                  "Failed to fetch submissions: " ++ messageOf error;
                HackathonLifecycle.statusCode := 500 |}
     end,
     w1, [exchange query answer]).
Proof.
  unfold getSubmissionsForJudging, tryCatch.
  rewrite run_pbind, run_getSubmissionsByHackathon. cbn zeta.
  match goal with
  | |- context [world ?X (queryRows ?t ?o) w] =>
      destruct (world X (queryRows t o) w) as [answer w1]
  end.
  destruct (listed answer "Failed to list submissions") as [rows | e]; cbn;
    [|reflexivity].
  destruct (negb (HackathonLifecycle.truthyOpt trackId)); reflexivity.
Qed.

(** The two queries of [getScoresByHackathon]. *)
Definition submissionsQuery (hackathonId : string) : QueryOptions :=
  {| filter := Some [("hackathon_id", hackathonId)];
     limit := None; offset := None |}.

Definition allScoresQuery : QueryOptions :=
  {| filter := None; limit := Some 1000%Z; offset := None |}.

(** The scores among [all] that belong to one of [found]. *)
Definition scoresOf (found : list Submission) (all : list Score) : list Score :=
  List.filter
    (fun s => existsb (String.eqb (sc_submission_id s)) (map submission_id found))
    all.

Lemma run_getScoresByHackathon (W : Type) (world : World Db W) (w : W)
  (hackathonId : string) :
  run world (getScoresByHackathon hackathonId) w
  = let first := queryRows submissions (submissionsQuery hackathonId) in
    let (found, w1) := world _ first w in
    match found with
    | Err e => (Err e, w1, [exchange first found])
    | Ok response =>
        match firstRow response with
        | None => (Ok [], w1, [exchange first found])
        | Some _ =>
            let second := queryRows scores allScoresQuery in
            let (answer, w2) := world _ second w1 in
            (match listed answer "Failed to fetch scores" with
             | Ok all => Ok (scoresOf (rowsOrEmpty response) all)
             | Err e => Err e
             end,
             w2, [exchange first found; exchange second answer])
        end
    end.
Proof.
  unfold getScoresByHackathon.
  fold (submissionsQuery hackathonId). fold allScoresQuery.
  cbn [andThen tryCatch await pbind run Row].
  match goal with
  | |- context [world ?X (queryRows ?t ?o) w] =>
      destruct (world X (queryRows t o) w) as [[response | e] w1]
  end; [|reflexivity].
  cbn [pbind].
  destruct (firstRow response) as [row|]; [|reflexivity].
  cbn [pbind run].
  match goal with
  | |- context [world ?X (queryRows ?t ?o) w1] =>
      destruct (world X (queryRows t o) w1) as [[response2 | e] w2]
  end; cbn; [|reflexivity].
  destruct (ZeroDB.success response2); reflexivity.
Qed.

(** X25. [getScoresByHackathon] first asks for the submissions of the
    hackathon.  When that query rejects, the rejection is thrown; when the
    store reports it as failed or returns no row, the result is the empty
    list and the scores are not asked for.  Otherwise it asks for the first
    1000 scores, without a filter, and returns those among them whose
    submission is one of the submissions found, in the order of the store;
    when the store reports the second query as failed an error is thrown.
    Every score returned belongs to a submission that the first query
    returned. *)
Theorem getScoresByHackathon_spec (W : Type) (world : World Db W) (w : W)
  (hackathonId : string) :
  run world (getScoresByHackathon hackathonId) w
  = (let first := queryRows submissions (submissionsQuery hackathonId) in
     let (found, w1) := world _ first w in
     match found with
     | Err e => (Err e, w1, [exchange first found])
     | Ok response =>
         match firstRow response with
         | None => (Ok [], w1, [exchange first found])
         | Some _ =>
             let second := queryRows scores allScoresQuery in
             let (answer, w2) := world _ second w1 in
             (match listed answer "Failed to fetch scores" with
              | Ok all => Ok (scoresOf (rowsOrEmpty response) all)
              | Err e => Err e
              end,
              w2, [exchange first found; exchange second answer])
         end
     end)
  /\ (forall (found : list Submission) (all : list Score) (score : Score),
         In score (scoresOf found all) ->
         In score all
         /\ exists submission,
              In submission found
              /\ submission_id submission = sc_submission_id score).
Proof.
  split; [apply run_getScoresByHackathon|].
  intros found all score H. unfold scoresOf in H.
  apply filter_In in H as [Hin H]. split; [assumption|].
  apply existsb_exists in H as (id & Hid & E).
  apply String.eqb_eq in E. subst id.
  apply in_map_iff in Hid as (submission & E & Hs). eauto.
Qed.

End QueriesFacts.

(** ** The role checks of the client *)

Module CheckRoleFacts.
Import JsString Effects EffectsFacts Rows ZeroDBClient CheckRole.

Section WithValidation.

Variable E : Type.
Variable validateUUID : string -> string -> result E unit.

(** The query by which [hasRole] asks for an assignment. *)
Definition roleQuery (participantId hackathonId : string)
  (role : RouteProtection.UserRole) : QueryOptions :=
  {| filter := Some [("hackathon_id", hackathonId);
                     ("participant_id", participantId);
                     ("role", roleName role)];
     limit := Some 1%Z;
     offset := None |}.

Lemma run_hasRole (W : Type) (world : World Db W) (w : W)
  (participantId hackathonId : string) (role : RouteProtection.UserRole) :
  run world (hasRole validateUUID participantId hackathonId role) w
  = match validateUUID participantId "participant_id",
          validateUUID hackathonId "hackathon_id" with
    | Ok _, Ok _ =>
        let query :=
          queryRows hackathon_participants
            (roleQuery participantId hackathonId role) in
        let (answer, w1) := world _ query w in
        (match answer with
         | Ok response => found response
         | Err _ => false
         end, w1, [exchange query answer])
    | _, _ => (false, w, [])
    end.
Proof.
  unfold hasRole. fold (roleQuery participantId hackathonId role).
  destruct (validateUUID participantId "participant_id") as [[]|e1];
    cbn [bind]; [|reflexivity].
  destruct (validateUUID hackathonId "hackathon_id") as [[]|e2]; [|reflexivity].
  cbn [run Row].
  match goal with
  | |- context [world ?X (queryRows ?t ?o) w] =>
      destruct (world X (queryRows t o) w) as [[response | e] w1]
  end; reflexivity.
Qed.

(** The query by which [getUserRole] and [isParticipant] ask for the
    assignment of a participant in a hackathon. *)
Definition assignmentQuery (participantId hackathonId : string) : QueryOptions :=
  {| filter := Some [("hackathon_id", hackathonId);
                     ("participant_id", participantId)];
     limit := Some 1%Z;
     offset := None |}.

(** Both identifiers pass [validateUUID] and the store answers the query with
    success and the rows [row :: others]. *)
Definition granted (W : Type) (world : World Db W) (w w1 : W)
  (participantId hackathonId : string) (options : QueryOptions)
  (row : HackathonParticipant) (others : list HackathonParticipant)
  (log : list (Exchange Db)) : Prop :=
  validateUUID participantId "participant_id" = Ok tt
  /\ validateUUID hackathonId "hackathon_id" = Ok tt
  /\ exists response,
       world _ (queryRows hackathon_participants options) w = (Ok response, w1)
       /\ ZeroDB.success response = true
       /\ ZeroDB.rows response = Some (row :: others)
       /\ log = [exchange (queryRows hackathon_participants options)
                          (Ok response)].

Lemma firstRow_Some {T : Type} (response : ZeroDB.Response T) (row : T) :
  firstRow response = Some row ->
  ZeroDB.success response = true
  /\ exists others, ZeroDB.rows response = Some (row :: others).
Proof.
  unfold firstRow.
  destruct (ZeroDB.success response); [|discriminate].
  destruct (ZeroDB.rows response) as [[|r others]|]; try discriminate.
  intros H. injection H as ->. eauto.
Qed.

Lemma hasRole_true (W : Type) (world : World Db W) (w w1 : W)
  (participantId hackathonId : string) (role : RouteProtection.UserRole)
  (log : list (Exchange Db)) :
  run world (hasRole validateUUID participantId hackathonId role) w
  = (true, w1, log) ->
  exists row others,
    granted world w w1 participantId hackathonId
      (roleQuery participantId hackathonId role) row others log.
Proof.
  rewrite run_hasRole. unfold granted.
  destruct (validateUUID participantId "participant_id") as [[]|e1];
    [|discriminate].
  destruct (validateUUID hackathonId "hackathon_id") as [[]|e2];
    [|discriminate].
  cbn zeta. cbn [Row].
  match goal with
  | |- context [world ?X (queryRows ?t ?o) w] =>
      destruct (world X (queryRows t o) w) as [[response | e] w2]
  end; [|discriminate].
  intros H. injection H as Hf -> <-. unfold found in Hf.
  destruct (firstRow response) as [row|] eqn:F; [|discriminate].
  destruct (firstRow_Some _ F) as (Hs & others & Hr).
  exists row, others. eauto 10.
Qed.

Lemma isParticipant_true (W : Type) (world : World Db W) (w w1 : W)
  (participantId hackathonId : string) (log : list (Exchange Db)) :
  run world (isParticipant validateUUID participantId hackathonId) w
  = (true, w1, log) ->
  exists row others,
    granted world w w1 participantId hackathonId
      (assignmentQuery participantId hackathonId) row others log.
Proof.
  unfold isParticipant, granted.
  fold (assignmentQuery participantId hackathonId).
  destruct (validateUUID participantId "participant_id") as [[]|e1];
    cbn [bind]; [|discriminate].
  destruct (validateUUID hackathonId "hackathon_id") as [[]|e2];
    [|discriminate].
  cbn [run Row].
  match goal with
  | |- context [world ?X (queryRows ?t ?o) w] =>
      destruct (world X (queryRows t o) w) as [[response | e] w2]
  end; [|discriminate].
  cbn [run]. intros H. injection H as Hf -> <-. unfold found in Hf.
  destruct (firstRow response) as [row|] eqn:F; [|discriminate].
  destruct (firstRow_Some _ F) as (Hs & others & Hr).
  exists row, others. eauto 10.
Qed.

Lemma getUserRole_Some (W : Type) (world : World Db W) (w w1 : W)
  (participantId hackathonId role : string) (log : list (Exchange Db)) :
  run world (getUserRole validateUUID participantId hackathonId) w
  = (Some role, w1, log) ->
  exists row others,
    hp_role row = role
    /\ granted world w w1 participantId hackathonId
         (assignmentQuery participantId hackathonId) row others log.
Proof.
  unfold getUserRole, granted.
  fold (assignmentQuery participantId hackathonId).
  destruct (validateUUID participantId "participant_id") as [[]|e1];
    cbn [bind]; [|discriminate].
  destruct (validateUUID hackathonId "hackathon_id") as [[]|e2];
    [|discriminate].
  cbn [run Row].
  match goal with
  | |- context [world ?X (queryRows ?t ?o) w] =>
      destruct (world X (queryRows t o) w) as [[response | e] w2]
  end; [|discriminate].
  cbn [run]. intros H. injection H as Hf -> <-.
  destruct (firstRow response) as [row|] eqn:F; [|discriminate].
  cbn [option_map] in Hf. injection Hf as Hf.
  destruct (firstRow_Some _ F) as (Hs & others & Hr).
  exists row, others. eauto 10.
Qed.

Lemma queryFn_true (W : Type) (world : World Db W) (w w1 : W)
  (participantId hackathonId : option string) (role : RouteProtection.UserRole)
  (log : list (Exchange Db)) :
  run world (UseHasRole.queryFn validateUUID participantId hackathonId role) w
  = (true, w1, log) ->
  exists participant hackathon row others,
    participantId = Some participant /\ participant <> ""
    /\ hackathonId = Some hackathon /\ hackathon <> ""
    /\ granted world w w1 participant hackathon
         (roleQuery participant hackathon role) row others log.
Proof.
  unfold UseHasRole.queryFn.
  destruct participantId as [participant|]; [|discriminate].
  destruct hackathonId as [hackathon|]; [|discriminate].
  destruct participant as [|c p]; [discriminate|].
  destruct hackathon as [|d h]; [discriminate|].
  cbn [truthy negb orb]. intros H.
  assert (H' : run world (hasRole validateUUID (String c p) (String d h) role) w
               = (true, w1, log))
    by (destruct role; exact H).
  destruct (hasRole_true _ _ _ _ _ H') as (row & others & G).
  exists (String c p), (String d h), row, others.
  repeat split; try assumption; try discriminate; apply G.
Qed.

(** X26. The role checks of the client fail closed, for any [validateUUID]
    and any behaviour of the store.  The query function of [useHasRole]
    answers true only when a participant id and a hackathon id are given and
    not empty, both pass [validateUUID], and the store answers the one query
    made, for an assignment of exactly this participant, hackathon and role
    (limit 1), with success and at least one row.  [isParticipant] answers
    true, and [getUserRole] returns a role, only when both ids pass
    [validateUUID] and the store answers the one query made, for the
    assignment of this participant in this hackathon, with success and a
    row; the role returned is that of the first row.  In every other case
    (an id missing or refused, a rejection, a failure reported by the store,
    no row) the answer is false or null; nothing is thrown. *)
Theorem role_checks_fail_closed (W : Type) (world : World Db W) (w w1 : W)
  (log : list (Exchange Db)) :
  (forall participantId hackathonId role,
      run world (UseHasRole.queryFn validateUUID participantId hackathonId role) w
      = (true, w1, log) ->
      exists participant hackathon row others,
        participantId = Some participant /\ participant <> ""
        /\ hackathonId = Some hackathon /\ hackathon <> ""
        /\ granted world w w1 participant hackathon
             (roleQuery participant hackathon role) row others log)
  /\ (forall participantId hackathonId,
         run world (isParticipant validateUUID participantId hackathonId) w
         = (true, w1, log) ->
         exists row others,
           granted world w w1 participantId hackathonId
             (assignmentQuery participantId hackathonId) row others log)
  /\ (forall participantId hackathonId role,
         run world (getUserRole validateUUID participantId hackathonId) w
         = (Some role, w1, log) ->
         exists row others,
           hp_role row = role
           /\ granted world w w1 participantId hackathonId
                (assignmentQuery participantId hackathonId) row others log).
Proof.
  split; [|split].
  - intros p h role. apply queryFn_true.
  - intros p h. apply isParticipant_true.
  - intros p h role. apply getUserRole_Some.
Qed.

End WithValidation.

(** A store that holds the assignment of a judge. *)
Definition judgeAssignment : HackathonParticipant :=
  {| hp_hackathon_id := "123e4567-e89b-12d3-a456-426614174000";
     hp_participant_id := "6f1c2a9e-0b7d-4c3e-9a51-7d2e8c4b1f60";
     hp_role := "JUDGE" |}.

Definition storeWithJudge : World Db nat :=
  fun X c =>
    match c in Db X return nat -> X * nat with
    | insertRows _ _ =>
        fun n => (Ok {| ZeroDB.success := true; ZeroDB.rows := None;
                        ZeroDB.error := None |}, S n)
    | queryRows table _ =>
        fun n =>
          (Ok {| ZeroDB.success := true;
                 ZeroDB.rows :=
                   Some (match table return list (Row table) with
                         | hackathon_participants => [judgeAssignment]
                         | _ => []
                         end);
                 ZeroDB.error := None |}, n)
    | randomUUID => fun n => ("9b2f6c1e-5d3a-4e7b-8f10-2a4c6e8b0d12", n)
    end.

Lemma role_checks_fail_closed_witness :
  exists row others,
    hp_role row = "JUDGE"
    /\ granted EmbeddingsNamespace.validateUUID (@storeWithJudge) 0 0
         "6f1c2a9e-0b7d-4c3e-9a51-7d2e8c4b1f60"
         "123e4567-e89b-12d3-a456-426614174000"
         (assignmentQuery "6f1c2a9e-0b7d-4c3e-9a51-7d2e8c4b1f60"
            "123e4567-e89b-12d3-a456-426614174000")
         row others
         [exchange (queryRows hackathon_participants
                      (assignmentQuery "6f1c2a9e-0b7d-4c3e-9a51-7d2e8c4b1f60"
                         "123e4567-e89b-12d3-a456-426614174000"))
                   (Ok {| ZeroDB.success := true;
                          ZeroDB.rows := Some [judgeAssignment];
                          ZeroDB.error := None |})].
Proof.
  exact (proj2 (proj2 (@role_checks_fail_closed _ EmbeddingsNamespace.validateUUID
                         nat (@storeWithJudge) 0 0
                         [exchange (queryRows hackathon_participants
                                      (assignmentQuery
                                         "6f1c2a9e-0b7d-4c3e-9a51-7d2e8c4b1f60"
                                         "123e4567-e89b-12d3-a456-426614174000"))
                                   (Ok {| ZeroDB.success := true;
                                          ZeroDB.rows := Some [judgeAssignment];
                                          ZeroDB.error := None |})]))
           "6f1c2a9e-0b7d-4c3e-9a51-7d2e8c4b1f60"
           "123e4567-e89b-12d3-a456-426614174000" "JUDGE" eq_refl).
Defined.

End CheckRoleFacts.

(** ** The component that guards a page *)

Module ProtectedRouteFacts.
Import JsString ProtectedRoute.

(** X27. What [ProtectedRoute] shows and where it sends the user.  The
    children are rendered exactly when the state of authentication is
    loaded, the user is authenticated and, if a role is required, the role
    query is loaded and either no hackathon id is given or the user holds
    the role: with a required role but no hackathon id every authenticated
    user is shown the children.  The effect pushes the login path, with the
    encoded path as [redirect], exactly when authentication is loaded and
    the user is not authenticated, and otherwise the path for unauthorized
    users (by default /unauthorized) exactly when both states are loaded, a
    role is required, a hackathon id is given and the user does not hold
    the role.  Whenever the children are rendered nothing is pushed. *)
Theorem protectedRoute_spec (encodeURIComponent : string -> string)
  (props : Props) (hooks : Hooks) :
  (render props hooks = children
   <-> authLoading hooks = false
       /\ isAuthenticated hooks = true
       /\ (requiredRole props = None
           \/ (roleLoading hooks = false
               /\ (given (hackathonId props) = false
                   \/ hasRole hooks = Some true))))
  /\ (effect encodeURIComponent props hooks
      = Some ("/login?redirect=" ++ encodeURIComponent (pathname hooks))
      \/ effect encodeURIComponent props hooks
         = Some (match redirectTo props with
                 | Some path => path
                 | None => "/unauthorized"
                 end)
      \/ effect encodeURIComponent props hooks = None)
  /\ (authLoading hooks = false /\ isAuthenticated hooks = false ->
      effect encodeURIComponent props hooks
      = Some ("/login?redirect=" ++ encodeURIComponent (pathname hooks)))
  /\ (authLoading hooks = false /\ isAuthenticated hooks = true
      /\ roleLoading hooks = false /\ requiredRole props <> None
      /\ given (hackathonId props) = true /\ hasRole hooks <> Some true ->
      effect encodeURIComponent props hooks
      = Some (match redirectTo props with
              | Some path => path
              | None => "/unauthorized"
              end))
  /\ (render props hooks = children ->
      effect encodeURIComponent props hooks = None).
Proof.
  unfold render, effect.
  destruct (authLoading hooks), (isAuthenticated hooks), (roleLoading hooks),
    (requiredRole props) as [role|], (given (hackathonId props)),
    (hasRole hooks) as [[|]|]; cbn;
    repeat split; intros; try tauto; try discriminate; try congruence; auto;
    try (intuition (discriminate || congruence)).
Qed.

End ProtectedRouteFacts.

(** ** Pages *)

Module PaginationFacts.
Import JsString Effects EffectsFacts Rows ZeroDBClient Participants Pagination.
Local Open Scope Z_scope.

Lemma length_concat_full {T : Type} (pages : list (list T)) (size : nat) :
  Forall (fun page => List.length page = size) pages ->
  List.length (concat pages) = (List.length pages * size)%nat.
Proof.
  induction 1 as [|page pages Hp _ IH]; cbn; [reflexivity|].
  rewrite length_app, IH, Hp. reflexivity.
Qed.

(** The query that the infinite list of participants sends for a page. *)
Definition pageQuery (hackathonId : string) (pageSize offset : Z) : QueryOptions :=
  {| ZeroDBClient.filter := if truthy hackathonId
                            then Some [("hackathon_id", hackathonId)] else None;
     ZeroDBClient.limit := Some pageSize;
     ZeroDBClient.offset := Some offset |}.

Lemma run_infiniteQueryFn (W : Type) (world : World Db W) (w : W)
  (hackathonId : string) (pageSize : Z) (pageParam : option Z) :
  pageSize <> 0 ->
  run world (UseParticipants.infiniteQueryFn hackathonId pageSize pageParam) w
  = let query :=
      queryRows hackathon_participants
        (pageQuery hackathonId pageSize
           (match pageParam with Some p => p | None => 0 end)) in
    let (answer, w1) := world _ query w in
    (RubricsFacts.listed answer "Failed to list hackathon participants",
     w1, [exchange query answer]).
Proof.
  intros Hs.
  unfold UseParticipants.infiniteQueryFn, listHackathonParticipants,
    createPaginationParams.
  cbn [lhp_hackathon_id lhp_role lhp_limit lhp_offset limit offset option_map
       entry].
  rewrite app_nil_r.
  assert (E1 : filterOrUndefined (if truthy hackathonId
                                  then [("hackathon_id", hackathonId)] else [])
               = if truthy hackathonId
                 then Some [("hackathon_id", hackathonId)] else None)
    by (destruct (truthy hackathonId); reflexivity).
  assert (E2 : ZeroDB.numberOr (Some pageSize) 100 = pageSize)
    by (unfold ZeroDB.numberOr; destruct (Z.eqb_spec pageSize 0); congruence).
  assert (E3 : ZeroDB.numberOr
                 (Some (match pageParam with Some p => p | None => 0 end)) 0
               = match pageParam with Some p => p | None => 0 end)
    by (unfold ZeroDB.numberOr;
        destruct (Z.eqb_spec (match pageParam with Some p => p | None => 0 end) 0);
        congruence).
  rewrite E1, E2, E3.
  fold (pageQuery hackathonId pageSize
          (match pageParam with Some p => p | None => 0 end)).
  cbn [andThen tryCatch await pbind run Row].
  match goal with
  | |- context [world ?X (queryRows ?t ?o) w] =>
      destruct (world X (queryRows t o) w) as [[response | e] w1]
  end; cbn; [|reflexivity].
  destruct (ZeroDB.success response); reflexivity.
Qed.

(** X28. Paging through the participants of a hackathon.  The first page
    is asked for at offset 0.  After pages that are all full (each holds
    [pageSize] rows), [getNextPageParam] returns the number of rows loaded
    so far, which is the length of what [flattenPages] returns, and the
    query sent for it asks for [pageSize] rows from that offset, filtered on
    the hackathon: no row is skipped and none is asked for twice.  After a
    last page that is short, [getNextPageParam] returns undefined. *)
Theorem infinite_pages_offsets (W : Type) (world : World Db W) (w : W)
  (hackathonId : string) (pageSize : Z)
  (allPages : list (list HackathonParticipant))
  (lastPage : list HackathonParticipant) :
  0 < pageSize ->
  Forall (fun page => Z.of_nat (List.length page) = pageSize) allPages ->
  (Z.of_nat (List.length lastPage) < pageSize ->
   UseParticipants.nextPageParam pageSize lastPage allPages = None)
  /\ (Z.of_nat (List.length lastPage) = pageSize ->
      let loaded := Z.of_nat (getTotalItems (Some allPages)) in
      UseParticipants.nextPageParam pageSize lastPage allPages = Some loaded
      /\ Z.of_nat (List.length (flattenPages (Some allPages))) = loaded
      /\ run world
             (UseParticipants.infiniteQueryFn hackathonId pageSize (Some loaded)) w
         = let query :=
             queryRows hackathon_participants
               (pageQuery hackathonId pageSize loaded) in
           let (answer, w1) := world _ query w in
           (RubricsFacts.listed answer "Failed to list hackathon participants",
            w1, [exchange query answer]))
  /\ run world (UseParticipants.infiniteQueryFn hackathonId pageSize None) w
     = let query :=
         queryRows hackathon_participants (pageQuery hackathonId pageSize 0) in
       let (answer, w1) := world _ query w in
       (RubricsFacts.listed answer "Failed to list hackathon participants",
        w1, [exchange query answer]).
Proof.
  intros Hs Hfull.
  assert (Hn : pageSize <> 0) by lia.
  split; [|split].
  - intros Hlt. unfold UseParticipants.nextPageParam, getNextPageParam.
    destruct (Z.ltb_spec (Z.of_nat (List.length lastPage)) pageSize);
      [reflexivity | lia].
  - intros Heq. cbn zeta.
    assert (L : Z.of_nat (getTotalItems (Some allPages))
                = Z.of_nat (List.length allPages) * pageSize).
    { unfold getTotalItems, flattenPages.
      rewrite (@length_concat_full _ allPages (Z.to_nat pageSize)).
      - rewrite Nat2Z.inj_mul, Z2Nat.id by lia. reflexivity.
      - eapply Forall_impl; [|exact Hfull]. cbn. intros page Hp. lia. }
    split; [|split].
    + unfold UseParticipants.nextPageParam, getNextPageParam.
      destruct (Z.ltb_spec (Z.of_nat (List.length lastPage)) pageSize); [lia|].
      now rewrite L.
    + reflexivity.
    + now apply (@run_infiniteQueryFn W world w hackathonId pageSize
                   (Some (Z.of_nat (getTotalItems (Some allPages))))).
  - now apply (@run_infiniteQueryFn W world w hackathonId pageSize None).
Qed.

Definition somePage : list HackathonParticipant :=
  [CheckRoleFacts.judgeAssignment; CheckRoleFacts.judgeAssignment].

Lemma infinite_pages_offsets_witness :
  UseParticipants.nextPageParam 2 somePage [somePage; somePage] = Some 4
  /\ UseParticipants.nextPageParam 2 [CheckRoleFacts.judgeAssignment]
       [somePage; somePage] = None.
Proof.
  destruct (@infinite_pages_offsets nat (@CheckRoleFacts.storeWithJudge) 0%nat
              "123e4567-e89b-12d3-a456-426614174000" 2
              [somePage; somePage] somePage ltac:(lia)
              ltac:(repeat constructor))
    as (_ & H & _).
  destruct (@infinite_pages_offsets nat (@CheckRoleFacts.storeWithJudge) 0%nat
              "123e4567-e89b-12d3-a456-426614174000" 2
              [somePage; somePage] [CheckRoleFacts.judgeAssignment] ltac:(lia)
              ltac:(repeat constructor))
    as (H' & _).
  split.
  - exact (proj1 (H eq_refl)).
  - apply H'. cbn. lia.
Defined.

Lemma ceilDiv_spec (a b : Z) :
  0 < b -> (ceilDiv a b - 1) * b < a <= ceilDiv a b * b.
Proof.
  intros Hb. unfold ceilDiv.
  pose proof (Z.mul_div_le (- a) b Hb).
  pose proof (Z.mul_succ_div_gt (- a) b Hb). nia.
Qed.

(** X29. The counters of a page.  For a positive page size, a page index
    that is not negative and a known total of items: the number of pages is
    the least number of pages that hold the total; [endItem] never exceeds
    the total; [hasNext] holds exactly when a later page exists and then the
    page shown is full, from [startItem] to [endItem]; [hasPrevious] holds
    exactly from the second page on; and for a page that exists the items
    shown are at least one and at most a page.  Without a total there is
    always a next page and no page count.  [calculateNextOffset] returns an
    offset, the current one plus the page size, exactly when
    [hasMorePages] holds. *)
Theorem pagination_counters (currentPage pageSize : Z) :
  0 < pageSize -> 0 <= currentPage ->
  (forall totalItems, 0 <= totalItems ->
     let info := getPaginationInfo currentPage pageSize (Some totalItems) in
     exists pages,
       totalPages info = Some pages
       /\ (pages - 1) * pageSize < totalItems <= pages * pageSize
       /\ endItem info <= totalItems
       /\ (hasNext info = true <-> currentPage + 1 < pages)
       /\ (hasNext info = true -> endItem info = startItem info + pageSize - 1)
       /\ (hasPrevious info = true <-> 0 < currentPage)
       /\ (currentPage < pages ->
           startItem info <= endItem info < startItem info + pageSize))
  /\ (let info := getPaginationInfo currentPage pageSize None in
      totalPages info = None /\ hasNext info = true
      /\ endItem info = startItem info + pageSize - 1)
  /\ (forall currentOffset itemsReturned,
         (hasMorePages itemsReturned pageSize = true
          -> calculateNextOffset currentOffset pageSize itemsReturned
             = Some (currentOffset + pageSize))
         /\ (hasMorePages itemsReturned pageSize = false
             -> calculateNextOffset currentOffset pageSize itemsReturned = None)).
Proof.
  intros Hs Hc. split; [|split].
  - intros n Hn. cbn zeta. unfold getPaginationInfo.
    cbn [totalPages endItem startItem hasNext hasPrevious option_map].
    exists (ceilDiv n pageSize).
    pose proof (ceilDiv_spec n Hs) as [Hlo Hhi].
    split; [reflexivity|]. split; [lia|].
    split; [lia|].
    split; [|split; [|split]].
    + rewrite Z.ltb_lt. split; intros Hx; [nia|].
      assert ((currentPage + 1) * pageSize < n) by nia. lia.
    + rewrite Z.ltb_lt. intros Hx. lia.
    + rewrite Z.gtb_lt. lia.
    + intros Hx. nia.
  - cbn. split; [reflexivity|]. split; [reflexivity | lia].
  - intros o i. unfold hasMorePages, calculateNextOffset.
    rewrite Z.geb_leb.
    destruct (Z.leb_spec pageSize i), (Z.ltb_spec i pageSize);
      split; intros Hx; try reflexivity; try discriminate; lia.
Qed.

Lemma pagination_counters_witness :
  exists pages,
    totalPages (getPaginationInfo 0 50 (Some 150)) = Some pages
    /\ (pages - 1) * 50 < 150 <= pages * 50
    /\ endItem (getPaginationInfo 0 50 (Some 150)) <= 150
    /\ (hasNext (getPaginationInfo 0 50 (Some 150)) = true <-> 0 + 1 < pages)
    /\ (hasNext (getPaginationInfo 0 50 (Some 150)) = true ->
        endItem (getPaginationInfo 0 50 (Some 150))
        = startItem (getPaginationInfo 0 50 (Some 150)) + 50 - 1)
    /\ (hasPrevious (getPaginationInfo 0 50 (Some 150)) = true <-> 0 < 0)
    /\ (0 < pages ->
        startItem (getPaginationInfo 0 50 (Some 150))
        <= endItem (getPaginationInfo 0 50 (Some 150))
        < startItem (getPaginationInfo 0 50 (Some 150)) + 50).
Proof.
  exact (proj1 (@pagination_counters 0 50 ltac:(lia) ltac:(lia)) 150 ltac:(lia)).
Defined.

(** The values of the test suite. *)
Example getPaginationInfo_first_page :
  getPaginationInfo 0 50 (Some 150)
  = {| startItem := 1; endItem := 50; totalPages := Some 3;
       hasNext := true; hasPrevious := false |}.
Proof. reflexivity. Qed.

Example getPaginationInfo_no_items :
  getPaginationInfo 0 50 (Some 0)
  = {| startItem := 1; endItem := 0; totalPages := Some 0;
       hasNext := false; hasPrevious := false |}.
Proof. reflexivity. Qed.

End PaginationFacts.

(** ** Retries *)

Module QueryProviderFacts.
Import QueryProvider.
Local Open Scope Z_scope.

(** The status that the retry function goes by. *)
Definition statusOf (error : QueryError) : option Z :=
  orElse (statusCode error) (response_status error).

(** X30. The retry policy of the queries.  A failure whose status, taken
    from the error or else from its response, lies from 400 to 499 is never
    retried; any other failure is retried exactly while fewer than 3
    failures were counted.  The delay before a retry is 1000 ms times 2 to
    the attempt index up to index 3 and 10000 ms from index 4 on: it never
    decreases and never exceeds 10000 ms. *)
Theorem retry_policy :
  (forall failureCount error code,
      statusOf error = Some code -> 400 <= code < 500 ->
      retry failureCount error = false)
  /\ (forall failureCount error,
         (forall code, statusOf error = Some code -> code < 400 \/ 500 <= code) ->
         retry failureCount error = (failureCount <? 3))
  /\ (forall failureCount error, 3 <= failureCount ->
         retry failureCount error = false)
  /\ (forall attemptIndex, 0 <= attemptIndex ->
         retryDelay attemptIndex
         = if attemptIndex <=? 3 then 1000 * 2 ^ attemptIndex else 10000)
  /\ (forall a b, 0 <= a <= b -> retryDelay a <= retryDelay b <= 10000).
Proof.
  assert (P : forall a b, 0 <= a <= b -> 2 ^ a <= 2 ^ b)
    by (intros a b H; apply Z.pow_le_mono_r; lia).
  assert (D : forall n, 0 <= n ->
                retryDelay n = if n <=? 3 then 1000 * 2 ^ n else 10000).
  { intros n Hn. unfold retryDelay.
    destruct (Z.leb_spec n 3).
    - pose proof (P n 3 ltac:(lia)). change (2 ^ 3) with 8 in *. lia.
    - pose proof (P 4 n ltac:(lia)). change (2 ^ 4) with 16 in *. lia. }
  repeat split.
  - intros n error code Hc Hr. unfold retry. fold (statusOf error).
    rewrite Hc.
    destruct (Z.eqb_spec code 0); [lia|].
    destruct (Z.geb_spec code 400); [|lia].
    destruct (Z.ltb_spec code 500); [reflexivity | lia].
  - intros n error H. unfold retry. fold (statusOf error).
    destruct (statusOf error) as [code|]; [|reflexivity].
    destruct (H code eq_refl);
      destruct (Z.eqb_spec code 0), (Z.geb_spec code 400), (Z.ltb_spec code 500);
      cbn; try reflexivity; lia.
  - intros n error Hn. unfold retry.
    destruct (Z.ltb_spec n 3); [lia|].
    now destruct (match orElse (statusCode error) (response_status error) with
                  | Some code => _ | None => _ end).
  - exact D.
  - rewrite !D by lia.
    destruct (Z.leb_spec a 3), (Z.leb_spec b 3); try lia.
    + pose proof (P a b ltac:(lia)). lia.
    + pose proof (P a 3 ltac:(lia)). change (2 ^ 3) with 8 in *. lia.
  - rewrite D by lia.
    destruct (Z.leb_spec b 3); [|lia].
    pose proof (P b 3 ltac:(lia)). change (2 ^ 3) with 8 in *. lia.
Qed.

End QueryProviderFacts.
